(** * IWOOT: the product / receipt validation and service layer

    A shallow embedding of the validators ([product.validator.ts],
    [receipt.validator.ts]), the Firestore repositories
    ([lib/firebase/products.ts], [lib/firebase/receipts.ts]), the service
    layer ([product.service.ts], [receipt.service.ts]) and the product
    lookup helper ([product-lookup.service.ts]).

    JavaScript objects are finite maps from property names to values; the
    document store is a finite map from document ids to objects; functions
    that talk to the store, the clock or the network are state-passing
    functions over a [World] that may return or throw. *)

From Stdlib Require Import QArith Ascii String OrderedTypeEx.
From stdpp Require Import gmap strings list fin_maps pretty sorting.

Open Scope string_scope.

(** ** JavaScript values *)

(** A JavaScript [number]: the finite values are idealised as rationals (the
    code only compares them with [0]); [NaN] and the two infinities are kept
    because truthiness and the comparisons treat them specially. *)
Inductive number :=
| NaN
| PosInf
| NegInf
| Fin (q : Q).

(** [n <= 0] *)
Definition num_le0 (n : number) : bool :=
  match n with
  | NaN => false
  | PosInf => false
  | NegInf => true
  | Fin q => Qle_bool q 0
  end.

(** [n < 0] *)
Definition num_lt0 (n : number) : bool :=
  match n with
  | NaN => false
  | PosInf => false
  | NegInf => true
  | Fin q => negb (Qle_bool 0 q)
  end.

(** [n > 0] *)
Definition num_gt0 (n : number) : bool :=
  match n with
  | NaN => false
  | PosInf => true
  | NegInf => false
  | Fin q => negb (Qle_bool q 0)
  end.

(** ToBoolean on a number: [0], [-0] and [NaN] are falsy. *)
Definition num_truthy (n : number) : bool :=
  match n with
  | NaN => false
  | PosInf | NegInf => true
  | Fin q => negb (Qeq_bool q 0)
  end.

#[global] Instance Q_eq_dec : EqDecision Q.
Proof. solve_decision. Defined.
#[global] Instance number_eq_dec : EqDecision number.
Proof. solve_decision. Defined.

(** The values a field of a stored document or of a payload holds.  The
    documents of this application nest two levels deep (an array of flat
    objects: [priceHistory], [items]), so values are stratified:
    scalars, array elements, field values.  A property of a payload may be
    there with the value [undefined] ([receiptImage: receiptImageUrl ||
    undefined]): that is [VUndefined].  The entries of arrays and of nested
    objects are defined values. *)
Inductive scalar :=
| SNull
| SBool (b : bool)
| SNum (n : number)
| SStr (s : string).

Inductive elem :=
| EScalar (s : scalar)
| EObj (o : gmap string scalar).

Inductive value :=
| VScalar (s : scalar)
| VArr (l : list elem)
| VObj (o : gmap string scalar)
| VUndefined.

#[global] Instance scalar_eq_dec : EqDecision scalar.
Proof. solve_decision. Defined.
#[global] Instance elem_eq_dec : EqDecision elem.
Proof. solve_decision. Defined.
#[global] Instance value_eq_dec : EqDecision value.
Proof. solve_decision. Defined.

(** A JavaScript object, as the payloads and the stored documents are: a map
    from property names to values.  Reading a property whose value is
    [undefined] gives what reading an absent property gives; the document
    store tells the two apart. *)
Abbreviation obj := (gmap string value).

(** What a property read evaluates to: [undefined] when the property is
    absent. *)
Inductive js :=
| JUndefined
| JScalar (s : scalar)
| JArr (l : list elem)
| JObj (o : gmap string scalar).

Definition js_of_value (v : value) : js :=
  match v with
  | VScalar s => JScalar s
  | VArr l => JArr l
  | VObj o => JObj o
  | VUndefined => JUndefined
  end.

Definition js_of_elem (e : elem) : js :=
  match e with
  | EScalar s => JScalar s
  | EObj o => JObj o
  end.

(** [o.k] on an object of a document or payload. *)
Definition prop (o : obj) (k : string) : js :=
  match o !! k with
  | Some v => js_of_value v
  | None => JUndefined
  end.

(** [item.k] on an element of an array. *)
Definition field (e : elem) (k : string) : js :=
  match e with
  | EObj o => match o !! k with Some s => JScalar s | None => JUndefined end
  | EScalar _ => JUndefined
  end.

Definition JStr (s : string) : js := JScalar (SStr s).
Definition JNum (n : number) : js := JScalar (SNum n).
Definition VStr (s : string) : value := VScalar (SStr s).
Definition VNum (n : number) : value := VScalar (SNum n).
Definition VBool (b : bool) : value := VScalar (SBool b).

(** ToBoolean: [undefined], [null], [false], [0], [NaN] and the empty string
    are falsy; arrays and objects are truthy. *)
Definition truthy (v : js) : bool :=
  match v with
  | JUndefined => false
  | JScalar SNull => false
  | JScalar (SBool b) => b
  | JScalar (SNum n) => num_truthy n
  | JScalar (SStr s) => negb (String.eqb s "")
  | JArr _ => true
  | JObj _ => true
  end.

(** [!v] *)
Definition falsy (v : js) : bool := negb (truthy v).

(** [v !== undefined] *)
Definition defined (v : js) : bool :=
  match v with JUndefined => false | _ => true end.

(** [v === s] for a string [s]: strict equality, no coercion. *)
Definition strict_eq_str (v : js) (s : string) : bool :=
  match v with
  | JScalar (SStr t) => String.eqb t s
  | _ => false
  end.

(** The operations below are exact on the operands the TypeScript types of
    the source admit (a value of the declared type, or an absent property)
    and on [null]; on an operand of another type JavaScript coerces or
    throws a [TypeError], and the embedding answers [false]. *)

(** [v <= 0] *)
Definition le0 (v : js) : bool :=
  match v with
  | JScalar (SNum n) => num_le0 n
  | JScalar SNull => true
  | _ => false
  end.

(** [v < 0] *)
Definition lt0 (v : js) : bool :=
  match v with
  | JScalar (SNum n) => num_lt0 n
  | _ => false
  end.

(** [typeof v === "number"] *)
Definition is_number (v : js) : bool :=
  match v with JScalar (SNum _) => true | _ => false end.

(** [v !== null] *)
Definition not_null (v : js) : bool :=
  match v with JScalar SNull => false | _ => true end.

(** ** Strings *)

(** The white space and line terminators [String.prototype.trim] strips,
    among the code units below 256. *)
Definition is_space (c : ascii) : bool :=
  match nat_of_ascii c with
  | 9 | 10 | 11 | 12 | 13 | 32 | 160 => true
  | _ => false
  end.

Fixpoint trim_start (s : string) : string :=
  match s with
  | EmptyString => EmptyString
  | String c s' => if is_space c then trim_start s' else s
  end.

Fixpoint trim_end (s : string) : string :=
  match s with
  | EmptyString => EmptyString
  | String c s' =>
      let t := trim_end s' in
      if is_space c && String.eqb t "" then EmptyString else String c t
  end.

(** [s.trim()] *)
Definition trim (s : string) : string := trim_end (trim_start s).

(** [v.trim().length === 0] *)
Definition blank (v : js) : bool :=
  match v with
  | JScalar (SStr s) => Nat.eqb (String.length (trim s)) 0
  | _ => false
  end.

Definition is_digit (c : ascii) : bool :=
  let n := nat_of_ascii c in Nat.leb 48 n && Nat.leb n 57.

Fixpoint all_digits (s : string) : bool :=
  match s with
  | EmptyString => true
  | String c s' => is_digit c && all_digits s'
  end.

(** [/^\d+$/.test(s)]: one or more decimal digits and nothing else. *)
Definition test_digits (s : string) : bool :=
  negb (String.eqb s "") && all_digits s.

(** [errors.join(", ")] *)
Definition join (sep : string) (l : list string) : string := String.concat sep l.

(** [array.forEach((x, index) => ...)] over a body that updates a state. *)
Fixpoint forEach_from {A S : Type} (body : A -> nat -> S -> S)
    (l : list A) (index : nat) (st : S) : S :=
  match l with
  | [] => st
  | x :: l' => forEach_from body l' (index + 1) (body x index st)
  end.

Definition forEach {A S : Type} (body : A -> nat -> S -> S) (l : list A) (st : S) : S :=
  forEach_from body l 0 st.

(** ** The external product database

    The answer of the lookup API (UPCitemdb), as its interface describes
    it: a status code and candidate items, any field of which may be
    absent. *)
Record ApiOffer := {
  link : option string;
}.

Record ApiItem := {
  item_title : option string;
  item_brand : option string;
  item_description : option string;
  item_category : option string;
  item_images : option (list string);
  item_lowest_recorded_price : option number;
  item_highest_recorded_price : option number;
  item_offers : option (list ApiOffer);
  item_specs : option (gmap string string);
}.

Record ApiData := {
  data_code : option string;
  data_items : option (list ApiItem);
}.

(** What [fetch(url)] settles to: a rejection, or a response with its [ok]
    flag, its status and what [response.json()] gives ([None] when the body
    is not JSON and [json()] rejects). *)
Record HttpResponse := {
  ok : bool;
  status : nat;
  json : option ApiData;
}.

Inductive FetchResult :=
| NetworkError
| Responded (response : HttpResponse).

(** ** The platform

    What the source takes from the JavaScript runtime and the network and
    does not define itself. *)
Class Platform := {
  (** [new URL(s)] does not throw *)
  url_parses : string -> bool;
  (** [!isNaN(new Date(s).getTime())] *)
  date_parses : string -> bool;
  (** [new Date().toISOString()] at the k-th reading of the clock *)
  toISOString : nat -> string;
  (** [a.localeCompare(b)] *)
  localeCompare : string -> string -> comparison;
  (** [encodeURIComponent(s)] *)
  encodeURIComponent : string -> string;
  (** [fetch(url, { method: "GET", ... })] *)
  fetch : string -> FetchResult;
}.

(** ** Validators ([product.validator.ts], [receipt.validator.ts]) *)

Record ValidationResult := {
  valid : bool;
  errors : list string;
}.

(** [if (c) errors.push(msg)] *)
Definition push_if (c : bool) (msg : string) (errors : list string) : list string :=
  if c then errors ++ [msg] else errors.

Section Validators.
Context `{Platform}.

(** [isValidUrl(url)]: [new URL(url)] inside [try]/[catch]. *)
Definition isValidUrl (url : js) : bool :=
  match url with
  | JScalar (SStr s) => url_parses s
  | _ => false
  end.

(** [isValidDate(dateString)]; [new Date(null)] is the epoch. *)
Definition isValidDate (dateString : js) : bool :=
  match dateString with
  | JScalar (SStr s) => date_parses s
  | JScalar SNull => true
  | _ => false
  end.

(** The body of [images.forEach((url, index) => ...)], shared by both
    product validators. *)
Definition check_image (url : elem) (index : nat) (errors : list string) : list string :=
  push_if (negb (isValidUrl (js_of_elem url)))
    ("Image URL " ++ pretty (index + 1) ++ " is not a valid URL") errors.

Definition validateProduct (product : obj) : ValidationResult :=
  let errors := [] in
  (* Required fields *)
  let errors :=
    push_if (falsy (prop product "name") || blank (prop product "name"))
      "Product name is required" errors in
  let errors :=
    push_if (falsy (prop product "brand") || blank (prop product "brand"))
      "Brand is required" errors in
  let errors :=
    push_if (falsy (prop product "website") || negb (isValidUrl (prop product "website")))
      "Valid website URL is required" errors in
  let errors :=
    push_if (falsy (prop product "originalPrice") || le0 (prop product "originalPrice"))
      "Original price must be greater than 0" errors in
  let errors :=
    push_if (falsy (prop product "date") || negb (isValidDate (prop product "date")))
      "Valid date is required" errors in
  let errors :=
    push_if (falsy (prop product "userId") || blank (prop product "userId"))
      "User ID is required" errors in
  (* Type-specific validation *)
  let errors :=
    if strict_eq_str (prop product "type") "want" then
      let errors :=
        push_if (truthy (prop product "currentPrice") && le0 (prop product "currentPrice"))
          "Current price must be greater than 0" errors in
      push_if (truthy (prop product "targetPrice") && le0 (prop product "targetPrice"))
        "Target price must be greater than 0" errors
    else if strict_eq_str (prop product "type") "have" then
      push_if (falsy (prop product "priceBought") || le0 (prop product "priceBought"))
        "Price bought must be greater than 0" errors
    else errors in
  (* Image validation *)
  let errors :=
    match prop product "images" with
    | JArr images => forEach check_image images errors
    | _ => errors
    end in
  {| valid := Nat.eqb (length errors) 0; errors := errors |}.

Definition validateProductUpdate (updates : obj) : ValidationResult :=
  let errors := [] in
  let errors :=
    if defined (prop updates "name") then
      push_if (falsy (prop updates "name") || blank (prop updates "name"))
        "Product name cannot be empty" errors
    else errors in
  let errors :=
    if defined (prop updates "website") then
      push_if (negb (isValidUrl (prop updates "website")))
        "Website must be a valid URL" errors
    else errors in
  let errors :=
    push_if (defined (prop updates "originalPrice") && le0 (prop updates "originalPrice"))
      "Original price must be greater than 0" errors in
  let errors :=
    if defined (prop updates "currentPrice") && not_null (prop updates "currentPrice") then
      push_if (is_number (prop updates "currentPrice") && le0 (prop updates "currentPrice"))
        "Current price must be greater than 0" errors
    else errors in
  let errors :=
    if defined (prop updates "priceBought") then
      push_if (is_number (prop updates "priceBought") && le0 (prop updates "priceBought"))
        "Price bought must be greater than 0" errors
    else errors in
  let errors :=
    push_if (defined (prop updates "date") && negb (isValidDate (prop updates "date")))
      "Date must be a valid date" errors in
  let errors :=
    match prop updates "images" with
    | JArr images => forEach check_image images errors
    | _ => errors
    end in
  {| valid := Nat.eqb (length errors) 0; errors := errors |}.

(** The body of [items.forEach((item, index) => ...)] in [validateReceipt]. *)
Definition check_item (item : elem) (index : nat) (errors : list string) : list string :=
  let errors :=
    push_if (falsy (field item "productId") || blank (field item "productId"))
      ("Item " ++ pretty (index + 1) ++ ": Product ID is required") errors in
  let errors :=
    push_if (falsy (field item "quantity") || le0 (field item "quantity"))
      ("Item " ++ pretty (index + 1) ++ ": Quantity must be greater than 0") errors in
  push_if (lt0 (field item "discountedPrice"))
    ("Item " ++ pretty (index + 1) ++ ": Price cannot be negative") errors.

(** The body of [items.forEach((item, index) => ...)] in
    [validateReceiptUpdate]. *)
Definition check_item_update (item : elem) (index : nat) (errors : list string) : list string :=
  let errors :=
    push_if (falsy (field item "productId") || blank (field item "productId"))
      ("Item " ++ pretty (index + 1) ++ ": Product ID is required") errors in
  push_if (falsy (field item "quantity") || le0 (field item "quantity"))
    ("Item " ++ pretty (index + 1) ++ ": Quantity must be greater than 0") errors.

(** [items.length === 0] *)
Definition length_is_0 (v : js) : bool :=
  match v with
  | JArr l => Nat.eqb (length l) 0
  | JScalar (SStr s) => Nat.eqb (String.length s) 0
  | _ => false
  end.

Definition validateReceipt (receipt : obj) : ValidationResult :=
  let errors := [] in
  let errors :=
    push_if (falsy (prop receipt "receiptNumber") || blank (prop receipt "receiptNumber"))
      "Receipt number is required" errors in
  let errors :=
    push_if (falsy (prop receipt "storeName") || blank (prop receipt "storeName"))
      "Store name is required" errors in
  let errors :=
    push_if (falsy (prop receipt "receiptDate") || negb (isValidDate (prop receipt "receiptDate")))
      "Valid receipt date is required" errors in
  let errors :=
    push_if (falsy (prop receipt "items") || length_is_0 (prop receipt "items"))
      "Receipt must have at least one item" errors in
  let errors :=
    match prop receipt "items" with
    | JArr items => forEach check_item items errors
    | _ => errors
    end in
  let errors :=
    push_if (lt0 (prop receipt "totalAmount")) "Total amount cannot be negative" errors in
  let errors :=
    push_if (falsy (prop receipt "userId") || blank (prop receipt "userId"))
      "User ID is required" errors in
  let errors :=
    push_if (truthy (prop receipt "receiptImage") && negb (isValidUrl (prop receipt "receiptImage")))
      "Receipt image must be a valid URL" errors in
  {| valid := Nat.eqb (length errors) 0; errors := errors |}.

Definition validateReceiptUpdate (updates : obj) : ValidationResult :=
  let errors := [] in
  let errors :=
    if defined (prop updates "receiptNumber") then
      push_if (falsy (prop updates "receiptNumber") || blank (prop updates "receiptNumber"))
        "Receipt number cannot be empty" errors
    else errors in
  let errors :=
    if defined (prop updates "storeName") then
      push_if (falsy (prop updates "storeName") || blank (prop updates "storeName"))
        "Store name cannot be empty" errors
    else errors in
  let errors :=
    push_if (defined (prop updates "receiptDate")
             && negb (isValidDate (prop updates "receiptDate")))
      "Receipt date must be a valid date" errors in
  let errors :=
    match prop updates "items" with
    | JArr items =>
        let errors :=
          push_if (Nat.eqb (length items) 0) "Receipt must have at least one item" errors in
        forEach check_item_update items errors
    | _ => errors
    end in
  let errors :=
    push_if (defined (prop updates "totalAmount") && lt0 (prop updates "totalAmount"))
      "Total amount cannot be negative" errors in
  let errors :=
    push_if (defined (prop updates "receiptImage") && truthy (prop updates "receiptImage")
             && negb (isValidUrl (prop updates "receiptImage")))
      "Receipt image must be a valid URL" errors in
  {| valid := Nat.eqb (length errors) 0; errors := errors |}.

End Validators.

(** ** Errors, the world, and functions that may throw *)

(** A thrown [Error]: a [FirebaseError] carries a [code]. *)
Record JsError := {
  code : option string;
  message : string;
}.

(** [new Error(msg)] *)
Definition Error (msg : string) : JsError := {| code := None; message := msg |}.

Inductive outcome (A : Type) :=
| Returned (a : A)
| Thrown (e : JsError).
Arguments Returned {A} a.
Arguments Thrown {A} e.

Inductive collection :=
| PRODUCTS_COLLECTION
| RECEIPTS_COLLECTION.

(** A [where(field, op, value)] clause of a query. *)
Inductive constraint :=
| WhereEq (fieldPath : string) (v : value)
| WhereArrayContainsAny (fieldPath : string) (vs : list elem).

(** The requests the repositories send to the document store. *)
Inductive StoreCall :=
| GetDoc (c : collection) (id : string)
| GetDocs (c : collection) (q : list constraint)
| AddDoc (c : collection) (data : obj)
| UpdateDoc (c : collection) (id : string) (data : obj)
| DeleteDoc (c : collection) (id : string).

Record World := {
  (** [isFirebaseInitialized() && db] *)
  initialized : bool;
  (** the failure the store answers a request with, when it is failing *)
  backend : option JsError;
  (** the documents of the "products" collection, by id *)
  products : gmap string obj;
  (** the documents of the "receipts" collection, by id *)
  receipts : gmap string obj;
  (** how many times the clock has been read *)
  clock : nat;
  (** the requests sent to the store so far, oldest first *)
  calls : list StoreCall;
  (** the URLs fetched so far, oldest first *)
  fetched : list string;
}.

Definition docs (c : collection) (w : World) : gmap string obj :=
  match c with
  | PRODUCTS_COLLECTION => products w
  | RECEIPTS_COLLECTION => receipts w
  end.

Definition set_docs (c : collection) (d : gmap string obj) (w : World) : World :=
  match c with
  | PRODUCTS_COLLECTION =>
      {| initialized := initialized w; backend := backend w; products := d;
         receipts := receipts w; clock := clock w; calls := calls w; fetched := fetched w |}
  | RECEIPTS_COLLECTION =>
      {| initialized := initialized w; backend := backend w; products := products w;
         receipts := d; clock := clock w; calls := calls w; fetched := fetched w |}
  end.

Definition log_call (call : StoreCall) (w : World) : World :=
  {| initialized := initialized w; backend := backend w; products := products w;
     receipts := receipts w; clock := clock w; calls := calls w ++ [call];
     fetched := fetched w |}.

Definition tick (w : World) : World :=
  {| initialized := initialized w; backend := backend w; products := products w;
     receipts := receipts w; clock := S (clock w); calls := calls w; fetched := fetched w |}.

Definition log_fetch (url : string) (w : World) : World :=
  {| initialized := initialized w; backend := backend w; products := products w;
     receipts := receipts w; clock := clock w; calls := calls w;
     fetched := fetched w ++ [url] |}.

(** An [async] function of the source: it reads and changes the world, and
    returns or throws. *)
Definition M (A : Type) : Type := World -> outcome A * World.

Definition ret {A} (a : A) : M A := fun w => (Returned a, w).

Definition throw {A} (e : JsError) : M A := fun w => (Thrown e, w).

Definition bind {A B} (m : M A) (k : A -> M B) : M B :=
  fun w =>
    match m w with
    | (Returned a, w') => k a w'
    | (Thrown e, w') => (Thrown e, w')
    end.

(** [try { m } catch (error) { handler }] *)
Definition try_catch {A} (m : M A) (handler : JsError -> M A) : M A :=
  fun w =>
    match m w with
    | (Returned a, w') => (Returned a, w')
    | (Thrown e, w') => handler e w'
    end.

Notation "'let!' x ':=' m 'in' k" := (bind m (fun x => k))
  (at level 10, x binder, m at level 100, k at level 200).
Notation "m ';;' k" := (bind m (fun _ => k))
  (at level 100, k at level 200, right associativity).

Definition get_world : M World := fun w => (Returned w, w).

(** ** The document store (Firestore), as the repositories use it *)

(** Whether a document satisfies a [where] clause.  [==] compares the field
    with the value; [array-contains-any] holds when the field is an array
    one of whose elements equals, as a whole, one of the given values. *)
Definition satisfies (d : obj) (q : constraint) : bool :=
  match q with
  | WhereEq fieldPath v => bool_decide (d !! fieldPath = Some v)
  | WhereArrayContainsAny fieldPath vs =>
      match d !! fieldPath with
      | Some (VArr l) => existsb (fun e => bool_decide (e ∈ vs)) l
      | _ => false
      end
  end.

Definition matches (q : list constraint) (d : obj) : bool :=
  forallb (satisfies d) q.

(** Every request is logged; a failing store rejects it. *)
Definition request (call : StoreCall) : M unit :=
  fun w =>
    match backend w with
    | Some e => (Thrown e, log_call call w)
    | None => (Returned tt, log_call call w)
    end.

(** [getDoc(doc(db, c, id))]: the snapshot's data, [None] when
    [!docSnap.exists()]. *)
Definition getDoc (c : collection) (id : string) : M (option obj) :=
  request (GetDoc c id);;
  let! w := get_world in
  ret (docs c w !! id).

(** [getDocs(query(collection(db, c), ...q))]: [snapshot.docs], each with
    its id and data. *)
Definition getDocs (c : collection) (q : list constraint) : M (list (string * obj)) :=
  request (GetDocs c q);;
  let! w := get_world in
  ret (filter (fun d => matches q d.2 = true) (map_to_list (docs c w))).

(** Whether a payload has a property whose value is [undefined]. *)
Definition has_undefined (data : obj) : bool :=
  existsb (fun field => bool_decide (field.2 = VUndefined)) (map_to_list data).

(** What the client library throws, before it sends anything, for data
    with an [undefined] in it (the application does not set
    [ignoreUndefinedProperties]); its message goes on to name the field and
    the document. *)
Definition invalid_data (fn : string) : JsError :=
  {| code := Some "invalid-argument";
     message := "Function " ++ fn
                ++ "() called with invalid data. Unsupported field value: undefined" |}.

(** [addDoc(collection(db, c), data)]: stores the data under an id no
    document of the collection has, and returns that id ([docRef.id]). *)
Definition addDoc (c : collection) (data : obj) : M string :=
  if has_undefined data then throw (invalid_data "addDoc")
  else
    request (AddDoc c data);;
    fun w =>
      let id := fresh (dom (docs c w)) in
      (Returned id, set_docs c (<[id := data]> (docs c w)) w).

(** [updateDoc(doc(db, c, id), data)]: overwrites the given fields of an
    existing document and leaves its other fields; fails with [not-found]
    when there is no such document. *)
Definition updateDoc (c : collection) (id : string) (data : obj) : M unit :=
  if has_undefined data then throw (invalid_data "updateDoc")
  else
    request (UpdateDoc c id data);;
    fun w =>
      match docs c w !! id with
      | Some old => (Returned tt, set_docs c (<[id := data ∪ old]> (docs c w)) w)
      | None =>
          (Thrown {| code := Some "not-found";
                     message := "No document to update: " ++ id |}, w)
      end.

(** [deleteDoc(doc(db, c, id))] *)
Definition deleteDoc (c : collection) (id : string) : M unit :=
  request (DeleteDoc c id);;
  fun w => (Returned tt, set_docs c (delete id (docs c w)) w).

Definition not_initialized : JsError :=
  Error "Firestore database not initialized. Please check your Firebase configuration.".

(** [if (!isFirebaseInitialized() || !db) throw new Error(...)] *)
Definition check_initialized : M unit :=
  fun w => if initialized w then (Returned tt, w) else (Thrown not_initialized, w).

(** [{ id: doc.id, ...data }] *)
Definition with_id (id : string) (data : obj) : obj :=
  data ∪ {[ "id" := VStr id ]}.

(** ** Sorting, as [Array.prototype.sort] with a comparator

    A comparator's negative, zero and positive results are [Lt], [Eq] and
    [Gt].  The sort is stable; for a consistent comparator that fixes its
    result, here computed by insertion. *)
Fixpoint insert_by {A} (cmp : A -> A -> comparison) (x : A) (l : list A) : list A :=
  match l with
  | [] => [x]
  | y :: l' =>
      match cmp x y with
      | Gt => y :: insert_by cmp x l'
      | _ => x :: l
      end
  end.

Definition sort_by {A} (cmp : A -> A -> comparison) (l : list A) : list A :=
  foldr (insert_by cmp) [] l.

(** ** The product repository ([lib/firebase/products.ts]) *)

Section Repositories.
Context `{Platform}.

(** [new Date().toISOString()] *)
Definition now : M string :=
  fun w => (Returned (toISOString (clock w)), tick w).

(** [x.createdAt || ""] *)
Definition or_empty (v : js) : string :=
  match v with
  | JScalar (SStr s) => s
  | _ => ""
  end.

(** The comparator of [getProducts]: newest first, documents without a
    creation timestamp last. *)
Definition by_createdAt (a b : obj) : comparison :=
  let aDate := or_empty (prop a "createdAt") in
  let bDate := or_empty (prop b "createdAt") in
  if String.eqb aDate "" && String.eqb bDate "" then Eq
  else if String.eqb aDate "" then Gt
  else if String.eqb bDate "" then Lt
  else localeCompare bDate aDate.

(** The clauses of the query of [getProducts]: the owner, and the type when
    one is given ([if (type)]). *)
Definition products_query (userId : string) (type : option string) : list constraint :=
  WhereEq "userId" (VStr userId) ::
  match type with
  | Some t => if String.eqb t "" then [] else [WhereEq "type" (VStr t)]
  | None => []
  end.

Definition getProducts (userId : string) (type : option string) : M (list obj) :=
  try_catch
    (check_initialized;;
     let! snapshot := getDocs PRODUCTS_COLLECTION (products_query userId type) in
     let products := map (fun d => with_id d.1 d.2) snapshot in
     let sortedProducts := sort_by by_createdAt products in
     ret sortedProducts)
    (fun error => ret []).

Definition getProduct (productId : string) : M (option obj) :=
  try_catch
    (check_initialized;;
     let! docSnap := getDoc PRODUCTS_COLLECTION productId in
     match docSnap with
     | Some data => ret (Some (with_id productId data))
     | None => ret None
     end)
    (fun error => throw error).

Definition createProduct (product : obj) : M string :=
  try_catch
    (check_initialized;;
     let! now := now in
     let productData := <["updatedAt" := VStr now]> (<["createdAt" := VStr now]> product) in
     addDoc PRODUCTS_COLLECTION productData)
    (fun error => throw error).

Definition updateProduct (productId : string) (updates : obj) : M unit :=
  check_initialized;;
  try_catch
    (let! now := now in
     updateDoc PRODUCTS_COLLECTION productId (<["updatedAt" := VStr now]> updates))
    (fun error => throw error).

Definition deleteProduct (productId : string) : M unit :=
  try_catch
    (check_initialized;;
     deleteDoc PRODUCTS_COLLECTION productId)
    (fun error => throw error).

(** [product.priceHistory || []] *)
Definition or_nil (v : js) : list elem :=
  match v with
  | JArr l => l
  | _ => []
  end.

Definition addPriceHistory (productId : string) (price : number) (website : string) : M unit :=
  try_catch
    (let! product := getProduct productId in
     match product with
     | None => throw (Error "Product not found")
     | Some product =>
         let priceHistory := or_nil (prop product "priceHistory") in
         let! date := now in
         let newEntry : gmap string scalar :=
           <["website" := SStr website]>
             (<["date" := SStr date]> {[ "price" := SNum price ]}) in
         let updates : obj := {[ "priceHistory" := VArr (priceHistory ++ [EObj newEntry]) ]} in
         updateProduct productId
           (if strict_eq_str (prop product "type") "want"
            then <["currentPrice" := VNum price]> updates
            else updates)
     end)
    (fun error => throw error).

(** ** The receipt repository ([lib/firebase/receipts.ts]) *)

(** [receipt.items?.some((item) => item.productId === productId) ?? false] *)
Definition has_item (productId : string) (receipt : obj) : bool :=
  match prop receipt "items" with
  | JArr items => existsb (fun item => strict_eq_str (field item "productId") productId) items
  | _ => false
  end.

Definition getReceiptsByProduct (productId : string) : M (list obj) :=
  try_catch
    (check_initialized;;
     let q := [WhereArrayContainsAny "items" [EObj {[ "productId" := SStr productId ]}]] in
     let! snapshot := getDocs RECEIPTS_COLLECTION q in
     let receipts := map (fun d => with_id d.1 d.2) snapshot in
     ret (List.filter (has_item productId) receipts))
    (fun error => ret []).

(** ** The product service ([lib/services/product.service.ts]) *)

(** [!id || typeof id !== "string"], on an argument declared [string]. *)
Definition missing (id : string) : bool := String.eqb id "".

Definition ProductService_getProducts (userId : string) (type : option string) : M (list obj) :=
  if missing userId then throw (Error "Valid userId is required")
  else
    try_catch (getProducts userId type)
      (fun error => throw (Error ("Failed to fetch products: " ++ message error))).

Definition ProductService_createProduct (productData : obj) : M string :=
  let validation := validateProduct productData in
  if negb (valid validation) then
    throw (Error ("Validation failed: " ++ join ", " (errors validation)))
  else
    try_catch (createProduct productData)
      (fun error => throw (Error ("Failed to create product: " ++ message error))).

Definition ProductService_updateProduct (productId : string) (updates : obj) : M unit :=
  if missing productId then throw (Error "Valid productId is required")
  else
    let validation := validateProductUpdate updates in
    if negb (valid validation) then
      throw (Error ("Validation failed: " ++ join ", " (errors validation)))
    else
      try_catch (updateProduct productId updates)
        (fun error => throw (Error ("Failed to update product: " ++ message error))).

(** [storeName || "Unknown Store"] *)
Definition or_unknown_store (storeName : option string) : string :=
  match storeName with
  | Some s => if String.eqb s "" then "Unknown Store" else s
  | None => "Unknown Store"
  end.

Definition ProductService_addPriceHistory (productId : string) (price : number)
    (date : string) (storeName notes : option string) : M unit :=
  if missing productId then throw (Error "Valid productId is required")
  else if num_le0 price then throw (Error "Price must be greater than 0")
  else
    try_catch (addPriceHistory productId price (or_unknown_store storeName))
      (fun error => throw (Error ("Failed to add price history: " ++ message error))).

(** [ReceiptService.getReceiptsByProduct] ([lib/services/receipt.service.ts]) *)
Definition ReceiptService_getReceiptsByProduct (productId : string) : M (list obj) :=
  if missing productId then throw (Error "Valid productId is required")
  else
    try_catch (getReceiptsByProduct productId)
      (fun error => throw (Error ("Failed to fetch receipts: " ++ message error))).

End Repositories.

(** ** The product lookup ([lib/services/product-lookup.service.ts]) *)

Record ProductLookupResult := {
  name : option string;
  brand : option string;
  description : option string;
  category : option string;
  images : option (list string);
  price : option number;
  website : option string;
  specifications : option (gmap string string);
}.

(** [a || b] on optional strings: [a] when it is a non-empty string. *)
Definition or_str (a b : option string) : option string :=
  match a with
  | Some s => if String.eqb s "" then b else a
  | None => b
  end.

(** [a || b] on optional numbers. *)
Definition or_num (a b : option number) : option number :=
  match a with
  | Some n => if num_truthy n then a else b
  | None => b
  end.

(** The object both lookups build from [data.items[0]]. *)
Definition result_of_item (item : ApiItem) : ProductLookupResult :=
  {| name := or_str (item_title item) (item_description item);
     brand := item_brand item;
     description := item_description item;
     category := item_category item;
     images := match item_images item with
               | Some (x :: l) => Some (x :: l)
               | _ => None
               end;
     price := or_num (item_lowest_recorded_price item) (item_highest_recorded_price item);
     website := match item_offers item with
                | Some (offer :: _) => link offer
                | _ => None
                end;
     specifications := item_specs item |}.

(** [if (data.code === "OK" && data.items && data.items.length > 0)
    return {...}; return null] *)
Definition result_of_data (data : ApiData) : option ProductLookupResult :=
  match data_code data, data_items data with
  | Some c, Some (item :: _) =>
      if String.eqb c "OK" then Some (result_of_item item) else None
  | _, _ => None
  end.

Section Lookup.
Context `{Platform}.

Definition barcode_url (barcode : string) : string :=
  "https://api.upcitemdb.com/prod/trial/lookup?upc=" ++ encodeURIComponent barcode.

Definition search_url (productName : string) : string :=
  "https://api.upcitemdb.com/prod/trial/search?s=" ++ encodeURIComponent productName
  ++ "&match_mode=0&type=product".

(** [await fetch(url, ...)]: the request is sent; a network failure rejects. *)
Definition do_fetch (url : string) : M HttpResponse :=
  fun w =>
    match fetch url with
    | NetworkError => (Thrown (Error "Failed to fetch"), log_fetch url w)
    | Responded response => (Returned response, log_fetch url w)
    end.

(** The body both lookups share after building their URL. *)
Definition lookup_at (url : string) : M (option ProductLookupResult) :=
  try_catch
    (let! response := do_fetch url in
     if negb (ok response) then ret None
     else
       let! data :=
         match json response with
         | Some data => ret data
         | None => throw (Error "Unexpected token in JSON")
         end in
       ret (result_of_data data))
    (fun error => ret None).

Definition lookupByBarcode (barcode : string) : M (option ProductLookupResult) :=
  lookup_at (barcode_url barcode).

Definition searchProductByName (productName : string) : M (option ProductLookupResult) :=
  lookup_at (search_url productName).

Definition lookupProduct (query : string) : M (option ProductLookupResult) :=
  if String.eqb query "" || Nat.eqb (String.length (trim query)) 0 then ret None
  else
    let! barcodeResult :=
      if test_digits (trim query) then lookupByBarcode (trim query) else ret None in
    match barcodeResult with
    | Some r => ret (Some r)
    | None =>
        let! searchResult := searchProductByName (trim query) in
        match searchResult with
        | Some r => ret (Some r)
        | None => ret None
        end
    end.

End Lookup.

(** ** A concrete platform for the examples

    Stand-ins for the runtime's parsers and clock; they agree with the
    runtime on the strings the examples below use. *)

Definition sample_url_parses (s : string) : bool :=
  String.prefix "https://" s && Nat.ltb 8 (String.length s).

Definition sample_date_parses (s : string) : bool :=
  Nat.eqb (String.length s) 10.

Definition sample_fetch (url : string) : FetchResult :=
  if String.eqb url "https://api.upcitemdb.com/prod/trial/search?s=iPad&match_mode=0&type=product"
  then Responded {| ok := true; status := 200;
                    json := Some {| data_code := Some "OK";
                                    data_items := Some [ {| item_title := Some "iPad";
                                      item_brand := Some "Apple"; item_description := None;
                                      item_category := None; item_images := None;
                                      item_lowest_recorded_price := None;
                                      item_highest_recorded_price := None;
                                      item_offers := None; item_specs := None |} ] |} |}
  else if String.prefix "https://api.upcitemdb.com/prod/trial/lookup" url
  then Responded {| ok := false; status := 404; json := None |}
  else NetworkError.

Definition hex_digit (n : nat) : ascii :=
  ascii_of_nat (if Nat.ltb n 10 then 48 + n else 55 + n).

Definition percent (byte : nat) : string :=
  String "%" (String (hex_digit (byte / 16)) (String (hex_digit (byte mod 16)) "")).

(** The characters [encodeURIComponent] leaves as they are. *)
Definition unreserved (c : ascii) : bool :=
  let n := nat_of_ascii c in
  (Nat.leb 65 n && Nat.leb n 90) || (Nat.leb 97 n && Nat.leb n 122)
  || (Nat.leb 48 n && Nat.leb n 57)
  || bool_decide (n ∈ [45; 95; 46; 33; 126; 42; 39; 40; 41]).

(** [encodeURIComponent] on code units below 256: the UTF-8 bytes of every
    other character, percent-encoded. *)
Fixpoint sample_encodeURIComponent (s : string) : string :=
  match s with
  | EmptyString => EmptyString
  | String c s' =>
      let n := nat_of_ascii c in
      (if unreserved c then String c ""
       else if Nat.ltb n 128 then percent n
       else percent (192 + n / 64) ++ percent (128 + n mod 64))
      ++ sample_encodeURIComponent s'
  end.

Definition sample_platform : Platform := {|
  url_parses := sample_url_parses;
  date_parses := sample_date_parses;
  toISOString k := "2024-01-15T10:30:00.00" ++ pretty (k mod 10) ++ "Z";
  localeCompare := String.compare;
  encodeURIComponent := sample_encodeURIComponent;
  fetch := sample_fetch;
|}.

(** A store that works and holds nothing yet. *)
Definition empty_world : World :=
  {| initialized := true; backend := None; products := ∅; receipts := ∅;
     clock := 0; calls := []; fetched := [] |}.

(** ** The rules of the product validator, as the specification lists them

    "name non-empty, brand non-empty, website is a valid URL, originalPrice
    > 0, date parses, owner id non-empty; if type is want: currentPrice (if
    present) > 0, targetPrice (if present) > 0; if type is have: priceBought
    present and > 0; every entry of images (if present) is a valid URL." *)
Inductive Rule :=
| RName
| RBrand
| RWebsite
| ROriginalPrice
| RDate
| RUserId
| RCurrentPrice
| RTargetPrice
| RPriceBought
| RImage (index : nat).

(** The message [validateProduct] reports for a violated rule. *)
Definition rule_message (r : Rule) : string :=
  match r with
  | RName => "Product name is required"
  | RBrand => "Brand is required"
  | RWebsite => "Valid website URL is required"
  | ROriginalPrice => "Original price must be greater than 0"
  | RDate => "Valid date is required"
  | RUserId => "User ID is required"
  | RCurrentPrice => "Current price must be greater than 0"
  | RTargetPrice => "Target price must be greater than 0"
  | RPriceBought => "Price bought must be greater than 0"
  | RImage index => "Image URL " ++ pretty (index + 1) ++ " is not a valid URL"
  end.

(** "non-empty", read to the letter. *)
Definition nonempty (s : string) : bool := negb (String.eqb s "").

(** "non-empty" as the validators test it: something is left after
    trimming white space. *)
Definition nonblank (s : string) : bool := negb (String.eqb (trim s) "").

Section Rules.
Context `{Platform}.

(** A text field holds a string that the test [present] accepts. *)
Definition text_rule (present : string -> bool) (v : js) : bool :=
  match v with
  | JScalar (SStr s) => present s
  | _ => false
  end.

(** A required price: a number greater than 0. *)
Definition required_price_rule (v : js) : bool :=
  match v with
  | JScalar (SNum n) => num_gt0 n
  | _ => false
  end.

(** An optional price: absent, or a number greater than 0. *)
Definition optional_price_rule (v : js) : bool :=
  match v with
  | JUndefined => true
  | JScalar (SNum n) => num_gt0 n
  | _ => false
  end.

(** Whether a candidate product satisfies a rule; [present] is the reading
    of "non-empty". *)
Definition rule_holds (present : string -> bool) (product : obj) (r : Rule) : bool :=
  match r with
  | RName => text_rule present (prop product "name")
  | RBrand => text_rule present (prop product "brand")
  | RWebsite => text_rule url_parses (prop product "website")
  | ROriginalPrice => required_price_rule (prop product "originalPrice")
  | RDate => text_rule date_parses (prop product "date")
  | RUserId => text_rule present (prop product "userId")
  | RCurrentPrice =>
      if strict_eq_str (prop product "type") "want"
      then optional_price_rule (prop product "currentPrice") else true
  | RTargetPrice =>
      if strict_eq_str (prop product "type") "want"
      then optional_price_rule (prop product "targetPrice") else true
  | RPriceBought =>
      if strict_eq_str (prop product "type") "have"
      then required_price_rule (prop product "priceBought") else true
  | RImage index =>
      match or_nil (prop product "images") !! index with
      | Some url => text_rule url_parses (js_of_elem url)
      | None => true
      end
  end.

(** The rules that apply to a candidate: the nine field rules and one rule
    per entry of [images]. *)
Definition rules_of (product : obj) : list Rule :=
  [RName; RBrand; RWebsite; ROriginalPrice; RDate; RUserId;
   RCurrentPrice; RTargetPrice; RPriceBought]
  ++ map RImage (seq 0 (length (or_nil (prop product "images")))).

(** The violated rules, in the order of [rules_of]. *)
Definition violated (present : string -> bool) (product : obj) : list Rule :=
  List.filter (fun r => negb (rule_holds present product r)) (rules_of product).

End Rules.

(** The candidate has the shape its TypeScript type declares: each field the
    validator reads is absent or of its declared type. *)
Definition string_or_absent (v : js) : bool :=
  match v with
  | JUndefined | JScalar (SStr _) => true
  | _ => false
  end.

Definition number_or_absent (v : js) : bool :=
  match v with
  | JUndefined | JScalar (SNum _) => true
  | _ => false
  end.

Definition is_string_elem (e : elem) : bool :=
  match e with
  | EScalar (SStr _) => true
  | _ => false
  end.

Definition strings_or_absent (v : js) : bool :=
  match v with
  | JUndefined => true
  | JArr l => forallb is_string_elem l
  | _ => false
  end.

Definition typed_product (product : obj) : bool :=
  forallb (fun k => string_or_absent (prop product k))
    ["name"; "brand"; "website"; "date"; "userId"; "type"]
  && forallb (fun k => number_or_absent (prop product k))
    ["originalPrice"; "currentPrice"; "targetPrice"; "priceBought"]
  && strings_or_absent (prop product "images").

(** No optional price of a "want" candidate is [0] or [NaN]. *)
Definition nonzero_or_absent (v : js) : bool :=
  match v with
  | JScalar (SNum n) => num_truthy n
  | _ => true
  end.

Definition want_prices_nonzero (product : obj) : bool :=
  if strict_eq_str (prop product "type") "want"
  then nonzero_or_absent (prop product "currentPrice")
       && nonzero_or_absent (prop product "targetPrice")
  else true.

(** What the runtime's parsers and clock guarantee and the proofs use: the
    empty string is neither a URL nor a date, an ISO timestamp is never
    empty, and [localeCompare] is a consistent comparison. *)
Class PlatformLaws (P : Platform) : Prop := {
  url_parses_empty : url_parses "" = false;
  date_parses_empty : date_parses "" = false;
  toISOString_nonempty : forall k, toISOString k <> "";
  localeCompare_antisym : forall a b, localeCompare b a = CompOpp (localeCompare a b);
  localeCompare_trans : forall a b c,
    localeCompare a b <> Gt -> localeCompare b c <> Gt -> localeCompare a c <> Gt;
}.

(** ** Auxiliary definitions for the proofs *)

(** What [forEach] adds to the error list when its body only appends. *)
Fixpoint appended {A} (g : A -> nat -> list string) (l : list A) (index : nat) : list string :=
  match l with
  | [] => []
  | x :: l' => (g x index ++ appended g l' (index + 1))%list
  end.

(** What [check_image] adds for one entry of [images]. *)
Definition image_error `{Platform} (url : elem) (index : nat) : list string :=
  if negb (isValidUrl (js_of_elem url)) then [rule_message (RImage index)] else [].

(** Reading a field of a document of the products collection: [None] when
    there is no such document or no such field. *)
Definition stored_field (w : World) (id k : string) : option value :=
  products w !! id ≫= (.!! k).

(** The creation timestamp a document carries: the string stored under
    [createdAt], the empty string when there is none. *)
Definition createdAt (d : obj) : string :=
  match d !! "createdAt" with
  | Some (VScalar (SStr s)) => s
  | _ => ""
  end.

(** [a] may stand before [b] in a list sorted newest first: [b] has no
    creation timestamp, or both have one and [b]'s does not come after
    [a]'s. *)
Definition newer_or_same `{Platform} (a b : obj) : Prop :=
  createdAt b = ""
  \/ (createdAt a <> "" /\ localeCompare (createdAt b) (createdAt a) <> Gt).

(** The entry [addPriceHistory] appends. *)
Definition price_entry (price : number) (date website : string) : elem :=
  EObj (<["website" := SStr website]> (<["date" := SStr date]> {[ "price" := SNum price ]})).

(** [cmp(a, b) <= 0]: the comparator lets [a] stand before [b]. *)
Definition before {A} (cmp : A -> A -> comparison) (a b : A) : Prop := cmp a b <> Gt.

(** What a lookup at [url] comes to: the first item of a successful, well
    formed answer, nothing otherwise. *)
Definition answer `{Platform} (url : string) : option ProductLookupResult :=
  match fetch url with
  | NetworkError => None
  | Responded response =>
      if ok response then
        match json response with
        | Some data => result_of_data data
        | None => None
        end
      else None
  end.


(** ** Example payloads *)

(** A well-formed "want" product, after the seed data. *)
Definition ipad_want : obj :=
  list_to_map
    [("type", VStr "want"); ("name", VStr "Apple iPad Pro"); ("brand", VStr "Apple");
     ("website", VStr "https://www.joybuy.co.uk/dp/ipad");
     ("originalPrice", VNum (Fin 1299.99)); ("date", VStr "2024-01-15");
     ("userId", VStr "user-1")].

(** A receipt as the seed data stores it, and a store that holds it. *)
Definition apple_receipt : obj :=
  list_to_map
    [("receiptNumber", VStr "RCPT-2024-001"); ("storeName", VStr "Apple Store");
     ("receiptDate", VStr "2024-01-15");
     ("items", VArr [EObj (list_to_map [("id", SStr "1"); ("productId", SStr "prod-1");
                                        ("quantity", SNum (Fin 1));
                                        ("discountedPrice", SNum (Fin 899.99))])]);
     ("totalAmount", VNum (Fin 899.99)); ("userId", VStr "user-1")].

Definition receipts_world : World :=
  {| initialized := true; backend := None; products := ∅;
     receipts := {[ "rcpt-1" := apple_receipt ]};
     clock := 0; calls := []; fetched := [] |}.

(** A store that holds [ipad_want] as it was created. *)
Definition products_world : World :=
  {| initialized := true; backend := None;
     products := {[ "prod-1" := <["updatedAt" := VStr "2024-01-15T10:30:00.000Z"]>
                                  (<["createdAt" := VStr "2024-01-15T10:30:00.000Z"]> ipad_want) ]};
     receipts := ∅; clock := 1; calls := []; fetched := [] |}.

(** A "have" product, after the seed data. *)
Definition iphone_have : obj :=
  list_to_map
    [("type", VStr "have"); ("name", VStr "iPhone 15 Pro"); ("brand", VStr "Apple");
     ("website", VStr "https://www.apple.com/iphone-15-pro/");
     ("originalPrice", VNum (Fin 999.99)); ("priceBought", VNum (Fin 949.99));
     ("date", VStr "2024-01-15"); ("userId", VStr "user-1")].

(** A partial receipt update whose only item has a negative price. *)
Definition negative_price_items : value :=
  VArr [EObj (list_to_map [("id", SStr "1"); ("productId", SStr "prod-1");
                           ("quantity", SNum (Fin 1));
                           ("discountedPrice", SNum (Fin (-5)))])].

(** A store with two products of one user, created at different times. *)
Definition two_products_world : World :=
  {| initialized := true; backend := None;
     products :=
       {[ "prod-1" := <["createdAt" := VStr "2024-01-15T10:30:00.000Z"]> ipad_want;
          "prod-2" := <["createdAt" := VStr "2024-03-02T08:00:00.000Z"]> iphone_have ]};
     receipts := ∅; clock := 2; calls := []; fetched := [] |}.

(** The store answers every request with "unavailable". *)
Definition unavailable_world : World :=
  {| initialized := true;
     backend := Some {| code := Some "unavailable"; message := "The service is unavailable" |};
     products := products two_products_world;
     receipts := ∅; clock := 2; calls := []; fetched := [] |}.

(** ** The rest of the repositories and services *)

(** [error.code === c] *)
Definition has_code (error : JsError) (c : string) : bool :=
  match code error with
  | Some c' => String.eqb c' c
  | None => false
  end.

Section MoreRepositories.
Context `{Platform}.

(** The comparator of [getReceipts]: latest receipt date first, receipts
    without a date last. *)
Definition by_receiptDate (a b : obj) : comparison :=
  let aDate := or_empty (prop a "receiptDate") in
  let bDate := or_empty (prop b "receiptDate") in
  if String.eqb aDate "" && String.eqb bDate "" then Eq
  else if String.eqb aDate "" then Gt
  else if String.eqb bDate "" then Lt
  else localeCompare bDate aDate.

Definition getReceipts (userId : string) : M (list obj) :=
  try_catch
    (check_initialized;;
     let! snapshot := getDocs RECEIPTS_COLLECTION [WhereEq "userId" (VStr userId)] in
     let receipts := map (fun d => with_id d.1 d.2) snapshot in
     ret (sort_by by_receiptDate receipts))
    (fun error =>
       if has_code error "failed-precondition" || has_code error "unavailable"
       then ret []
       else throw error).

Definition getReceipt (receiptId : string) : M (option obj) :=
  try_catch
    (check_initialized;;
     let! docSnap := getDoc RECEIPTS_COLLECTION receiptId in
     match docSnap with
     | Some data => ret (Some (with_id receiptId data))
     | None => ret None
     end)
    (fun error => throw error).

Definition createReceipt (receipt : obj) : M string :=
  try_catch
    (check_initialized;;
     let! now := now in
     let receiptData := <["updatedAt" := VStr now]> (<["createdAt" := VStr now]> receipt) in
     addDoc RECEIPTS_COLLECTION receiptData)
    (fun error => throw error).

Definition updateReceipt (receiptId : string) (updates : obj) : M unit :=
  try_catch
    (check_initialized;;
     let! now := now in
     updateDoc RECEIPTS_COLLECTION receiptId (<["updatedAt" := VStr now]> updates))
    (fun error => throw error).

Definition deleteReceipt (receiptId : string) : M unit :=
  try_catch
    (check_initialized;;
     deleteDoc RECEIPTS_COLLECTION receiptId)
    (fun error => throw error).

(** [ProductService.getProduct] and [ProductService.deleteProduct] *)
Definition ProductService_getProduct (productId : string) : M (option obj) :=
  if missing productId then throw (Error "Valid productId is required")
  else
    try_catch (getProduct productId)
      (fun error => throw (Error ("Failed to fetch product: " ++ message error))).

Definition ProductService_deleteProduct (productId : string) : M unit :=
  if missing productId then throw (Error "Valid productId is required")
  else
    try_catch (deleteProduct productId)
      (fun error => throw (Error ("Failed to delete product: " ++ message error))).

(** [ReceiptService] ([lib/services/receipt.service.ts]) *)
Definition ReceiptService_getReceipts (userId : string) : M (list obj) :=
  if missing userId then throw (Error "Valid userId is required")
  else
    try_catch (getReceipts userId)
      (fun error => throw (Error ("Failed to fetch receipts: " ++ message error))).

Definition ReceiptService_getReceipt (receiptId : string) : M (option obj) :=
  if missing receiptId then throw (Error "Valid receiptId is required")
  else
    try_catch (getReceipt receiptId)
      (fun error => throw (Error ("Failed to fetch receipt: " ++ message error))).

Definition ReceiptService_createReceipt (receiptData : obj) : M string :=
  let validation := validateReceipt receiptData in
  if negb (valid validation) then
    throw (Error ("Validation failed: " ++ join ", " (errors validation)))
  else
    try_catch (createReceipt receiptData)
      (fun error => throw (Error ("Failed to create receipt: " ++ message error))).

Definition ReceiptService_updateReceipt (receiptId : string) (updates : obj) : M unit :=
  if missing receiptId then throw (Error "Valid receiptId is required")
  else
    let validation := validateReceiptUpdate updates in
    if negb (valid validation) then
      throw (Error ("Validation failed: " ++ join ", " (errors validation)))
    else
      try_catch (updateReceipt receiptId updates)
        (fun error => throw (Error ("Failed to update receipt: " ++ message error))).

Definition ReceiptService_deleteReceipt (receiptId : string) : M unit :=
  if missing receiptId then throw (Error "Valid receiptId is required")
  else
    try_catch (deleteReceipt receiptId)
      (fun error => throw (Error ("Failed to delete receipt: " ++ message error))).

End MoreRepositories.

(** The date a receipt carries: the string stored under [receiptDate], the
    empty string when there is none. *)
Definition receiptDate (d : obj) : string :=
  match d !! "receiptDate" with
  | Some (VScalar (SStr s)) => s
  | _ => ""
  end.

(** [a] may stand before [b] in a list sorted latest first: [b] has no
    receipt date, or both have one and [b]'s does not come after [a]'s. *)
Definition later_or_same `{Platform} (a b : obj) : Prop :=
  receiptDate b = ""
  \/ (receiptDate a <> "" /\ localeCompare (receiptDate b) (receiptDate a) <> Gt).

(** ** More string operations *)

(** [s.toLowerCase()], on the code units below 256. *)
Definition lower (c : ascii) : ascii :=
  let n := nat_of_ascii c in
  if (Nat.leb 65 n && Nat.leb n 90)
     || (Nat.leb 192 n && Nat.leb n 222 && negb (Nat.eqb n 215))
  then ascii_of_nat (n + 32) else c.

Fixpoint map_chars (f : ascii -> ascii) (s : string) : string :=
  match s with
  | EmptyString => EmptyString
  | String c s' => String (f c) (map_chars f s')
  end.

Definition toLowerCase (s : string) : string := map_chars lower s.

(** Whether some suffix of [s] satisfies [P]: a search from each position
    of [s], leftmost first. *)
Fixpoint anywhere (P : string -> bool) (s : string) : bool :=
  P s || match s with
         | EmptyString => false
         | String _ s' => anywhere P s'
         end.

(** [s.includes(sub)] *)
Definition includes (s sub : string) : bool := anywhere (String.prefix sub) s.

(** [s.split(sep)] for a separator of one character. *)
Fixpoint split (sep : ascii) (s : string) : list string :=
  match s with
  | EmptyString => [EmptyString]
  | String c s' =>
      if Ascii.eqb c sep then EmptyString :: split sep s'
      else match split sep s' with
           | part :: parts => String c part :: parts
           | [] => [String c EmptyString]
           end
  end.

(** [s] after its prefix [p], when it has that prefix. *)
Fixpoint after (p s : string) : option string :=
  match p, s with
  | EmptyString, _ => Some s
  | String a p', String b s' => if Ascii.eqb a b then after p' s' else None
  | String _ _, EmptyString => None
  end.

(** [[A-Z0-9]] under the [i] flag *)
Definition is_alnum (c : ascii) : bool :=
  let n := nat_of_ascii c in
  (Nat.leb 48 n && Nat.leb n 57) || (Nat.leb 65 n && Nat.leb n 90)
  || (Nat.leb 97 n && Nat.leb n 122).

(** [s] begins with [n] characters of [[A-Z0-9]]. *)
Fixpoint alnum_run (n : nat) (s : string) : bool :=
  match n, s with
  | O, _ => true
  | S n', String c s' => is_alnum c && alnum_run n' s'
  | S _, EmptyString => false
  end.

(** [s] after a prefix that matches [p] under the [i] flag, which lets a
    letter stand for itself in either case. *)
Fixpoint after_ignoring_case (p s : string) : option string :=
  match p, s with
  | EmptyString, _ => Some s
  | String a p', String b s' =>
      if Ascii.eqb (lower a) (lower b) then after_ignoring_case p' s' else None
  | String _ _, EmptyString => None
  end.

(** [url.match(/<lead>([A-Z0-9]{10})/i)] is not null *)
Definition match_asin (lead url : string) : bool :=
  anywhere (fun t => match after_ignoring_case lead t with
                     | Some rest => alnum_run 10 rest
                     | None => false
                     end) url.

(** [s.replace(/-/g, " ")] *)
Definition hyphens_to_spaces (s : string) : string :=
  map_chars (fun c => if Ascii.eqb c "-" then " "%char else c) s.

(** [s.replace(/\.html?$/i, "")] *)
Fixpoint strip_html (s : string) : string :=
  match s with
  | EmptyString => EmptyString
  | String c s' =>
      if String.eqb (toLowerCase s) ".html" || String.eqb (toLowerCase s) ".htm"
      then EmptyString
      else String c (strip_html s')
  end.

(** [parts[parts.length - 1]] *)
Definition last_part (parts : list string) : option string := List.last (map Some parts) None.

(** The characters [.] of a regular expression does not match, among the
    code units below 256. *)
Definition is_line_terminator (c : ascii) : bool :=
  match nat_of_ascii c with
  | 10 | 13 => true
  | _ => false
  end.

(** The longest prefix of [s] that [.*] can run over. *)
Fixpoint dot_run (s : string) : string :=
  match s with
  | EmptyString => EmptyString
  | String c s' => if is_line_terminator c then EmptyString else String c (dot_run s')
  end.

(** [s] before its last occurrence of [c]. *)
Fixpoint upto_last (c : ascii) (s : string) : option string :=
  match s with
  | EmptyString => None
  | String a s' =>
      match upto_last c s' with
      | Some t => Some (String a t)
      | None => if Ascii.eqb a c then Some EmptyString else None
      end
  end.

(** Group 1 of [/^(.+)\?/] on [s]: greedy, so up to the last [?] that [.+]
    can reach. *)
Definition greedy_upto_question (s : string) : option string :=
  match upto_last "?" (dot_run s) with
  | Some EmptyString | None => None
  | Some t => Some t
  end.

(** Group 1 of [s.match(/\/o\/(.+)\?/)], [None] when the match is null. *)
Fixpoint match_object_path (s : string) : option string :=
  match (match after "/o/" s with
         | Some rest => greedy_upto_question rest
         | None => None
         end) with
  | Some t => Some t
  | None =>
      match s with
      | EmptyString => None
      | String _ s' => match_object_path s'
      end
  end.

(** ** URLs and the file storage *)

(** The two properties of [new URL(s)] the source reads. *)
Record ParsedUrl := {
  hostname : string;
  pathname : string;
}.

(** What the storage functions and the lookup by URL take from the
    runtime and from Firebase Storage. *)
Class WebPlatform := {
  (** [new URL(s)]: the URL, or the [TypeError] it throws *)
  parse_url : string -> JsError + ParsedUrl;
  (** [decodeURIComponent(s)]: the decoded string, or the [URIError] *)
  decodeURIComponent : string -> JsError + string;
  (** [Date.now()] at the k-th reading of the clock *)
  date_now : nat -> N;
  (** [getDownloadURL(ref)] of the object stored under a path *)
  getDownloadURL : string -> string;
}.

(** [pathname] is the path of the URL alone: the query, which begins at the
    first [?], is not part of it. *)
Class WebPlatformLaws (P : WebPlatform) : Prop := {
  pathname_without_query :
    forall s url, parse_url s = inr url -> includes (pathname url) "?" = false;
}.

Section LookupByUrl.
Context `{WebPlatform}.

(** [lookupProductByUrl]: what is thrown inside its [try] (by [new URL], or
    by [lastPart.replace] on an [undefined] last part) is caught and gives
    [null]. *)
Definition lookupProductByUrl (url : string) : option ProductLookupResult :=
  match parse_url url with
  | inl error => None
  | inr urlObj =>
      let hostname := toLowerCase (hostname urlObj) in
      let pathParts := List.filter (fun part => negb (String.eqb part ""))
                         (split "/" (pathname urlObj)) in
      match last_part pathParts with
      | None => None
      | Some lastPart =>
          let named (n : string) :=
            Some {| name := Some n; brand := None; description := None; category := None;
                    images := None; price := None; website := Some url;
                    specifications := None |} in
          if includes hostname "amazon"
             && (match_asin "/dp/" url || match_asin "/gp/product/" url)
          then named (hyphens_to_spaces lastPart)
          else named (strip_html (hyphens_to_spaces lastPart))
      end
  end.

End LookupByUrl.

(** A [File]: its name, MIME type and size in bytes. *)
Record File := {
  file_name : string;
  file_type : string;
  file_size : N;
}.

(** The [folder] argument: ["products" | "receipts"]. *)
Inductive Folder :=
| products_folder
| receipts_folder.

Definition folder_name (folder : Folder) : string :=
  match folder with
  | products_folder => "products"
  | receipts_folder => "receipts"
  end.

Record Storage := {
  (** [isFirebaseInitialized() && storage] *)
  storage_initialized : bool;
  (** the failure the storage answers an upload or a deletion with, when it
      is failing *)
  storage_backend : option JsError;
  (** the failure it answers a request for a download URL with *)
  download_backend : option JsError;
  (** the stored objects, by the path their reference was made from *)
  objects : gmap string File;
  (** how many times [Date.now()] has been read *)
  readings : nat;
}.

Definition set_objects (o : gmap string File) (st : Storage) : Storage :=
  {| storage_initialized := storage_initialized st; storage_backend := storage_backend st;
     download_backend := download_backend st; objects := o; readings := readings st |}.

Definition read_clock (st : Storage) : Storage :=
  {| storage_initialized := storage_initialized st; storage_backend := storage_backend st;
     download_backend := download_backend st; objects := objects st;
     readings := S (readings st) |}.

(** [name.replace(/[^a-zA-Z0-9.-]/g, "_")] *)
Definition keeps (c : ascii) : bool :=
  is_alnum c || Ascii.eqb c "." || Ascii.eqb c "-".

Definition sanitized (name : string) : string :=
  map_chars (fun c => if keeps c then c else "_"%char) name.

(** [5 * 1024 * 1024] *)
Definition maxSize : N := 5 * 1024 * 1024.

Section StorageFunctions.
Context `{WebPlatform}.

(** [fileName || `${timestamp}-${file.name.replace(...)}`] *)
Definition finalFileName (fileName : option string) (timestamp : N) (file : File) : string :=
  let generated := pretty timestamp ++ "-" ++ sanitized (file_name file) in
  match fileName with
  | Some f => if String.eqb f "" then generated else f
  | None => generated
  end.

Definition uploadImage (file : File) (userId : string) (folder : Folder)
    (fileName : option string) (st : Storage) : outcome string * Storage :=
  if negb (storage_initialized st) then
    (Thrown (Error "Firebase Storage not initialized. Please check your Firebase configuration."),
     st)
  else if negb (String.prefix "image/" (file_type file)) then
    (Thrown (Error "File must be an image"), st)
  else if (maxSize <? file_size file)%N then
    (Thrown (Error "Image size must be less than 5MB"), st)
  else
    let timestamp := date_now (readings st) in
    let st := read_clock st in
    let path := folder_name folder ++ "/" ++ userId ++ "/"
                ++ finalFileName fileName timestamp file in
    let rethrown (error : JsError) (st : Storage) :=
      (Thrown (Error ("Failed to upload image: " ++ message error)), st) in
    (* uploadBytes *)
    match storage_backend st with
    | Some error => rethrown error st
    | None =>
        let st := set_objects (<[path := file]> (objects st)) st in
        (* getDownloadURL *)
        match download_backend st with
        | Some error => rethrown error st
        | None => (Returned (getDownloadURL path), st)
        end
    end.

(** The error [deleteObject] fails with when there is no such object. *)
Definition object_not_found (path : string) : JsError :=
  {| code := Some "storage/object-not-found";
     message := "Object '" ++ path ++ "' does not exist." |}.

Definition deleteImage (imageUrl : string) (st : Storage) : outcome unit * Storage :=
  if negb (storage_initialized st) then
    (Thrown (Error "Firebase Storage not initialized"), st)
  else
    let rethrown (error : JsError) :=
      (Thrown (Error ("Failed to delete image: " ++ message error)), st) in
    match parse_url imageUrl with
    | inl error => rethrown error
    | inr url =>
        match match_object_path (pathname url) with
        | None => rethrown (Error "Invalid image URL format")
        | Some path =>
            match decodeURIComponent path with
            | inl error => rethrown error
            | inr decodedPath =>
                match storage_backend st with
                | Some error => rethrown error
                | None =>
                    match objects st !! decodedPath with
                    | Some _ => (Returned tt, set_objects (delete decodedPath (objects st)) st)
                    | None => rethrown (object_not_found decodedPath)
                    end
                end
            end
        end
    end.

(** [isFirebaseStorageUrl] *)
Definition isFirebaseStorageUrl (url : string) : bool :=
  includes url "firebasestorage.googleapis.com".

End StorageFunctions.

(** ** A sample web platform

    URLs of the shape [scheme://host/path?query#fragment]. *)

(** [s] up to the first character that satisfies [stop]. *)
Fixpoint take_until (stop : ascii -> bool) (s : string) : string :=
  match s with
  | EmptyString => EmptyString
  | String c s' => if stop c then EmptyString else String c (take_until stop s')
  end.

(** [s] from the first character that satisfies [stop]. *)
Fixpoint drop_until (stop : ascii -> bool) (s : string) : string :=
  match s with
  | EmptyString => EmptyString
  | String c s' => if stop c then s else drop_until stop s'
  end.

Definition ends_host (c : ascii) : bool :=
  Ascii.eqb c "/" || Ascii.eqb c "?" || Ascii.eqb c "#".

Definition ends_path (c : ascii) : bool := Ascii.eqb c "?" || Ascii.eqb c "#".

Definition sample_parse_url (s : string) : JsError + ParsedUrl :=
  let parsed (rest : string) :=
    let host := take_until ends_host rest in
    let path := take_until ends_path (drop_until ends_host rest) in
    if String.eqb host "" then inl {| code := Some "ERR_INVALID_URL"; message := "Invalid URL" |}
    else inr {| hostname := toLowerCase host;
                pathname := if String.eqb path "" then "/" else path |} in
  match after "https://" s, after "http://" s with
  | Some rest, _ => parsed rest
  | None, Some rest => parsed rest
  | None, None => inl {| code := Some "ERR_INVALID_URL"; message := "Invalid URL" |}
  end.

Definition sample_web_platform : WebPlatform := {|
  parse_url := sample_parse_url;
  decodeURIComponent := inr;
  date_now k := (1705314600000 + N.of_nat k)%N;
  getDownloadURL path :=
    "https://firebasestorage.googleapis.com/v0/b/iwoot.appspot.com/o/"
    ++ sample_encodeURIComponent path ++ "?alt=media";
|}.

(** A storage that works and holds nothing yet. *)
Definition empty_storage : Storage :=
  {| storage_initialized := true; storage_backend := None; download_backend := None;
     objects := ∅; readings := 0 |}.

(** A photograph of 2 MiB and one of exactly 5 MiB. *)
Definition photo : File :=
  {| file_name := "my receipt (1).png"; file_type := "image/png"; file_size := 2097152 |}.

Definition large_photo : File :=
  {| file_name := "scan.jpg"; file_type := "image/jpeg"; file_size := 5242880 |}.

(** What [check_item] and [check_item_update] add for one item. *)
Definition item_errors (item : elem) (index : nat) : list string :=
  check_item item index [].

Definition item_update_errors (item : elem) (index : nat) : list string :=
  check_item_update item index [].

(** ** More auxiliary definitions *)

(** The entries of a list "joined": each but the first after a comma and a
    space. *)
Fixpoint comma_separated (l : list string) : string :=
  match l with
  | [] => ""
  | [x] => x
  | x :: l' => x ++ ", " ++ comma_separated l'
  end.

(** A store whose wanted iPad has one price on record. *)
Definition amazon_entry : elem :=
  EObj (list_to_map [("price", SNum (Fin 1249.99)); ("date", SStr "2024-01-10T09:00:00.000Z");
                     ("website", SStr "Amazon")]).

Definition tracked_world : World :=
  {| initialized := true; backend := None;
     products := {[ "prod-1" := <["priceHistory" := VArr [amazon_entry]]>
                                  (<["currentPrice" := VNum (Fin 1249.99)]> ipad_want) ]};
     receipts := ∅; clock := 1; calls := []; fetched := [] |}.

(** A store with two receipts of one user, the earlier one stored under the
    later id, and one receipt of another user. *)
Definition two_receipts_world : World :=
  {| initialized := true; backend := None; products := ∅;
     receipts :=
       {[ "rcpt-1" := apple_receipt;
          "rcpt-2" := <["receiptDate" := VStr "2024-03-02"]> apple_receipt;
          "rcpt-3" := <["userId" := VStr "user-2"]> apple_receipt ]};
     clock := 3; calls := []; fetched := [] |}.

(** ** The words of the lookup by URL

    What "in any case", "the last segment of the path that is not empty",
    "an Amazon product URL", "with every hyphen replaced by a space" and
    "without a final .htm or .html" mean, on the characters of the strings. *)

(** The same character, or the same letter of A-Z in its other case. *)
Definition letters_agree (a b : ascii) : bool :=
  let m := nat_of_ascii a in
  let n := nat_of_ascii b in
  Nat.eqb m n
  || (Nat.leb 65 m && Nat.leb m 90 && Nat.eqb n (m + 32))
  || (Nat.leb 65 n && Nat.leb n 90 && Nat.eqb m (n + 32)).

Definition agree_ignoring_case (s t : string) : Prop :=
  Forall2 (fun a b => letters_agree a b = true)
    (list_ascii_of_string s) (list_ascii_of_string t).

(** A digit or a letter of A-Z, a-z. *)
Definition alphanumeric (c : ascii) : Prop :=
  let n := nat_of_ascii c in
  (48 <= n /\ n <= 57) \/ (65 <= n /\ n <= 90) \/ (97 <= n /\ n <= 122).

(** [found] occurs in [s], in any case. *)
Definition occurs_ignoring_case (found s : string) : Prop :=
  exists before there rest, s = before ++ there ++ rest /\ agree_ignoring_case there found.

(** [url] holds [lead], in any case, followed by ten letters or digits. *)
Definition has_product_code (lead url : string) : Prop :=
  exists before there code rest,
    url = before ++ there ++ code ++ rest
    /\ agree_ignoring_case there lead
    /\ String.length code = 10
    /\ Forall alphanumeric (list_ascii_of_string code).

(** An Amazon product URL: "amazon" in the host name and a product code
    after "/dp/" or "/gp/product/" in the URL. *)
Definition amazon_product_url (host url : string) : Prop :=
  occurs_ignoring_case "amazon" host
  /\ (has_product_code "/dp/" url \/ has_product_code "/gp/product/" url).

(** A string of slashes only. *)
Definition only_slashes (s : string) : Prop :=
  Forall (fun c => c = "/"%char) (list_ascii_of_string s).

(** [segment] is the last segment of [path] that is not empty: it holds no
    slash, only slashes follow it, and it starts the path or follows a
    slash. *)
Definition last_segment (path segment : string) : Prop :=
  segment <> ""
  /\ ~ In "/"%char (list_ascii_of_string segment)
  /\ exists before slashes,
       path = before ++ segment ++ slashes
       /\ only_slashes slashes
       /\ (before = "" \/ exists before', before = before' ++ "/").

(** [s] with every hyphen replaced by a space. *)
Definition spaced (s : string) : string :=
  string_of_list_ascii
    (map (fun c => if Ascii.eqb c "-" then " "%char else c) (list_ascii_of_string s)).

(** [ext] is ".htm" or ".html", in any case. *)
Definition page_extension (ext : string) : Prop :=
  agree_ignoring_case ext ".html" \/ agree_ignoring_case ext ".htm".

(** [stem] is [s] without its final ".htm" or ".html", [s] itself when it
    has none. *)
Definition without_page_extension (s stem : string) : Prop :=
  (exists ext, s = stem ++ ext /\ page_extension ext)
  \/ (stem = s /\ forall front ext, s = front ++ ext -> ~ page_extension ext).

(** A pattern of characters below 128 that are no capital letters. *)
Definition plain (pattern : string) : Prop :=
  Forall (fun p => nat_of_ascii p < 128 /\ lower p = p) (list_ascii_of_string pattern).

(** ** The words of the file storage *)

(** A character a generated file name keeps: a letter, a digit, "." or
    "-". *)
Definition kept (c : ascii) : Prop := alphanumeric c \/ c = "."%char \/ c = "-"%char.

(** [clean] is [name] with every other character replaced by "_". *)
Definition underscored (name clean : string) : Prop :=
  Forall2 (fun c d => (kept c /\ d = c) \/ (~ kept c /\ d = "_"%char))
    (list_ascii_of_string name) (list_ascii_of_string clean).

(** A storage that stores the file and then fails to give its URL. *)
Definition unreadable_storage : Storage :=
  {| storage_initialized := true; storage_backend := None;
     download_backend := Some {| code := Some "storage/unauthorized";
                                 message := "User does not have permission to access the object." |};
     objects := ∅; readings := 0 |}.

(** * Validators: what the error list is *)

Lemma push_if_app c msg errors :
  push_if c msg errors = (errors ++ (if c then [msg] else []))%list.
Proof. destruct c; simpl; [reflexivity | by rewrite app_nil_r]. Qed.

Lemma length_eqb_0 s : Nat.eqb (String.length s) 0 = String.eqb s "".
Proof. by destruct s. Qed.

Lemma valid_iff_no_errors (l : list string) :
  Nat.eqb (length l) 0 = true <-> l = [].
Proof. destruct l; simpl; split; congruence. Qed.

Lemma Qeq_bool_le q : Qeq_bool q 0 = true -> Qle_bool q 0 = true.
Proof.
  intros E. apply Qeq_bool_iff in E. apply Qle_bool_iff. rewrite E. apply Qle_refl.
Qed.

Lemma num_falsy_or_le0 n : negb (num_truthy n) || num_le0 n = negb (num_gt0 n).
Proof.
  destruct n as [| | |q]; simpl; try reflexivity.
  rewrite !negb_involutive.
  destruct (Qeq_bool q 0) eqn:E; [|reflexivity].
  by rewrite (Qeq_bool_le _ E).
Qed.

Lemma num_truthy_le0 n : num_truthy n = true -> num_le0 n = negb (num_gt0 n).
Proof. destruct n; simpl; try done. by rewrite negb_involutive. Qed.

Lemma forEach_from_app {A} (body : A -> nat -> list string -> list string) g l :
  (forall x i e, body x i e = (e ++ g x i)%list) ->
  forall index e, forEach_from body l index e = (e ++ appended g l index)%list.
Proof.
  intros Hbody. induction l as [|x l IH]; intros index e; simpl.
  - by rewrite app_nil_r.
  - by rewrite IH, Hbody, <- app_assoc.
Qed.

Section ValidatorFacts.
Context `{Platform}.

Lemma text_check v :
  string_or_absent v = true ->
  falsy v || blank v = negb (text_rule nonblank v).
Proof.
  destruct v as [|[| | |s]| |]; try discriminate; intros _; try reflexivity.
  unfold falsy, blank, text_rule, nonblank, truthy.
  rewrite length_eqb_0, !negb_involutive.
  destruct s; reflexivity.
Qed.

Lemma url_check v :
  url_parses "" = false ->
  string_or_absent v = true ->
  falsy v || negb (isValidUrl v) = negb (text_rule url_parses v).
Proof.
  intros Hempty.
  destruct v as [|[| | |s]| |]; try discriminate; intros _; try reflexivity.
  destruct s; simpl; [by rewrite Hempty | reflexivity].
Qed.

Lemma date_check v :
  date_parses "" = false ->
  string_or_absent v = true ->
  falsy v || negb (isValidDate v) = negb (text_rule date_parses v).
Proof.
  intros Hempty.
  destruct v as [|[| | |s]| |]; try discriminate; intros _; try reflexivity.
  destruct s; simpl; [by rewrite Hempty | reflexivity].
Qed.

Lemma required_price_check v :
  number_or_absent v = true ->
  falsy v || le0 v = negb (required_price_rule v).
Proof.
  destruct v as [|[| |n|]| |]; try discriminate; intros _; try reflexivity.
  apply num_falsy_or_le0.
Qed.

Lemma optional_price_check v :
  number_or_absent v = true ->
  nonzero_or_absent v = true ->
  truthy v && le0 v = negb (optional_price_rule v).
Proof.
  destruct v as [|[| |n|]| |]; try discriminate; intros _; try reflexivity.
  simpl. intros Hn. rewrite Hn. by apply num_truthy_le0.
Qed.

Lemma check_image_app url index errors :
  check_image url index errors
  = (errors ++ (if negb (isValidUrl (js_of_elem url)) then [rule_message (RImage index)] else []))%list.
Proof. unfold check_image. by rewrite push_if_app. Qed.

End ValidatorFacts.

Section ValidateProductFacts.
Context `{Platform}.

Lemma filter_cons_app {A} (f : A -> bool) x l :
  List.filter f (x :: l) = ((if f x then [x] else []) ++ List.filter f l)%list.
Proof. simpl. by destruct (f x). Qed.

Lemma image_errors_violated present product pre l :
  or_nil (prop product "images") = (pre ++ l)%list ->
  appended image_error l (length pre)
  = map rule_message
      (List.filter (fun r => negb (rule_holds present product r))
         (map RImage (seq (length pre) (length l)))).
Proof.
  revert pre. induction l as [|url l IH]; intros pre Himages; [reflexivity|].
  cbn [appended length seq map]. rewrite filter_cons_app, map_app.
  f_equal.
  - unfold image_error. cbn [rule_holds]. rewrite Himages.
    rewrite list_lookup_middle by reflexivity.
    change (text_rule url_parses (js_of_elem url)) with (isValidUrl (js_of_elem url)).
    by destruct (isValidUrl (js_of_elem url)).
  - specialize (IH (pre ++ [url])%list).
    rewrite length_app in IH. cbn [length] in IH.
    replace (S (length pre)) with (length pre + 1) by lia.
    apply IH. by rewrite <- app_assoc.
Qed.

Lemma images_step v e :
  match v with
  | JArr images => forEach check_image images e
  | _ => e
  end = (e ++ appended image_error (or_nil v) 0)%list.
Proof.
  destruct v; simpl; try by rewrite app_nil_r.
  unfold forEach. apply forEach_from_app. intros. apply check_image_app.
Qed.

Lemma if_map_singleton (c : bool) (r : Rule) :
  (if c then [rule_message r] else []) = map rule_message (if c then [r] else []).
Proof. by destruct c. Qed.

(** The error list of [validateProduct] is the list of the messages of the
    violated rules. *)
Lemma validateProduct_errors product :
  PlatformLaws H ->
  typed_product product = true ->
  want_prices_nonzero product = true ->
  errors (validateProduct product) = map rule_message (violated nonblank product).
Proof.
  intros Laws Htyped Hnonzero.
  unfold typed_product in Htyped. cbn [forallb] in Htyped.
  repeat (apply andb_prop in Htyped; destruct Htyped as [Htyped ?]).
  repeat match goal with H0 : _ && _ = true |- _ => apply andb_prop in H0; destruct H0 end.
  unfold violated, rules_of.
  rewrite List.filter_app, map_app.
  pose proof (image_errors_violated nonblank product [] _ eq_refl) as Himg.
  cbn [length] in Himg. rewrite <- Himg. clear Himg.
  rewrite !filter_cons_app. cbn [List.filter]. rewrite !map_app, <- !if_map_singleton.
  cbn [rule_holds rule_message map].
  unfold validateProduct. cbn [errors].
  rewrite <- !text_check, <- required_price_check, <- url_check, <- date_check
    by (assumption || apply Laws).
  unfold want_prices_nonzero in Hnonzero.
  rewrite images_step, !push_if_app.
  destruct (strict_eq_str (prop product "type") "want") eqn:Ewant.
  - apply andb_prop in Hnonzero as [Hcp Htp].
    assert (strict_eq_str (prop product "type") "have" = false) as ->.
    { destruct (prop product "type") as [|[| | |t]| |]; try discriminate.
      simpl in *. apply String.eqb_eq in Ewant. by subst. }
    rewrite <- !optional_price_check by assumption.
    simpl. by rewrite ?app_nil_r, <- ?app_assoc.
  - destruct (strict_eq_str (prop product "type") "have") eqn:Ehave.
    + rewrite <- required_price_check by assumption.
      simpl. by rewrite ?app_nil_r, <- ?app_assoc.
    + simpl. by rewrite ?app_nil_r, <- ?app_assoc.
Qed.
End ValidateProductFacts.

(** The example platform satisfies the laws. *)
Lemma sample_platform_laws : PlatformLaws sample_platform.
Proof.
  split; try reflexivity.
  - intros k. simpl. discriminate.
  - intros a b. simpl. apply String_as_OT.cmp_antisym.
  - intros a b c Hab Hbc.
    change (String_as_OT.cmp a b <> Gt) in Hab.
    change (String_as_OT.cmp b c <> Gt) in Hbc.
    change (String_as_OT.cmp a c <> Gt).
    destruct (String_as_OT.cmp a b) eqn:Eab; try congruence;
      destruct (String_as_OT.cmp b c) eqn:Ebc; try congruence.
    + apply String_as_OT.cmp_eq in Eab as ->. congruence.
    + apply String_as_OT.cmp_eq in Eab as ->. congruence.
    + apply String_as_OT.cmp_eq in Ebc as ->. congruence.
    + apply String_as_OT.cmp_lt in Eab, Ebc.
      pose proof (String_as_OT.lt_trans _ _ _ Eab Ebc) as Hac.
      apply String_as_OT.cmp_lt in Hac. congruence.
Qed.

Section ProductRules.
Context `{Platform}.

(** C2, amended.  For a candidate of the declared shape none of whose
    "want" prices is 0 or NaN, [validateProduct] reports exactly the
    violated rules, in order, where "non-empty" means that something is left
    after trimming: it answers [valid = false] if and only if a rule is
    violated, the message of every violated rule is among the errors, and
    [valid] is true exactly when the error list is empty. *)
Theorem validateProduct_reports_violated_rules product :
  PlatformLaws H ->
  typed_product product = true ->
  want_prices_nonzero product = true ->
  errors (validateProduct product) = map rule_message (violated nonblank product)
  /\ (valid (validateProduct product) = false
      <-> exists r, In r (rules_of product) /\ rule_holds nonblank product r = false)
  /\ (forall r, In r (rules_of product) -> rule_holds nonblank product r = false ->
        In (rule_message r) (errors (validateProduct product)))
  /\ (valid (validateProduct product) = true <-> errors (validateProduct product) = []).
Proof.
  intros Laws Htyped Hnonzero.
  pose proof (validateProduct_errors product Laws Htyped Hnonzero) as Herrors.
  assert (Hvalid : valid (validateProduct product)
                   = Nat.eqb (length (errors (validateProduct product))) 0) by reflexivity.
  assert (Hin : forall r, In r (violated nonblank product)
                <-> In r (rules_of product) /\ rule_holds nonblank product r = false).
  { intros r. unfold violated. rewrite List.filter_In, negb_true_iff. reflexivity. }
  split; [exact Herrors|]. split; [|split].
  - rewrite Hvalid, Herrors, length_map.
    destruct (violated nonblank product) as [|r l] eqn:E; simpl; split.
    + discriminate.
    + intros [r [Hr Hf]]. destruct (proj2 (Hin r) (conj Hr Hf)).
    + intros _. exists r. apply Hin. by left.
    + reflexivity.
  - intros r Hr Hf. rewrite Herrors. apply in_map. apply Hin. by split.
  - rewrite Hvalid. apply valid_iff_no_errors.
Qed.
End ProductRules.

(** The theorem at a payload whose originalPrice is 0. *)
Lemma validateProduct_reports_violated_rules_witness :
  typed_product (<["originalPrice" := VNum (Fin 0)]> ipad_want) = true
  /\ want_prices_nonzero (<["originalPrice" := VNum (Fin 0)]> ipad_want) = true
  /\ errors (@validateProduct sample_platform (<["originalPrice" := VNum (Fin 0)]> ipad_want))
     = ["Original price must be greater than 0"].
Proof.
  split; [reflexivity|]. split; [reflexivity|].
  destruct (validateProduct_reports_violated_rules
              (H := sample_platform) (<["originalPrice" := VNum (Fin 0)]> ipad_want)
              sample_platform_laws) as [Herrors _]; [reflexivity | reflexivity |].
  rewrite Herrors. reflexivity.
Defined.

(** C2 as stated fails: a name of one space is non-empty, so every rule as
    the claim words it holds, yet the payload is rejected. *)
Lemma validateProduct_rejects_blank_name :
  valid (@validateProduct sample_platform (<["name" := VStr " "]> ipad_want)) = false
  /\ forallb (@rule_holds sample_platform nonempty (<["name" := VStr " "]> ipad_want))
       (@rules_of (<["name" := VStr " "]> ipad_want)) = true.
Proof. split; reflexivity. Qed.

(** * Payloads with an undefined property *)

Lemma has_undefined_spec (data : obj) :
  has_undefined data = true <-> exists k, data !! k = Some VUndefined.
Proof.
  unfold has_undefined. rewrite existsb_exists. split.
  - intros ([k v] & Hin & Hv). apply bool_decide_eq_true in Hv. cbn in Hv. subst v.
    exists k. apply elem_of_map_to_list. by apply list_elem_of_In.
  - intros [k Hk]. exists (k, VUndefined). split.
    + apply list_elem_of_In. by apply elem_of_map_to_list.
    + by apply bool_decide_eq_true.
Qed.

Lemma no_undefined_spec (data : obj) :
  has_undefined data = false <-> forall k, data !! k <> Some VUndefined.
Proof.
  destruct (has_undefined data) eqn:E.
  - apply has_undefined_spec in E as [k Hk]. split; [discriminate | intros Hall; by destruct (Hall k)].
  - split; [|done]. intros _ k Hk.
    assert (has_undefined data = true) by (apply has_undefined_spec; eauto). congruence.
Qed.

Lemma no_undefined_insert (data : obj) k v :
  v <> VUndefined ->
  (forall k', data !! k' <> Some VUndefined) ->
  forall k', <[k := v]> data !! k' <> Some VUndefined.
Proof.
  intros Hv Hdata k'. destruct (decide (k = k')) as [->|Hne].
  - rewrite lookup_insert_eq. congruence.
  - rewrite lookup_insert_ne by done. apply Hdata.
Qed.

(** A payload stamped by the repository has an undefined property exactly
    when it had one under another name. *)
Lemma stamped_has_undefined (data : obj) k stamp :
  has_undefined (<[k := VStr stamp]> data) = true
  <-> exists k', k' <> k /\ data !! k' = Some VUndefined.
Proof.
  rewrite has_undefined_spec. split.
  - intros [k' Hk']. destruct (decide (k = k')) as [->|Hne].
    + rewrite lookup_insert_eq in Hk'. discriminate.
    + rewrite lookup_insert_ne in Hk' by done. eauto.
  - intros (k' & Hne & Hk'). exists k'. by rewrite lookup_insert_ne.
Qed.

Lemma comma_separated_join l : join ", " l = comma_separated l.
Proof.
  unfold join. induction l as [|x [|y l] IH]; [reflexivity | reflexivity |].
  change (String.concat ", " (x :: y :: l)) with (x ++ ", " ++ String.concat ", " (y :: l)).
  by rewrite IH.
Qed.

(** * The product store *)

Section ProductStore.
Context `{Platform}.

(** Unfolds the plumbing of [M]. *)
Ltac run := unfold bind, ret, throw, try_catch, check_initialized, request, get_world, now.

(** C10, amended.  For a price that is 0 or negative,
    [ProductService.addPriceHistory] throws before any repository call and
    leaves the world as it was (no request logged, no document read or
    changed): "Price must be greater than 0" when the productId is not
    empty, "Valid productId is required" when it is, since that guard comes
    first. *)
Theorem addPriceHistory_rejects_nonpositive_price productId price date storeName notes w :
  num_le0 price = true ->
  ProductService_addPriceHistory productId price date storeName notes w
  = (Thrown (Error (if missing productId then "Valid productId is required"
                    else "Price must be greater than 0")), w).
Proof.
  intros Hprice. unfold ProductService_addPriceHistory.
  destruct (missing productId); [reflexivity|].
  by rewrite Hprice.
Qed.

(** What [createProduct] does on a working store. *)
Lemma createProduct_run product w :
  initialized w = true -> backend w = None ->
  createProduct product w
  = let data := <["updatedAt" := VStr (toISOString (clock w))]>
                  (<["createdAt" := VStr (toISOString (clock w))]> product) in
    if has_undefined data then (Thrown (invalid_data "addDoc"), tick w)
    else
      (Returned (fresh (dom (products w))),
       set_docs PRODUCTS_COLLECTION (<[fresh (dom (products w)) := data]> (products w))
         (log_call (AddDoc PRODUCTS_COLLECTION data) (tick w))).
Proof.
  intros Hinit Hbackend. unfold createProduct, addDoc. run.
  rewrite Hinit. cbn zeta. destruct (has_undefined _); [reflexivity|].
  cbn [tick backend clock]. rewrite Hbackend. reflexivity.
Qed.

Lemma createProduct_ok product w :
  initialized w = true -> backend w = None ->
  (forall k, product !! k <> Some VUndefined) ->
  createProduct product w
  = (Returned (fresh (dom (products w))),
     set_docs PRODUCTS_COLLECTION
       (<[fresh (dom (products w)) :=
            <["updatedAt" := VStr (toISOString (clock w))]>
              (<["createdAt" := VStr (toISOString (clock w))]> product)]> (products w))
       (log_call (AddDoc PRODUCTS_COLLECTION
                    (<["updatedAt" := VStr (toISOString (clock w))]>
                       (<["createdAt" := VStr (toISOString (clock w))]> product)))
          (tick w))).
Proof.
  intros Hinit Hbackend Hclean. rewrite createProduct_run by assumption. cbn zeta.
  assert (has_undefined (<["updatedAt" := VStr (toISOString (clock w))]>
                           (<["createdAt" := VStr (toISOString (clock w))]> product)) = false)
    as ->; [|reflexivity].
  apply no_undefined_spec. by do 2 (apply no_undefined_insert; [discriminate|]).
Qed.

(** When [createProduct] returns, the store worked and the stamped payload
    held no undefined property. *)
Lemma createProduct_returned product w id w' :
  createProduct product w = (Returned id, w') ->
  initialized w = true /\ backend w = None
  /\ has_undefined (<["updatedAt" := VStr (toISOString (clock w))]>
                      (<["createdAt" := VStr (toISOString (clock w))]> product)) = false.
Proof.
  destruct (initialized w) eqn:Hinit; [destruct (backend w) as [e|] eqn:Hbackend|].
  - unfold createProduct, addDoc. run. rewrite Hinit.
    destruct (has_undefined _); [discriminate|].
    cbn [tick backend]. rewrite Hbackend. discriminate.
  - rewrite createProduct_run by assumption. cbn zeta.
    by destruct (has_undefined _).
  - unfold createProduct. run. rewrite Hinit. discriminate.
Qed.


Lemma prop_insert_eq (o : obj) k v : prop (<[k := v]> o) k = js_of_value v.
Proof. unfold prop. by rewrite lookup_insert_eq. Qed.

Lemma prop_insert_ne (o : obj) k k' v : k <> k' -> prop (<[k := v]> o) k' = prop o k'.
Proof. intros. unfold prop. by rewrite lookup_insert_ne. Qed.

(** C7, amended.  [ProductService.createProduct] on a payload that fails
    validation throws one error whose message is "Validation failed: "
    followed by all the validator's errors, separated by ", ", and leaves
    the world as it was.  On a payload that passes and has no undefined
    property, with a working store, it reads the clock once, returns an id
    no product had, and stores under it the payload with [createdAt] and
    [updatedAt] both set to that reading of the clock, which is not empty.
    A payload that passes validation but has an undefined property is
    refused by the store: the call throws and persists nothing. *)
Theorem createProduct_validates_then_stamps productData w :
  PlatformLaws H ->
  (valid (validateProduct productData) = false ->
   ProductService_createProduct productData w
   = (Thrown (Error ("Validation failed: "
                      ++ comma_separated (errors (validateProduct productData)))), w))
  /\ (valid (validateProduct productData) = true ->
      initialized w = true -> backend w = None ->
      (forall k, productData !! k <> Some VUndefined) ->
      exists id w' stored,
        ProductService_createProduct productData w = (Returned id, w')
        /\ clock w' = S (clock w)
        /\ products w !! id = None
        /\ products w' = <[id := stored]> (products w)
        /\ receipts w' = receipts w
        /\ stored = <["updatedAt" := VStr (toISOString (clock w))]>
                      (<["createdAt" := VStr (toISOString (clock w))]> productData)
        /\ prop stored "createdAt" = JStr (toISOString (clock w))
        /\ prop stored "updatedAt" = JStr (toISOString (clock w))
        /\ toISOString (clock w) <> "")
  /\ (valid (validateProduct productData) = true ->
      forall k, k <> "createdAt" -> k <> "updatedAt" ->
      productData !! k = Some VUndefined ->
      exists error,
        (ProductService_createProduct productData w).1 = Thrown error
        /\ products (ProductService_createProduct productData w).2 = products w
        /\ receipts (ProductService_createProduct productData w).2 = receipts w).
Proof.
  intros Laws. split; [|split].
  - intros Hinvalid. unfold ProductService_createProduct.
    by rewrite Hinvalid, comma_separated_join.
  - intros Hvalid Hinit Hbackend Hclean.
    exists (fresh (dom (products w))).
    eexists. eexists.
    split.
    { unfold ProductService_createProduct. rewrite Hvalid. cbn [negb].
      unfold try_catch. rewrite createProduct_ok by assumption. reflexivity. }
    split; [reflexivity|].
    split; [apply not_elem_of_dom, is_fresh|].
    split; [reflexivity|]. split; [reflexivity|]. split; [reflexivity|].
    split; [by rewrite prop_insert_ne, prop_insert_eq|].
    split; [by rewrite prop_insert_eq|].
    apply toISOString_nonempty.
  - intros Hvalid k Hcreated Hupdated Hk.
    unfold ProductService_createProduct. rewrite Hvalid. cbn [negb].
    assert (has_undefined (<["updatedAt" := VStr (toISOString (clock w))]>
                             (<["createdAt" := VStr (toISOString (clock w))]> productData))
            = true) as Hundefined.
    { apply has_undefined_spec. exists k. by rewrite !lookup_insert_ne. }
    unfold createProduct, addDoc. run.
    destruct (initialized w); [|cbn; eauto].
    cbn zeta. rewrite Hundefined. cbn. eauto.
Qed.



Lemma updateProduct_run productId updates w :
  initialized w = true -> backend w = None ->
  updateProduct productId updates w
  = let data := <["updatedAt" := VStr (toISOString (clock w))]> updates in
    let w1 := log_call (UpdateDoc PRODUCTS_COLLECTION productId data) (tick w) in
    if has_undefined data then (Thrown (invalid_data "updateDoc"), tick w)
    else
      match products w !! productId with
      | Some old =>
          (Returned tt,
           set_docs PRODUCTS_COLLECTION (<[productId := data ∪ old]> (products w)) w1)
      | None =>
          (Thrown {| code := Some "not-found";
                     message := "No document to update: " ++ productId |}, w1)
      end.
Proof.
  intros Hinit Hbackend. unfold updateProduct, updateDoc. run.
  rewrite Hinit. cbn zeta. destruct (has_undefined _); [reflexivity|].
  cbn [tick backend clock]. rewrite Hbackend.
  cbn [docs log_call products tick]. by destruct (products w !! productId).
Qed.



Lemma try_catch_rethrow_world {A} (m : M A) (f : JsError -> JsError) w :
  (try_catch m (fun e => throw (f e)) w).2 = (m w).2.
Proof. unfold try_catch, throw. by destruct (m w) as [[a|e] w']. Qed.

Lemma try_catch_rethrow_returned {A} (m : M A) (f : JsError -> JsError) w a :
  (m w).1 = Returned a -> (try_catch m (fun e => throw (f e)) w).1 = Returned a.
Proof. unfold try_catch, throw. destruct (m w) as [[a'|e] w']; simpl; congruence. Qed.


Lemma merged_lookup (updates old : obj) stamp k :
  (<["updatedAt" := stamp]> updates ∪ old) !! k
  = if decide (k = "updatedAt") then Some stamp
    else match updates !! k with Some v => Some v | None => old !! k end.
Proof.
  rewrite lookup_union. case_decide as Hk.
  - subst. rewrite lookup_insert_eq. by destruct (old !! "updatedAt").
  - rewrite lookup_insert_ne by congruence.
    destruct (updates !! k), (old !! k); reflexivity.
Qed.



Lemma getProduct_run productId w :
  initialized w = true -> backend w = None ->
  getProduct productId w
  = (Returned (with_id productId <$> products w !! productId),
     log_call (GetDoc PRODUCTS_COLLECTION productId) w).
Proof.
  intros Hinit Hbackend. unfold getProduct, getDoc. run.
  rewrite Hinit, Hbackend. cbn [docs log_call products].
  by destruct (products w !! productId).
Qed.

Lemma prop_with_id id (d : obj) k : k <> "id" -> prop (with_id id d) k = prop d k.
Proof.
  intros Hk. unfold prop, with_id. rewrite lookup_union, lookup_singleton_ne by congruence.
  by destruct (d !! k).
Qed.

(** The update [addPriceHistory] writes has no undefined property. *)
Lemma price_update_defined stamp price history (want : bool) :
  has_undefined
    (<["updatedAt" := VStr stamp]>
       (if want
        then <["currentPrice" := VNum price]> {[ "priceHistory" := VArr history ]}
        else {[ "priceHistory" := VArr history ]})) = false.
Proof.
  apply no_undefined_spec. apply no_undefined_insert; [discriminate|].
  destruct want.
  - apply no_undefined_insert; [discriminate|]. intros k.
    destruct (decide (k = "priceHistory")) as [->|Hk].
    + by rewrite lookup_singleton_eq.
    + by rewrite lookup_singleton_ne.
  - intros k. destruct (decide (k = "priceHistory")) as [->|Hk].
    + by rewrite lookup_singleton_eq.
    + by rewrite lookup_singleton_ne.
Qed.

(** What one call of [addPriceHistory] does to a working store. *)
Lemma addPriceHistory_run productId price website w :
  initialized w = true -> backend w = None ->
  addPriceHistory productId price website w
  = match products w !! productId with
    | None =>
        (Thrown (Error "Product not found"),
         log_call (GetDoc PRODUCTS_COLLECTION productId) w)
    | Some old =>
        let entry := price_entry price (toISOString (clock w)) website in
        let history : obj :=
          {[ "priceHistory" := VArr (or_nil (prop old "priceHistory") ++ [entry]) ]} in
        let updates :=
          if strict_eq_str (prop old "type") "want"
          then <["currentPrice" := VNum price]> history else history in
        let data := <["updatedAt" := VStr (toISOString (S (clock w)))]> updates in
        (Returned tt,
         set_docs PRODUCTS_COLLECTION (<[productId := data ∪ old]> (products w))
           (log_call (UpdateDoc PRODUCTS_COLLECTION productId data)
              (tick (tick (log_call (GetDoc PRODUCTS_COLLECTION productId) w)))))
    end.
Proof.
  intros Hinit Hbackend.
  unfold addPriceHistory, try_catch. unfold bind at 1.
  rewrite getProduct_run by assumption.
  destruct (products w !! productId) as [old|] eqn:Hold; [|reflexivity].
  cbn [fmap option_fmap option_map]. unfold bind, now.
  rewrite !prop_with_id by discriminate.
  rewrite updateProduct_run by assumption.
  cbn zeta. rewrite price_update_defined.
  cbn [products tick log_call]. rewrite Hold. reflexivity.
Qed.

(** C3.  On a working store, [addPriceHistory] throws "Product not found"
    and changes no product when there is no product with that id; otherwise
    it succeeds and the product's price history is the history it had (none
    when it had no [priceHistory]) followed by exactly one new entry: the
    price, the reading of the clock at the call, the source label.  It sets
    [currentPrice] to the price if the type is "want" and leaves it as it
    was if not, and leaves [priceBought] and every field other than
    [priceHistory], [currentPrice] and [updatedAt] untouched, as well as
    every other product. *)
Theorem addPriceHistory_appends_entry productId price website w :
  initialized w = true -> backend w = None ->
  (products w !! productId = None ->
   (addPriceHistory productId price website w).1 = Thrown (Error "Product not found")
   /\ products (addPriceHistory productId price website w).2 = products w)
  /\ (forall old history,
        products w !! productId = Some old ->
        prop old "priceHistory" = JArr history
        \/ (prop old "priceHistory" = JUndefined /\ history = []) ->
        (addPriceHistory productId price website w).1 = Returned tt
        /\ (forall id, id <> productId ->
             products (addPriceHistory productId price website w).2 !! id = products w !! id)
        /\ exists new,
             products (addPriceHistory productId price website w).2 !! productId = Some new
             /\ prop new "priceHistory"
                = JArr (history ++ [price_entry price (toISOString (clock w)) website])
             /\ (prop old "type" = JStr "want" -> prop new "currentPrice" = JNum price)
             /\ (prop old "type" <> JStr "want" ->
                 new !! "currentPrice" = old !! "currentPrice")
             /\ new !! "priceBought" = old !! "priceBought"
             /\ (forall k, k <> "priceHistory" -> k <> "currentPrice" -> k <> "updatedAt" ->
                 new !! k = old !! k)).
Proof.
  intros Hinit Hbackend. split.
  - intros Hnone. rewrite addPriceHistory_run by assumption. rewrite Hnone. auto.
  - intros old history Hold Hhistory.
    assert (or_nil (prop old "priceHistory") = history) as Hread.
    { by destruct Hhistory as [->|[-> ->]]. }
    rewrite addPriceHistory_run by assumption. rewrite Hold. cbn zeta. rewrite Hread.
    set (updates := if strict_eq_str (prop old "type") "want" then _ else _).
    cbn [fst snd set_docs products].
    split; [reflexivity|]. split.
    { intros id Hid. by rewrite lookup_insert_ne. }
    eexists. split; [apply lookup_insert_eq|].
    assert (Hph : updates !! "priceHistory"
                  = Some (VArr (history
                                ++ [price_entry price (toISOString (clock w)) website]))).
    { subst updates. destruct (strict_eq_str _ _).
      - rewrite lookup_insert_ne by discriminate. apply lookup_singleton_eq.
      - apply lookup_singleton_eq. }
    assert (Hother : forall k, k <> "priceHistory" -> k <> "currentPrice" -> updates !! k = None).
    { intros k ? ?. subst updates. destruct (strict_eq_str _ _).
      - rewrite lookup_insert_ne by congruence. by apply lookup_singleton_ne.
      - by apply lookup_singleton_ne. }
    split; [|split; [|split; [|split]]].
    + unfold prop. rewrite merged_lookup. rewrite decide_False by discriminate.
      by rewrite Hph.
    + intros Hwant. unfold prop. rewrite merged_lookup, decide_False by discriminate.
      subst updates. rewrite Hwant. cbn [strict_eq_str JStr].
      rewrite String.eqb_refl. by rewrite lookup_insert_eq.
    + intros Hwant. rewrite merged_lookup, decide_False by discriminate.
      subst updates.
      assert (strict_eq_str (prop old "type") "want" = false) as ->.
      { destruct (prop old "type") as [|[| | |t]| |]; try reflexivity.
        cbn. apply String.eqb_neq. intros ->. by apply Hwant. }
      by rewrite lookup_singleton_ne.
    + rewrite merged_lookup, decide_False by discriminate.
      by rewrite Hother.
    + intros k ? ? ?. rewrite merged_lookup, decide_False by assumption.
      by rewrite Hother.
Qed.


End ProductStore.

(** * Sorting *)

Section Sorting.
Context {A : Type} (cmp : A -> A -> comparison).

Hypothesis cmp_total : forall a b, cmp a b = Gt -> before cmp b a.
Hypothesis cmp_trans : forall a b c, before cmp a b -> before cmp b c -> before cmp a c.

Lemma insert_by_Permutation x l : insert_by cmp x l ≡ₚ x :: l.
Proof.
  induction l as [|y l IH]; simpl; [reflexivity|].
  destruct (cmp x y); try reflexivity.
  rewrite IH. apply perm_swap.
Qed.

Lemma sort_by_Permutation l : sort_by cmp l ≡ₚ l.
Proof.
  induction l as [|x l IH]; simpl; [reflexivity|].
  rewrite insert_by_Permutation. by rewrite IH.
Qed.

Lemma insert_by_sorted x l :
  StronglySorted (before cmp) l -> StronglySorted (before cmp) (insert_by cmp x l).
Proof.
  induction 1 as [|y l Hsorted IH Hall]; simpl.
  - repeat constructor.
  - destruct (cmp x y) eqn:E.
    + constructor; [by constructor|].
      assert (Hxy : before cmp x y) by (unfold before; congruence).
      constructor; [exact Hxy|].
      eapply Forall_impl; [exact Hall|]. intros z Hz. by eapply cmp_trans.
    + constructor; [by constructor|].
      assert (Hxy : before cmp x y) by (unfold before; congruence).
      constructor; [exact Hxy|].
      eapply Forall_impl; [exact Hall|]. intros z Hz. by eapply cmp_trans.
    + constructor; [exact IH|].
      rewrite insert_by_Permutation. constructor; [by apply cmp_total | exact Hall].
Qed.

Lemma sort_by_sorted l : StronglySorted (before cmp) (sort_by cmp l).
Proof.
  induction l as [|x l IH]; simpl; [constructor | by apply insert_by_sorted].
Qed.

End Sorting.

Lemma StronglySorted_weaken {A} (R R' : A -> A -> Prop) l :
  (forall a b, R a b -> R' a b) -> StronglySorted R l -> StronglySorted R' l.
Proof.
  intros HR. induction 1 as [|x l Hs IH Hall]; constructor; [exact IH|].
  eapply Forall_impl; [exact Hall|]. intros y. apply HR.
Qed.

Section GetProducts.
Context `{Platform}.

(** [d.createdAt || ""] is the creation timestamp the document carries. *)
Lemma createdAt_read d : or_empty (prop d "createdAt") = createdAt d.
Proof.
  unfold createdAt, prop.
  by destruct (d !! "createdAt") as [[[| | |]| | |]|].
Qed.

Lemma by_createdAt_newer_or_same a b : by_createdAt a b <> Gt <-> newer_or_same a b.
Proof.
  unfold by_createdAt, newer_or_same. rewrite !createdAt_read.
  destruct (String.eqb_spec (createdAt a) "") as [Ea|Ea];
    destruct (String.eqb_spec (createdAt b) "") as [Eb|Eb]; cbn.
  - split; [by left | done].
  - split; [done | intros [?|[? _]]; congruence].
  - split; [by left | done].
  - split; [by right | intros [?|[_ ?]]; congruence].
Qed.

Lemma by_createdAt_total a b :
  PlatformLaws H -> by_createdAt a b = Gt -> by_createdAt b a <> Gt.
Proof.
  intros Laws. unfold by_createdAt.
  destruct (String.eqb (or_empty (prop a "createdAt")) "");
    destruct (String.eqb (or_empty (prop b "createdAt")) ""); cbn; try congruence.
  rewrite (localeCompare_antisym (or_empty (prop a "createdAt"))).
  destruct (localeCompare _ _); cbn; congruence.
Qed.

Lemma by_createdAt_trans a b c :
  PlatformLaws H ->
  by_createdAt a b <> Gt -> by_createdAt b c <> Gt -> by_createdAt a c <> Gt.
Proof.
  intros Laws. rewrite !by_createdAt_newer_or_same. unfold newer_or_same.
  intros [Hb|[Ha Hba]] [Hc|[Hb' Hcb]].
  - by left.
  - congruence.
  - by left.
  - right. split; [assumption|]. by eapply localeCompare_trans.
Qed.

(** C8.  [getProducts] never throws: whatever failure the store reports
    (failed-precondition, unavailable and permission-denied among them) it
    returns the empty list; and the list it returns is sorted newest first
    by creation timestamp, products without one last.  When the query
    succeeds that list is a permutation of the user's matching products. *)
Theorem getProducts_lenient_and_sorted userId type w :
  PlatformLaws H ->
  (forall e, backend w = Some e -> (getProducts userId type w).1 = Returned [])
  /\ exists l,
       (getProducts userId type w).1 = Returned l
       /\ StronglySorted newer_or_same l
       /\ (initialized w = true -> backend w = None ->
           l ≡ₚ map (fun d => with_id d.1 d.2)
                  (filter (fun d => matches (products_query userId type) d.2 = true)
                     (map_to_list (products w)))).
Proof.
  intros Laws. split.
  - intros e He. unfold getProducts, getDocs.
    unfold bind, ret, throw, try_catch, check_initialized, request, get_world.
    destruct (initialized w); [|reflexivity]. by rewrite He.
  - unfold getProducts, getDocs.
    unfold bind, ret, throw, try_catch, check_initialized, request, get_world.
    destruct (initialized w).
    + destruct (backend w) as [e|].
      * exists []. repeat split; [constructor | discriminate].
      * eexists. split; [reflexivity|]. split.
        -- eapply StronglySorted_weaken; [| apply sort_by_sorted].
           ++ intros a b. apply by_createdAt_newer_or_same.
           ++ intros a b. by apply by_createdAt_total.
           ++ intros a b c. by apply by_createdAt_trans.
        -- intros _ _. apply sort_by_Permutation.
    + exists []. repeat split; [constructor | discriminate].
Qed.

End GetProducts.

(** * Receipts by product *)

Section Receipts.
Context `{Platform}.

(** On a working store: the documents the query selects, filtered by
    [has_item]. *)
Lemma getReceiptsByProduct_run productId w :
  initialized w = true -> backend w = None ->
  (getReceiptsByProduct productId w).1
  = Returned
      (List.filter (has_item productId)
         (map (fun d => with_id d.1 d.2)
            (filter (fun d => matches
                       [WhereArrayContainsAny "items" [EObj {[ "productId" := SStr productId ]}]]
                       d.2 = true)
               (map_to_list (receipts w))))).
Proof.
  intros Hinit Hbackend. unfold getReceiptsByProduct, getDocs.
  unfold bind, ret, throw, try_catch, check_initialized, request, get_world.
  by rewrite Hinit, Hbackend.
Qed.

(** [getReceiptsByProduct] never throws; every receipt it returns has an
    item of that product; and when the store is not initialized or fails it
    returns the empty list. *)
Theorem getReceiptsByProduct_sound productId w :
  exists l,
    (getReceiptsByProduct productId w).1 = Returned l
    /\ (forall r, In r l -> has_item productId r = true)
    /\ (initialized w = false \/ backend w <> None -> l = []).
Proof.
  unfold getReceiptsByProduct, getDocs.
  unfold bind, ret, throw, try_catch, check_initialized, request, get_world.
  destruct (initialized w); [destruct (backend w)|]; cbn; eexists;
    (split; [reflexivity|]); (split; [|try done]).
  - intros r [].
  - intros r Hr. by apply List.filter_In in Hr as [_ Hr].
  - intros [|]; congruence.
  - intros r [].
Qed.

End Receipts.

(** C5.  A stored receipt has an item of product "prod-1", yet
    [getReceiptsByProduct "prod-1"] returns the empty list: the query asks
    for receipts one of whose items equals, as a whole, the object with the
    single field [productId]. *)
Theorem getReceiptsByProduct_misses_stored_receipt :
  receipts receipts_world !! "rcpt-1" = Some apple_receipt
  /\ has_item "prod-1" apple_receipt = true
  /\ (getReceiptsByProduct "prod-1" receipts_world).1 = Returned []
  /\ (ReceiptService_getReceiptsByProduct "prod-1" receipts_world).1 = Returned [].
Proof. repeat split; vm_compute; reflexivity. Qed.

(** * Product lookup *)



Section LookupFacts.
Context `{Platform}.

Lemma lookup_at_run url w : lookup_at url w = (Returned (answer url), log_fetch url w).
Proof.
  unfold lookup_at, do_fetch, answer, try_catch, bind, ret, throw.
  destruct (fetch url) as [|response]; [reflexivity|].
  destruct (ok response); [|reflexivity].
  by destruct (json response).
Qed.

Lemma lookupProduct_run query w :
  lookupProduct query w
  = if String.eqb (trim query) "" then (Returned None, w)
    else if test_digits (trim query) then
      match answer (barcode_url (trim query)) with
      | Some r => (Returned (Some r), log_fetch (barcode_url (trim query)) w)
      | None =>
          (Returned (answer (search_url (trim query))),
           log_fetch (search_url (trim query)) (log_fetch (barcode_url (trim query)) w))
      end
    else (Returned (answer (search_url (trim query))),
          log_fetch (search_url (trim query)) w).
Proof.
  unfold lookupProduct. rewrite length_eqb_0.
  destruct (String.eqb_spec query "") as [->|Hq]; [reflexivity|]. cbn [orb].
  destruct (String.eqb (trim query) ""); [reflexivity|].
  unfold lookupByBarcode, searchProductByName, bind, ret.
  destruct (test_digits (trim query)).
  - rewrite lookup_at_run. destruct (answer (barcode_url (trim query))); [reflexivity|].
    rewrite lookup_at_run. by destruct (answer _).
  - rewrite lookup_at_run. by destruct (answer _).
Qed.



End LookupFacts.

(** * The claims at concrete inputs *)

Example sample_encodeURIComponent_space :
  sample_encodeURIComponent "iPad Pro" = "iPad%20Pro".
Proof. reflexivity. Qed.

(** * What the price checks do enforce *)

Lemma in_push_if m c msg errors :
  In m errors \/ (c = true /\ m = msg) -> In m (push_if c msg errors).
Proof.
  rewrite push_if_app, in_app_iff. intros [?|[-> ->]]; [by left | right; by left].
Qed.

Lemma in_forEach_from {A} (body : A -> nat -> list string -> list string) m l :
  (forall x i e, In m e -> In m (body x i e)) ->
  forall index e, In m e -> In m (forEach_from body l index e).
Proof.
  intros Hbody. induction l as [|x l IH]; intros index e He; simpl; [assumption|].
  apply IH. by apply Hbody.
Qed.

Lemma in_images_step `{Platform} m v e :
  In m e ->
  In m match v with
       | JArr images => forEach check_image images e
       | _ => e
       end.
Proof.
  intros He. destruct v; try assumption.
  apply in_forEach_from; [|assumption].
  intros x i e' He'. apply in_push_if. by left.
Qed.

Lemma not_valid_of_in m (l : list string) : In m l -> Nat.eqb (length l) 0 = false.
Proof. by destruct l. Qed.

Lemma num_lt0_truthy n : num_lt0 n = true -> num_truthy n = true /\ num_le0 n = true.
Proof.
  destruct n as [| | |q]; simpl; try done.
  rewrite negb_true_iff. intros Hq. split.
  - apply negb_true_iff. destruct (Qeq_bool q 0) eqn:E; [|reflexivity].
    apply Qeq_bool_iff in E. rewrite E in Hq. discriminate.
  - destruct (Qle_bool q 0) eqn:E; [reflexivity|].
    destruct (Qlt_le_dec 0 q) as [Hlt|Hle].
    + apply Qlt_le_weak, Qle_bool_iff in Hlt. congruence.
    + apply Qle_bool_iff in Hle. congruence.
Qed.

(** Finds the check that reports the message and proves that it fires. *)
Ltac find_check fires :=
  first
    [ apply in_push_if; right; split; [fires | reflexivity]
    | apply in_images_step; find_check fires
    | apply in_push_if; left; find_check fires ].

Section PriceChecks.
Context `{Platform}.

(** On create, a required price (originalPrice; priceBought of a "have"
    product) that is 0 or negative is rejected, and so is a negative
    optional price (currentPrice, targetPrice) of a "want" product. *)
Theorem validateProduct_rejects_nonpositive_prices product n :
  num_le0 n = true ->
  (prop product "originalPrice" = JNum n -> valid (validateProduct product) = false)
  /\ (prop product "type" = JStr "have" -> prop product "priceBought" = JNum n ->
      valid (validateProduct product) = false)
  /\ (prop product "type" = JStr "want" -> num_lt0 n = true ->
      prop product "currentPrice" = JNum n \/ prop product "targetPrice" = JNum n ->
      valid (validateProduct product) = false).
Proof.
  intros Hle. split; [|split].
  - intros Hprice.
    apply (not_valid_of_in "Original price must be greater than 0").
    unfold validateProduct. cbn [errors].
    destruct (strict_eq_str (prop product "type") "want");
      [|destruct (strict_eq_str (prop product "type") "have")];
      find_check ltac:(rewrite Hprice; cbn; rewrite Hle; apply orb_true_r).
  - intros Htype Hprice.
    apply (not_valid_of_in "Price bought must be greater than 0").
    unfold validateProduct. cbn [errors].
    rewrite Htype. cbn [strict_eq_str JStr String.eqb Ascii.eqb Bool.eqb].
    find_check ltac:(rewrite Hprice; cbn; rewrite Hle; apply orb_true_r).
  - intros Htype Hlt Hprice. apply num_lt0_truthy in Hlt as [Htruthy _].
    unfold validateProduct.
    rewrite Htype. cbn [strict_eq_str JStr String.eqb Ascii.eqb Bool.eqb errors valid].
    destruct Hprice as [Hprice|Hprice].
    + apply (not_valid_of_in "Current price must be greater than 0").
      find_check ltac:(rewrite Hprice; cbn; by rewrite Htruthy, Hle).
    + apply (not_valid_of_in "Target price must be greater than 0").
      find_check ltac:(rewrite Hprice; cbn; by rewrite Htruthy, Hle).
Qed.

(** On update, originalPrice, currentPrice and priceBought are rejected
    when 0 or negative. *)
Theorem validateProductUpdate_rejects_nonpositive_prices updates n :
  num_le0 n = true ->
  prop updates "originalPrice" = JNum n
  \/ prop updates "currentPrice" = JNum n
  \/ prop updates "priceBought" = JNum n ->
  valid (validateProductUpdate updates) = false.
Proof.
  intros Hle [Hprice|[Hprice|Hprice]]; unfold validateProductUpdate; cbn [valid errors].
  - apply (not_valid_of_in "Original price must be greater than 0").
    destruct (defined (prop updates "priceBought"));
      destruct (defined (prop updates "currentPrice") && not_null (prop updates "currentPrice"));
      find_check ltac:(rewrite Hprice; cbn; by rewrite Hle).
  - apply (not_valid_of_in "Current price must be greater than 0").
    rewrite Hprice. cbn [defined not_null JNum andb is_number le0].
    rewrite Hle.
    destruct (defined (prop updates "priceBought")); find_check ltac:(reflexivity).
  - apply (not_valid_of_in "Price bought must be greater than 0").
    rewrite Hprice. cbn [defined JNum andb is_number le0]. rewrite Hle.
    find_check ltac:(reflexivity).
Qed.

End PriceChecks.

(** The theorem at an originalPrice of 0. *)
Lemma validateProduct_rejects_nonpositive_prices_witness :
  num_le0 (Fin 0) = true
  /\ prop (<["originalPrice" := VNum (Fin 0)]> ipad_want) "originalPrice" = JNum (Fin 0)
  /\ valid (validateProduct (H := sample_platform)
              (<["originalPrice" := VNum (Fin 0)]> ipad_want)) = false.
Proof.
  split; [reflexivity|]. split; [reflexivity|].
  destruct (validateProduct_rejects_nonpositive_prices
              (H := sample_platform) (<["originalPrice" := VNum (Fin 0)]> ipad_want) (Fin 0))
    as [Horiginal _]; [reflexivity|].
  apply Horiginal. reflexivity.
Defined.

(** The theorem at a currentPrice of 0. *)
Lemma validateProductUpdate_rejects_nonpositive_prices_witness :
  num_le0 (Fin 0) = true
  /\ valid (validateProductUpdate (H := sample_platform)
              {[ "currentPrice" := VNum (Fin 0) ]}) = false.
Proof.
  split; [reflexivity|].
  apply (validateProductUpdate_rejects_nonpositive_prices
           (H := sample_platform) {[ "currentPrice" := VNum (Fin 0) ]} (Fin 0));
    [reflexivity | right; left; reflexivity].
Defined.

(** * Where the validators fall short of the stated price rules *)

(** C1. A "want" create payload whose currentPrice (or targetPrice) is 0
    passes [validateProduct], and an update whose targetPrice is negative
    passes [validateProductUpdate]; the update validator does reject a
    currentPrice of 0. *)
Theorem validateProduct_accepts_zero_want_price :
  validateProduct (H := sample_platform) (<["currentPrice" := VNum (Fin 0)]> ipad_want)
  = {| valid := true; errors := [] |}
  /\ validateProduct (H := sample_platform) (<["targetPrice" := VNum (Fin 0)]> ipad_want)
     = {| valid := true; errors := [] |}
  /\ validateProductUpdate (H := sample_platform) {[ "targetPrice" := VNum (Fin (-5)) ]}
     = {| valid := true; errors := [] |}
  /\ validateProductUpdate (H := sample_platform) {[ "currentPrice" := VNum (Fin 0) ]}
     = {| valid := false; errors := ["Current price must be greater than 0"] |}.
Proof. repeat split; reflexivity. Qed.

(** [validateProduct] does not tell a currentPrice of 0 from an absent
    one. *)
Lemma validateProduct_zero_currentPrice_as_absent `{Platform} product :
  validateProduct (<["currentPrice" := VNum (Fin 0)]> product)
  = validateProduct (delete "currentPrice" product).
Proof.
  unfold validateProduct.
  assert (Hother : forall k, k <> "currentPrice" ->
            prop (<["currentPrice" := VNum (Fin 0)]> product) k
            = prop (delete "currentPrice" product) k).
  { intros k Hk. unfold prop. by rewrite lookup_insert_ne, lookup_delete_ne by congruence. }
  assert (Hzero : prop (<["currentPrice" := VNum (Fin 0)]> product) "currentPrice"
                  = JNum (Fin 0)) by apply prop_insert_eq.
  assert (Habsent : prop (delete "currentPrice" product) "currentPrice" = JUndefined).
  { unfold prop. by rewrite lookup_delete_eq. }
  rewrite Hzero, Habsent.
  rewrite (Hother "name"), (Hother "brand"), (Hother "website"), (Hother "originalPrice"),
    (Hother "date"), (Hother "userId"), (Hother "type"), (Hother "targetPrice"),
    (Hother "priceBought"), (Hother "images") by discriminate.
  reflexivity.
Qed.

(** C4. A partial receipt update whose item has a negative discountedPrice
    passes [validateReceiptUpdate]; [validateReceipt] rejects the same
    items. *)
Theorem validateReceiptUpdate_accepts_negative_price :
  validateReceiptUpdate (H := sample_platform) {[ "items" := negative_price_items ]}
  = {| valid := true; errors := [] |}
  /\ validateReceipt (H := sample_platform) (<["items" := negative_price_items]> apple_receipt)
     = {| valid := false; errors := ["Item 1: Price cannot be negative"] |}.
Proof. split; reflexivity. Qed.

(** * The store operations at concrete inputs *)

(** C10, amended, at a stored product and a price of 0. *)
Lemma addPriceHistory_rejects_nonpositive_price_witness :
  num_le0 (Fin 0) = true
  /\ ProductService_addPriceHistory (H := sample_platform)
       "prod-1" (Fin 0) "2024-02-01" (Some "Amazon") None products_world
     = (Thrown (Error "Price must be greater than 0"), products_world).
Proof.
  split; [reflexivity|].
  apply (addPriceHistory_rejects_nonpositive_price
           (H := sample_platform) "prod-1" (Fin 0) "2024-02-01" (Some "Amazon") None
           products_world).
  reflexivity.
Defined.

(** C10 as stated fails: with an empty productId and a price of 0 the error
    is the one about the productId. *)
Lemma addPriceHistory_empty_id_reports_id :
  ProductService_addPriceHistory (H := sample_platform)
    "" (Fin 0) "2024-02-01" (Some "Amazon") None products_world
  = (Thrown (Error "Valid productId is required"), products_world).
Proof. reflexivity. Qed.

(** C7, amended, at a payload with two violations and at a valid payload on
    an empty, working store. *)
Lemma createProduct_validates_then_stamps_witness :
  ProductService_createProduct (H := sample_platform)
    (<["name" := VStr ""]> (<["originalPrice" := VNum (Fin 0)]> ipad_want)) empty_world
  = (Thrown (Error "Validation failed: Product name is required, Original price must be greater than 0"),
     empty_world)
  /\ valid (validateProduct (H := sample_platform) ipad_want) = true
  /\ initialized empty_world = true
  /\ backend empty_world = None
  /\ has_undefined ipad_want = false
  /\ exists id w',
       ProductService_createProduct (H := sample_platform) ipad_want empty_world
       = (Returned id, w')
       /\ products w'
          = {[ id := <["updatedAt" := VStr "2024-01-15T10:30:00.000Z"]>
                       (<["createdAt" := VStr "2024-01-15T10:30:00.000Z"]> ipad_want) ]}.
Proof.
  split.
  { destruct (createProduct_validates_then_stamps (H := sample_platform)
                (<["name" := VStr ""]> (<["originalPrice" := VNum (Fin 0)]> ipad_want))
                empty_world sample_platform_laws) as [Hinvalid _].
    exact (Hinvalid eq_refl). }
  split; [reflexivity|]. split; [reflexivity|]. split; [reflexivity|].
  split; [reflexivity|].
  destruct (createProduct_validates_then_stamps (H := sample_platform)
              ipad_want empty_world sample_platform_laws) as (_ & Hvalid & _).
  destruct Hvalid as (id & w' & stored & Hrun & _ & _ & Hproducts & _ & Hstored & _);
    [reflexivity | reflexivity | reflexivity | by apply no_undefined_spec |].
  exists id, w'. split; [exact Hrun|].
  rewrite Hproducts, Hstored. cbn [empty_world products clock].
  by rewrite insert_empty.
Defined.

(** C7 as stated fails: a payload that passes validation but carries
    [notes: undefined] is not persisted; the store refuses it. *)
Lemma createProduct_refuses_undefined_property :
  valid (validateProduct (H := sample_platform) (<["notes" := VUndefined]> ipad_want)) = true
  /\ ProductService_createProduct (H := sample_platform)
       (<["notes" := VUndefined]> ipad_want) empty_world
     = (Thrown (Error "Failed to create product: Function addDoc() called with invalid data. Unsupported field value: undefined"),
        tick empty_world)
  /\ products (tick empty_world) = ∅.
Proof. repeat split; vm_compute; reflexivity. Qed.

(** Two violations are reported in one message. *)
Example createProduct_rejects_zero_price :
  ProductService_createProduct (H := sample_platform)
    (<["name" := VStr ""]> (<["originalPrice" := VNum (Fin 0)]> ipad_want)) empty_world
  = (Thrown (Error "Validation failed: Product name is required, Original price must be greater than 0"),
     empty_world).
Proof. reflexivity. Qed.



(** C3 at a stored "want" product that has one price on record. *)
Lemma addPriceHistory_appends_entry_witness :
  initialized tracked_world = true
  /\ backend tracked_world = None
  /\ stored_field tracked_world "prod-1" "priceHistory" = Some (VArr [amazon_entry])
  /\ (addPriceHistory (H := sample_platform) "prod-1" (Fin 1199.99) "Currys" tracked_world).1
     = Returned tt
  /\ exists new,
       products (addPriceHistory (H := sample_platform)
                   "prod-1" (Fin 1199.99) "Currys" tracked_world).2 !! "prod-1" = Some new
       /\ prop new "priceHistory"
          = JArr [amazon_entry;
                  price_entry (Fin 1199.99) "2024-01-15T10:30:00.001Z" "Currys"]
       /\ prop new "currentPrice" = JNum (Fin 1199.99).
Proof.
  split; [reflexivity|]. split; [reflexivity|]. split; [reflexivity|].
  destruct (addPriceHistory_appends_entry (H := sample_platform)
              "prod-1" (Fin 1199.99) "Currys" tracked_world eq_refl eq_refl) as [_ Hfound].
  destruct (Hfound (<["priceHistory" := VArr [amazon_entry]]>
                      (<["currentPrice" := VNum (Fin 1249.99)]> ipad_want))
              [amazon_entry])
    as (Hret & _ & new & Hnew & Hhistory & Hwant & _);
    [reflexivity | left; reflexivity |].
  split; [exact Hret|].
  exists new. split; [exact Hnew|]. split; [exact Hhistory|]. apply Hwant. reflexivity.
Defined.

(** A "have" product gets the entry and keeps its prices. *)
Example addPriceHistory_have_keeps_prices :
  let w' := (addPriceHistory (H := sample_platform) "prod-2" (Fin 899) "eBay"
               two_products_world).2 in
  stored_field w' "prod-2" "priceBought" = Some (VNum (Fin 949.99))
  /\ stored_field w' "prod-2" "currentPrice" = None
  /\ stored_field w' "prod-2" "priceHistory"
     = Some (VArr [price_entry (Fin 899) "2024-01-15T10:30:00.002Z" "eBay"]).
Proof. repeat split; vm_compute; reflexivity. Qed.

(** The later product comes first. *)
Example getProducts_newest_first :
  map createdAt (match (getProducts (H := sample_platform) "user-1" None two_products_world).1 with
                 | Returned l => l
                 | Thrown _ => []
                 end)
  = ["2024-03-02T08:00:00.000Z"; "2024-01-15T10:30:00.000Z"].
Proof. vm_compute. reflexivity. Qed.

(** C8 at an unavailable store and at a store with two products, which
    come back later one first. *)
Lemma getProducts_lenient_and_sorted_witness :
  (getProducts (H := sample_platform) "user-1" None unavailable_world).1 = Returned []
  /\ exists l,
       (getProducts (H := sample_platform) "user-1" None two_products_world).1 = Returned l
       /\ StronglySorted (newer_or_same (H := sample_platform)) l
       /\ map createdAt l = ["2024-03-02T08:00:00.000Z"; "2024-01-15T10:30:00.000Z"].
Proof.
  split.
  - destruct (getProducts_lenient_and_sorted (H := sample_platform)
                "user-1" None unavailable_world sample_platform_laws) as [Hfail _].
    eapply Hfail. reflexivity.
  - destruct (getProducts_lenient_and_sorted (H := sample_platform)
                "user-1" None two_products_world sample_platform_laws)
      as [_ (l & Hl & Hsorted & _)].
    exists l. split; [exact Hl|]. split; [exact Hsorted|].
    pose proof getProducts_newest_first as Horder. by rewrite Hl in Horder.
Defined.


(** An all-digit query: barcode lookup, then name search. *)
Example lookupProduct_digits_barcode_first :
  (lookupProduct (H := sample_platform) "0123456789012" empty_world).1 = Returned None
  /\ fetched (lookupProduct (H := sample_platform) "0123456789012" empty_world).2
     = ["https://api.upcitemdb.com/prod/trial/lookup?upc=0123456789012";
        "https://api.upcitemdb.com/prod/trial/search?s=0123456789012&match_mode=0&type=product"].
Proof. split; vm_compute; reflexivity. Qed.

(** A query with letters: the name search alone. *)
Example lookupProduct_text_name_only :
  fetched (lookupProduct (H := sample_platform) "iPad Pro" empty_world).2
  = ["https://api.upcitemdb.com/prod/trial/search?s=iPad%20Pro&match_mode=0&type=product"].
Proof. vm_compute. reflexivity. Qed.

(** * More of the product store *)

(** ** Identifiers the store hands out are never empty *)

Lemma pretty_N_go_nonempty x s : s <> "" -> pretty_N_go x s <> "".
Proof.
  revert s. induction (N.lt_wf_0 x) as [x _ IH]; intros s Hs.
  assert (x = 0 \/ 0 < x)%N as [->|Hpos] by lia.
  - by rewrite pretty_N_go_0.
  - rewrite pretty_N_go_step by done. apply IH; [by apply N.div_lt | discriminate].
Qed.

Lemma pretty_nat_nonempty (n : nat) : pretty n <> "".
Proof.
  unfold pretty, pretty_nat, pretty, pretty_N.
  case_decide; [discriminate|].
  rewrite pretty_N_go_step by lia. apply pretty_N_go_nonempty. discriminate.
Qed.

Lemma search_pretty (xs : list string) n
    (acc : Acc (fun n1 n2 : nat => n2 < n1 /\ pretty (n1 - 1) ∈ xs) n) :
  exists m : nat, Fix_F (fun _ => string) (search_infinite_go pretty xs) acc = pretty m.
Proof.
  revert n acc. fix FIX 2. intros n [acc]; simpl; unfold search_infinite_go at 1.
  destruct (decide _); [apply FIX | by exists n].
Qed.

Lemma fresh_string_pretty (xs : list string) : exists n : nat, fresh xs = pretty n.
Proof. apply search_pretty. Qed.

Lemma fresh_id_nonempty (ids : gset string) : fresh ids <> "".
Proof.
  unfold fresh at 1, set_fresh. cbn.
  destruct (fresh_string_pretty (elements ids)) as [n ->]. apply pretty_nat_nonempty.
Qed.

(** ** Listing, creating, reading, deleting *)

Section MoreProductStore.
Context `{Platform}.

Ltac run := unfold bind, ret, throw, try_catch, check_initialized, request, get_world, now.

Lemma getProducts_returns userId type w :
  (getProducts userId type w).1
  = Returned (if initialized w then
                match backend w with
                | Some _ => []
                | None =>
                    sort_by by_createdAt
                      (map (fun d => with_id d.1 d.2)
                         (filter (fun d => matches (products_query userId type) d.2 = true)
                            (map_to_list (products w))))
                end
              else [])
  /\ products (getProducts userId type w).2 = products w
  /\ receipts (getProducts userId type w).2 = receipts w.
Proof.
  unfold getProducts, getDocs. run.
  destruct (initialized w); [destruct (backend w)|]; by cbn.
Qed.

Lemma matches_products_query userId type (d : obj) :
  matches (products_query userId type) d = true
  <-> d !! "userId" = Some (VStr userId)
      /\ (forall t, type = Some t -> t <> "" -> d !! "type" = Some (VStr t)).
Proof.
  unfold matches, products_query. cbn [forallb satisfies]. rewrite andb_true_iff.
  rewrite bool_decide_eq_true.
  destruct type as [t|].
  - destruct (String.eqb_spec t "") as [->|Ht]; cbn [forallb satisfies].
    + split; [intros [? _]; split; [done|]; intros ? [= <-] ?; done | intros [? _]; done].
    + rewrite andb_true_r, bool_decide_eq_true. split.
      * intros [? ?]. split; [done|]. by intros ? [= <-] _.
      * intros [? Ht']. split; [done|]. by apply Ht'.
  - cbn. split; [intros [? _]; split; [done|]; intros ? [=] | intros [? _]; done].
Qed.

(** [ProductService.getProducts] with a user id never throws, changes
    nothing, and returns products of that user only (of that type only, when
    a type is given); on a working store it returns every stored product of
    that user (and type), each with its document id merged in. *)
Theorem ProductService_getProducts_scoped userId type w :
  userId <> "" ->
  exists l,
    (ProductService_getProducts userId type w).1 = Returned l
    /\ products (ProductService_getProducts userId type w).2 = products w
    /\ receipts (ProductService_getProducts userId type w).2 = receipts w
    /\ (forall p, In p l ->
          prop p "userId" = JStr userId
          /\ (forall t, type = Some t -> t <> "" -> prop p "type" = JStr t))
    /\ (initialized w = true -> backend w = None ->
        forall id d,
          products w !! id = Some d ->
          d !! "userId" = Some (VStr userId) ->
          (forall t, type = Some t -> t <> "" -> d !! "type" = Some (VStr t)) ->
          In (with_id id d) l).
Proof.
  intros Huser. unfold ProductService_getProducts.
  assert (missing userId = false) as -> by (by apply String.eqb_neq).
  destruct (getProducts_returns userId type w) as (Hret & Hproducts & Hreceipts).
  rewrite try_catch_rethrow_world, Hproducts, Hreceipts.
  eexists. split; [by apply try_catch_rethrow_returned|].
  split; [reflexivity|]. split; [reflexivity|].
  destruct (initialized w); [destruct (backend w)|]; split; try (by intros ? []); try done.
  - intros p Hp. apply list_elem_of_In in Hp. rewrite sort_by_Permutation in Hp.
    apply list_elem_of_fmap in Hp as ([id d] & -> & Hd).
    apply list_elem_of_filter in Hd as [Hmatch _]. cbn in Hmatch.
    apply matches_products_query in Hmatch as [Huid Htype]. cbn [fst snd].
    split.
    + rewrite prop_with_id by discriminate. unfold prop. by rewrite Huid.
    + intros t Ht Hne. rewrite prop_with_id by discriminate.
      unfold prop. by rewrite (Htype t Ht Hne).
  - intros _ _ id d Hd Huid Htype.
    apply list_elem_of_In. rewrite sort_by_Permutation.
    apply list_elem_of_fmap. exists (id, d). split; [reflexivity|].
    apply list_elem_of_filter. split.
    + cbn. by apply matches_products_query.
    + by apply elem_of_map_to_list.
Qed.

Lemma getProduct_world productId w :
  products (getProduct productId w).2 = products w
  /\ receipts (getProduct productId w).2 = receipts w
  /\ initialized (getProduct productId w).2 = initialized w
  /\ backend (getProduct productId w).2 = backend w.
Proof.
  unfold getProduct, getDoc. run.
  destruct (initialized w) eqn:Hinit; [destruct (backend w) eqn:Hbackend|]; cbn;
    [| destruct (products w !! productId) |]; cbn; repeat split; assumption.
Qed.

(** A product that [ProductService.createProduct] has stored is what
    [ProductService.getProduct] returns for the id it was given: the payload
    with its two timestamps, and the id merged in unless the payload has an
    [id] field of its own. *)
Theorem createProduct_then_getProduct productData w id w' :
  ProductService_createProduct productData w = (Returned id, w') ->
  exists found,
    (ProductService_getProduct id w').1 = Returned (Some found)
    /\ (forall k, k <> "id" -> k <> "createdAt" -> k <> "updatedAt" ->
          found !! k = productData !! k)
    /\ prop found "createdAt" = JStr (toISOString (clock w))
    /\ prop found "updatedAt" = JStr (toISOString (clock w))
    /\ (productData !! "id" = None -> prop found "id" = JStr id).
Proof.
  unfold ProductService_createProduct.
  destruct (valid (validateProduct productData)); cbn [negb]; [|discriminate].
  unfold try_catch at 1.
  destruct (createProduct productData w) as [[id0|e] w0] eqn:Hrun; [|discriminate].
  intros [= <- <-].
  destruct (createProduct_returned _ _ _ _ Hrun) as (Hinit & Hbackend & Hclean).
  rewrite createProduct_run in Hrun by assumption. cbn zeta in Hrun.
  rewrite Hclean in Hrun. injection Hrun as <- <-.
  set (stored := <["updatedAt" := _]> (<["createdAt" := _]> productData)).
  unfold ProductService_getProduct.
  assert (missing (fresh (dom (products w))) = false) as ->.
  { apply String.eqb_neq, fresh_id_nonempty. }
  exists (with_id (fresh (dom (products w))) stored). split.
  { apply try_catch_rethrow_returned. rewrite getProduct_run by assumption.
    cbn [fst set_docs products log_call]. by rewrite lookup_insert_eq. }
  split; [|split; [|split]].
  - intros k ? ? ?. unfold with_id, stored.
    rewrite lookup_union, lookup_singleton_ne, !lookup_insert_ne by congruence.
    by destruct (productData !! k).
  - rewrite prop_with_id by discriminate. unfold stored.
    by rewrite prop_insert_ne, prop_insert_eq.
  - rewrite prop_with_id by discriminate. unfold stored. by rewrite prop_insert_eq.
  - intros Hid. unfold prop, with_id, stored.
    rewrite lookup_union, lookup_singleton_eq, !lookup_insert_ne, Hid by discriminate.
    reflexivity.
Qed.

End MoreProductStore.

(** The listing of "user-1"'s wanted products in a store of two products. *)
Lemma ProductService_getProducts_scoped_witness :
  "user-1" <> ""
  /\ exists l,
       (ProductService_getProducts (H := sample_platform)
          "user-1" (Some "want") two_products_world).1 = Returned l
       /\ Forall (fun p => prop p "type" = JStr "want") l.
Proof.
  split; [discriminate|].
  destruct (ProductService_getProducts_scoped (H := sample_platform)
              "user-1" (Some "want") two_products_world)
    as (l & Hret & _ & _ & Hscope & _); [discriminate|].
  exists l. split; [exact Hret|].
  apply List.Forall_forall. intros p Hp. by apply (Hscope p Hp).
Defined.

(** Creating [ipad_want] in an empty store, then reading it back. *)
Lemma createProduct_then_getProduct_witness :
  ProductService_createProduct (H := sample_platform) ipad_want empty_world
  = (Returned "0",
     (ProductService_createProduct (H := sample_platform) ipad_want empty_world).2)
  /\ exists found,
       (ProductService_getProduct "0"
          (ProductService_createProduct (H := sample_platform) ipad_want empty_world).2).1
       = Returned (Some found)
       /\ found !! "name" = Some (VStr "Apple iPad Pro")
       /\ prop found "id" = JStr "0".
Proof.
  split; [reflexivity|].
  destruct (createProduct_then_getProduct (H := sample_platform) ipad_want empty_world "0"
              (ProductService_createProduct (H := sample_platform) ipad_want empty_world).2)
    as (found & Hret & Hfields & _ & _ & Hid); [reflexivity|].
  exists found. split; [exact Hret|]. split.
  - by rewrite Hfields.
  - by apply Hid.
Defined.

Section FailuresAndDeletes.
Context `{Platform}.

Ltac run := unfold bind, ret, throw, try_catch, check_initialized, request, get_world, now.

(** Splits on what a store operation branches on first. *)
Ltac by_cases w :=
  run;
  destruct (initialized w) eqn:Hinit;
  [ try (destruct (has_undefined _); [by cbn|]);
    cbn beta; cbn [tick log_call initialized backend products receipts docs];
    destruct (backend w) eqn:Hbackend |];
  cbn [tick log_call initialized backend products receipts docs].

(** An operation of either service that throws has persisted nothing:
    products and receipts are as they were. *)
Theorem failed_operations_persist_nothing w :
  (forall productData e,
     (ProductService_createProduct productData w).1 = Thrown e ->
     products (ProductService_createProduct productData w).2 = products w
     /\ receipts (ProductService_createProduct productData w).2 = receipts w)
  /\ (forall productId updates e,
        (ProductService_updateProduct productId updates w).1 = Thrown e ->
        products (ProductService_updateProduct productId updates w).2 = products w
        /\ receipts (ProductService_updateProduct productId updates w).2 = receipts w)
  /\ (forall productId e,
        (ProductService_deleteProduct productId w).1 = Thrown e ->
        products (ProductService_deleteProduct productId w).2 = products w
        /\ receipts (ProductService_deleteProduct productId w).2 = receipts w)
  /\ (forall productId price date storeName notes e,
        (ProductService_addPriceHistory productId price date storeName notes w).1 = Thrown e ->
        products (ProductService_addPriceHistory productId price date storeName notes w).2
        = products w
        /\ receipts (ProductService_addPriceHistory productId price date storeName notes w).2
           = receipts w)
  /\ (forall receiptData e,
        (ReceiptService_createReceipt receiptData w).1 = Thrown e ->
        products (ReceiptService_createReceipt receiptData w).2 = products w
        /\ receipts (ReceiptService_createReceipt receiptData w).2 = receipts w)
  /\ (forall receiptId updates e,
        (ReceiptService_updateReceipt receiptId updates w).1 = Thrown e ->
        products (ReceiptService_updateReceipt receiptId updates w).2 = products w
        /\ receipts (ReceiptService_updateReceipt receiptId updates w).2 = receipts w)
  /\ (forall receiptId e,
        (ReceiptService_deleteReceipt receiptId w).1 = Thrown e ->
        products (ReceiptService_deleteReceipt receiptId w).2 = products w
        /\ receipts (ReceiptService_deleteReceipt receiptId w).2 = receipts w).
Proof.
  split; [|split; [|split; [|split; [|split; [|split]]]]].
  - intros productData e. unfold ProductService_createProduct, createProduct, addDoc.
    destruct (valid _); cbn [negb]; [|done]. by_cases w; by cbn.
  - intros productId updates e.
    unfold ProductService_updateProduct, updateProduct, updateDoc.
    destruct (missing _); [done|]. destruct (valid _); cbn [negb]; [|done].
    by_cases w; try (by cbn). destruct (products w !! productId); by cbn.
  - intros productId e. unfold ProductService_deleteProduct, deleteProduct, deleteDoc.
    destruct (missing _); [done|]. by_cases w; by cbn.
  - intros productId price date storeName notes e.
    unfold ProductService_addPriceHistory.
    destruct (missing _); [done|]. destruct (num_le0 _); [done|].
    rewrite try_catch_rethrow_world.
    destruct (initialized w) eqn:Hinit; [destruct (backend w) eqn:Hbackend|].
    + unfold addPriceHistory, getProduct, getDoc. run. rewrite Hinit, Hbackend. by cbn.
    + unfold try_catch, throw. rewrite addPriceHistory_run by assumption.
      destruct (products w !! productId); [|by cbn]. cbn. discriminate.
    + unfold addPriceHistory, getProduct. run. rewrite Hinit. by cbn.
  - intros receiptData e. unfold ReceiptService_createReceipt, createReceipt, addDoc.
    destruct (valid _); cbn [negb]; [|done]. by_cases w; by cbn.
  - intros receiptId updates e.
    unfold ReceiptService_updateReceipt, updateReceipt, updateDoc.
    destruct (missing _); [done|]. destruct (valid _); cbn [negb]; [|done].
    by_cases w; try (by cbn). destruct (receipts w !! receiptId); by cbn.
  - intros receiptId e. unfold ReceiptService_deleteReceipt, deleteReceipt, deleteDoc.
    destruct (missing _); [done|]. by_cases w; by cbn.
Qed.

End FailuresAndDeletes.

(** * Creating, then listing *)

Section CreateThenList.
Context `{Platform}.

Lemma validateProduct_owner product :
  valid (validateProduct product) = true -> prop product "userId" <> JStr "".
Proof.
  intros Hvalid Howner.
  assert (valid (validateProduct product) = false) as Hinvalid; [|congruence].
  apply (not_valid_of_in "User ID is required").
  unfold validateProduct. cbn [errors].
  destruct (strict_eq_str (prop product "type") "want");
    [|destruct (strict_eq_str (prop product "type") "have")];
    find_check ltac:(by rewrite Howner).
Qed.

(** A product that [ProductService.createProduct] has stored is listed by
    [ProductService.getProducts] for the user the payload names, whether
    all products are asked for or those of the payload's type: the list
    holds the payload with its two timestamps and the new id, beside what
    it held before. *)
Theorem createProduct_then_listed productData userId type w id w' :
  ProductService_createProduct productData w = (Returned id, w') ->
  productData !! "userId" = Some (VStr userId) ->
  (forall t, type = Some t -> t <> "" -> productData !! "type" = Some (VStr t)) ->
  exists before after,
    (ProductService_getProducts userId type w).1 = Returned before
    /\ (ProductService_getProducts userId type w').1 = Returned after
    /\ after ≡ₚ with_id id (<["updatedAt" := VStr (toISOString (clock w))]>
                              (<["createdAt" := VStr (toISOString (clock w))]> productData))
                :: before.
Proof.
  unfold ProductService_createProduct.
  destruct (valid (validateProduct productData)) eqn:Hvalid; cbn [negb]; [|discriminate].
  intros Hrun Howner Htype.
  assert (userId <> "") as Huser.
  { intros ->. apply (validateProduct_owner productData Hvalid).
    unfold prop. by rewrite Howner. }
  revert Hrun. unfold try_catch at 1.
  destruct (createProduct productData w) as [[id0|e] w0] eqn:Hrun; [|discriminate].
  intros [= <- <-].
  destruct (createProduct_returned _ _ _ _ Hrun) as (Hinit & Hbackend & Hclean).
  rewrite createProduct_run in Hrun by assumption. cbn zeta in Hrun.
  rewrite Hclean in Hrun. injection Hrun as <- <-.
  set (stored := <["updatedAt" := _]> (<["createdAt" := _]> productData)).
  unfold ProductService_getProducts.
  assert (missing userId = false) as -> by (by apply String.eqb_neq).
  eexists. eexists. split; [|split].
  - apply try_catch_rethrow_returned. exact (proj1 (getProducts_returns _ _ _)).
  - apply try_catch_rethrow_returned. exact (proj1 (getProducts_returns _ _ _)).
  - cbn [set_docs initialized backend products log_call tick]. rewrite Hinit, Hbackend.
    rewrite !sort_by_Permutation.
    rewrite map_to_list_insert by apply not_elem_of_dom, is_fresh.
    rewrite filter_cons_True.
    + reflexivity.
    + cbn [snd]. apply matches_products_query. unfold stored. split.
      * by rewrite !lookup_insert_ne by discriminate.
      * intros t Ht Hne. rewrite !lookup_insert_ne by discriminate. by apply Htype.
Qed.

End CreateThenList.

(** Creating [ipad_want] beside the two products of "user-1". *)
Lemma createProduct_then_listed_witness :
  ProductService_createProduct (H := sample_platform) ipad_want two_products_world
  = (Returned "0",
     (ProductService_createProduct (H := sample_platform) ipad_want two_products_world).2)
  /\ ipad_want !! "userId" = Some (VStr "user-1")
  /\ exists before after,
       (ProductService_getProducts (H := sample_platform) "user-1" (Some "want")
          two_products_world).1 = Returned before
       /\ (ProductService_getProducts (H := sample_platform) "user-1" (Some "want")
             (ProductService_createProduct (H := sample_platform)
                ipad_want two_products_world).2).1 = Returned after
       /\ length after = S (length before).
Proof.
  split; [reflexivity|]. split; [reflexivity|].
  destruct (createProduct_then_listed (H := sample_platform)
              ipad_want "user-1" (Some "want") two_products_world "0"
              (ProductService_createProduct (H := sample_platform)
                 ipad_want two_products_world).2)
    as (before & after & Hbefore & Hafter & Hperm).
  - reflexivity.
  - reflexivity.
  - by intros t [= <-] _.
  - exists before, after. split; [exact Hbefore|]. split; [exact Hafter|].
    apply Permutation_length in Hperm. exact Hperm.
Defined.

(** * Deleting, updating and pricing products *)

Section ProductLifecycle.
Context `{Platform}.

Ltac run := unfold bind, ret, throw, try_catch, check_initialized, request, get_world, now.

Lemma deleteProduct_run productId w :
  initialized w = true -> backend w = None ->
  deleteProduct productId w
  = (Returned tt,
     set_docs PRODUCTS_COLLECTION (delete productId (products w))
       (log_call (DeleteDoc PRODUCTS_COLLECTION productId) w)).
Proof.
  intros Hinit Hbackend. unfold deleteProduct, deleteDoc. run.
  by rewrite Hinit, Hbackend.
Qed.

Lemma ProductService_getProduct_run productId w :
  productId <> "" -> initialized w = true -> backend w = None ->
  (ProductService_getProduct productId w).1
  = Returned (with_id productId <$> products w !! productId).
Proof.
  intros Hid Hinit Hbackend. unfold ProductService_getProduct.
  assert (missing productId = false) as -> by (by apply String.eqb_neq).
  apply try_catch_rethrow_returned. by rewrite getProduct_run.
Qed.

(** On a working store [ProductService.deleteProduct] succeeds whether or
    not the product exists; afterwards the product is gone
    ([ProductService.getProduct] returns null for it), every other product
    reads as before, and receipts are untouched. *)
Theorem deleteProduct_then_getProduct productId w :
  productId <> "" -> initialized w = true -> backend w = None ->
  exists w',
    ProductService_deleteProduct productId w = (Returned tt, w')
    /\ products w' = delete productId (products w)
    /\ receipts w' = receipts w
    /\ (ProductService_getProduct productId w').1 = Returned None
    /\ (forall other, other <> productId ->
          (ProductService_getProduct other w').1 = (ProductService_getProduct other w).1).
Proof.
  intros Hid Hinit Hbackend. eexists. split.
  { unfold ProductService_deleteProduct.
    assert (missing productId = false) as -> by (by apply String.eqb_neq).
    unfold try_catch. rewrite deleteProduct_run by assumption. reflexivity. }
  split; [reflexivity|]. split; [reflexivity|]. split.
  - rewrite ProductService_getProduct_run by assumption.
    cbn [set_docs products log_call]. by rewrite lookup_delete_eq.
  - intros other Hother. destruct (String.eqb_spec other "") as [->|Hne]; [reflexivity|].
    rewrite !ProductService_getProduct_run by assumption.
    cbn [set_docs products log_call]. by rewrite lookup_delete_ne.
Qed.

(** Updating, or adding a price to, a product that is not stored throws and
    creates nothing. *)
Theorem updateProduct_never_creates productId w :
  products w !! productId = None ->
  (forall updates,
     (exists e, (ProductService_updateProduct productId updates w).1 = Thrown e)
     /\ products (ProductService_updateProduct productId updates w).2 = products w)
  /\ (forall price date storeName notes,
        (exists e,
           (ProductService_addPriceHistory productId price date storeName notes w).1
           = Thrown e)
        /\ products (ProductService_addPriceHistory productId price date storeName notes w).2
           = products w).
Proof.
  intros Hnone. split.
  - intros updates. unfold ProductService_updateProduct.
    destruct (missing productId); [cbn; eauto|].
    destruct (valid (validateProductUpdate updates)); cbn [negb]; [|cbn; eauto].
    unfold updateProduct, updateDoc. run.
    destruct (initialized w); [|cbn; eauto].
    destruct (has_undefined _); [cbn; eauto|]. cbn beta.
    cbn [tick backend]. destruct (backend w); [cbn; eauto|].
    cbn [docs log_call products tick]. rewrite Hnone. cbn. eauto.
  - intros price date storeName notes. unfold ProductService_addPriceHistory.
    destruct (missing productId); [cbn; eauto|].
    destruct (num_le0 price); [cbn; eauto|].
    destruct (initialized w) eqn:Hinit; [destruct (backend w) eqn:Hbackend|].
    + unfold addPriceHistory, getProduct, getDoc. run. rewrite Hinit, Hbackend. cbn. eauto.
    + unfold try_catch, throw. rewrite addPriceHistory_run by assumption.
      rewrite Hnone. cbn. eauto.
    + unfold addPriceHistory, getProduct. run. rewrite Hinit. cbn. eauto.
Qed.

(** When [ProductService.addPriceHistory] succeeds the price was not [<= 0],
    the product existed, and reading the product afterwards shows the
    history it had (none when it had no [priceHistory]) followed by one new
    entry that carries the price, the reading of the clock at the call (not
    the [date] argument) and, as its source, the store name given, or
    "Unknown Store" when none or an empty one was given. *)
Theorem ProductService_addPriceHistory_then_getProduct
    productId price date storeName notes w w' :
  ProductService_addPriceHistory productId price date storeName notes w = (Returned tt, w') ->
  num_le0 price = false
  /\ exists old found,
       products w !! productId = Some old
       /\ (ProductService_getProduct productId w').1 = Returned (Some found)
       /\ (forall history label,
             prop old "priceHistory" = JArr history
             \/ (prop old "priceHistory" = JUndefined /\ history = []) ->
             (storeName = Some label /\ label <> "")
             \/ ((storeName = None \/ storeName = Some "") /\ label = "Unknown Store") ->
             prop found "priceHistory"
             = JArr (history ++ [price_entry price (toISOString (clock w)) label]))
       /\ (forall k, k <> "priceHistory" -> k <> "currentPrice" -> k <> "updatedAt" ->
             k <> "id" -> found !! k = old !! k).
Proof.
  unfold ProductService_addPriceHistory.
  destruct (String.eqb_spec productId "") as [->|Hid];
    [unfold missing; cbn; discriminate|].
  assert (missing productId = false) as -> by (by apply String.eqb_neq).
  destruct (num_le0 price); [discriminate|].
  destruct (initialized w) eqn:Hinit; [destruct (backend w) eqn:Hbackend|].
  - unfold addPriceHistory, getProduct, getDoc. run. rewrite Hinit, Hbackend. discriminate.
  - unfold try_catch, throw. rewrite addPriceHistory_run by assumption.
    destruct (products w !! productId) as [old|] eqn:Hold; [|discriminate].
    cbn zeta. intros [= <-]. split; [reflexivity|].
    eexists old, _. split; [reflexivity|]. split.
    { rewrite ProductService_getProduct_run by assumption.
      cbn [set_docs products log_call tick]. by rewrite lookup_insert_eq. }
    split.
    + intros history label Hhistory Hlabel.
      assert (or_nil (prop old "priceHistory") = history) as ->.
      { by destruct Hhistory as [->|[-> ->]]. }
      assert (or_unknown_store storeName = label) as ->.
      { destruct Hlabel as [[-> Hlabel]|[[->| ->] ->]]; [|reflexivity..].
        cbn. by apply String.eqb_neq in Hlabel as ->. }
      rewrite prop_with_id by discriminate. unfold prop.
      rewrite lookup_union, lookup_insert_ne by discriminate.
      destruct (strict_eq_str _ "want").
      * rewrite lookup_insert_ne, lookup_singleton_eq by discriminate.
        by destruct (old !! "priceHistory").
      * rewrite lookup_singleton_eq. by destruct (old !! "priceHistory").
    + intros k ? ? ? ?. unfold with_id.
      rewrite lookup_union, lookup_singleton_ne by congruence.
      rewrite lookup_union, lookup_insert_ne by congruence.
      destruct (strict_eq_str _ "want").
      * rewrite lookup_insert_ne, lookup_singleton_ne by congruence.
        by destruct (old !! k).
      * rewrite lookup_singleton_ne by congruence. by destruct (old !! k).
  - unfold addPriceHistory, getProduct. run. rewrite Hinit. discriminate.
Qed.

(** One successful call of [addPriceHistory], as the next call finds the
    store. *)
Lemma addPriceHistory_step productId price website w old :
  initialized w = true -> backend w = None ->
  products w !! productId = Some old ->
  exists new w',
    addPriceHistory productId price website w = (Returned tt, w')
    /\ initialized w' = true /\ backend w' = None /\ clock w' = clock w + 2
    /\ products w' !! productId = Some new
    /\ or_nil (prop new "priceHistory")
       = (or_nil (prop old "priceHistory")
          ++ [price_entry price (toISOString (clock w)) website])%list
    /\ prop new "priceHistory" = JArr (or_nil (prop new "priceHistory"))
    /\ new !! "type" = old !! "type"
    /\ (strict_eq_str (prop old "type") "want" = true -> prop new "currentPrice" = JNum price).
Proof.
  intros Hinit Hbackend Hold.
  rewrite addPriceHistory_run by assumption. rewrite Hold.
  eexists. eexists. split; [reflexivity|].
  split; [exact Hinit|]. split; [exact Hbackend|].
  split; [cbn [set_docs clock log_call tick]; lia|].
  split; [apply lookup_insert_eq|].
  assert (Hhistory :
    forall updates : obj,
      updates !! "priceHistory"
      = Some (VArr (or_nil (prop old "priceHistory")
                    ++ [price_entry price (toISOString (clock w)) website])) ->
      prop (<["updatedAt" := VStr (toISOString (S (clock w)))]> updates ∪ old) "priceHistory"
      = JArr (or_nil (prop old "priceHistory")
              ++ [price_entry price (toISOString (clock w)) website])).
  { intros updates Hupdates. unfold prop.
    by rewrite merged_lookup, decide_False, Hupdates by discriminate. }
  assert (Htype :
    forall updates : obj,
      updates !! "type" = None ->
      (<["updatedAt" := VStr (toISOString (S (clock w)))]> updates ∪ old) !! "type"
      = old !! "type").
  { intros updates Hupdates.
    by rewrite merged_lookup, decide_False, Hupdates by discriminate. }
  destruct (strict_eq_str (prop old "type") "want").
  - rewrite Hhistory
      by (by rewrite lookup_insert_ne, lookup_singleton_eq by discriminate).
    split; [reflexivity|]. split; [reflexivity|]. split.
    + apply Htype. by rewrite lookup_insert_ne, lookup_singleton_ne by discriminate.
    + intros _. unfold prop.
      by rewrite merged_lookup, decide_False, lookup_insert_eq by discriminate.
  - rewrite Hhistory by apply lookup_singleton_eq.
    split; [reflexivity|]. split; [reflexivity|]. split.
    + apply Htype. by rewrite lookup_singleton_ne by discriminate.
    + discriminate.
Qed.

(** Two prices added one after the other are both kept, in the order of
    the calls, after the entries the product already had; a wanted product
    ends with the later price as its current price. *)
Theorem addPriceHistory_twice_appends_in_order productId p1 s1 p2 s2 w old :
  initialized w = true -> backend w = None ->
  products w !! productId = Some old ->
  exists new,
    ((addPriceHistory productId p1 s1;; addPriceHistory productId p2 s2) w).1 = Returned tt
    /\ products ((addPriceHistory productId p1 s1;; addPriceHistory productId p2 s2) w).2
       !! productId = Some new
    /\ prop new "priceHistory"
       = JArr (or_nil (prop old "priceHistory")
               ++ [price_entry p1 (toISOString (clock w)) s1;
                   price_entry p2 (toISOString (clock w + 2)) s2])
    /\ (strict_eq_str (prop old "type") "want" = true -> prop new "currentPrice" = JNum p2)
    /\ new !! "type" = old !! "type".
Proof.
  intros Hinit Hbackend Hold.
  destruct (addPriceHistory_step productId p1 s1 w old Hinit Hbackend Hold)
    as (mid & w1 & Hrun1 & Hinit1 & Hbackend1 & Hclock1 & Hmid & Hhistory1 & _ & Htype1 & _).
  destruct (addPriceHistory_step productId p2 s2 w1 mid Hinit1 Hbackend1 Hmid)
    as (new & w2 & Hrun2 & _ & _ & _ & Hnew & Hhistory2 & Harray2 & Htype2 & Hwant2).
  unfold bind. rewrite Hrun1, Hrun2. cbn [fst snd].
  exists new. split; [reflexivity|]. split; [exact Hnew|]. split; [|split].
  - rewrite Harray2, Hhistory2, Hhistory1, Hclock1, <- app_assoc. reflexivity.
  - intros Hwant. apply Hwant2. unfold prop in *. by rewrite Htype1.
  - by rewrite Htype2.
Qed.

End ProductLifecycle.

(** Deleting the one product of [products_world]. *)
Lemma deleteProduct_then_getProduct_witness :
  "prod-1" <> "" /\ initialized products_world = true /\ backend products_world = None
  /\ exists w',
       ProductService_deleteProduct "prod-1" products_world = (Returned tt, w')
       /\ products w' = ∅
       /\ (ProductService_getProduct "prod-1" w').1 = Returned None.
Proof.
  split; [discriminate|]. split; [reflexivity|]. split; [reflexivity|].
  destruct (deleteProduct_then_getProduct "prod-1" products_world)
    as (w' & Hrun & Hproducts & _ & Hgone & _); [discriminate | reflexivity | reflexivity |].
  exists w'. split; [exact Hrun|]. split; [|exact Hgone].
  rewrite Hproducts. cbn [products_world products]. apply delete_singleton_eq.
Defined.

(** Updating a product the store does not hold. *)
Lemma updateProduct_never_creates_witness :
  products products_world !! "prod-9" = None
  /\ products (ProductService_updateProduct (H := sample_platform)
                 "prod-9" {[ "name" := VStr "iPad" ]} products_world).2
     = products products_world.
Proof.
  split; [reflexivity|].
  destruct (updateProduct_never_creates (H := sample_platform) "prod-9" products_world)
    as [Hupdate _]; [reflexivity|].
  apply Hupdate.
Defined.

(** A price added, without a store name, to the wanted iPad that has one
    price on record. *)
Lemma ProductService_addPriceHistory_then_getProduct_witness :
  ProductService_addPriceHistory (H := sample_platform)
    "prod-1" (Fin 1199) "2019-05-01" None None tracked_world
  = (Returned tt,
     (ProductService_addPriceHistory (H := sample_platform)
        "prod-1" (Fin 1199) "2019-05-01" None None tracked_world).2)
  /\ exists found,
       (ProductService_getProduct "prod-1"
          (ProductService_addPriceHistory (H := sample_platform)
             "prod-1" (Fin 1199) "2019-05-01" None None tracked_world).2).1
       = Returned (Some found)
       /\ prop found "priceHistory"
          = JArr [amazon_entry;
                  price_entry (Fin 1199) "2024-01-15T10:30:00.001Z" "Unknown Store"].
Proof.
  split; [vm_compute; reflexivity|].
  destruct (ProductService_addPriceHistory_then_getProduct (H := sample_platform)
              "prod-1" (Fin 1199) "2019-05-01" None None tracked_world
              (ProductService_addPriceHistory (H := sample_platform)
                 "prod-1" (Fin 1199) "2019-05-01" None None tracked_world).2)
    as (_ & old & found & Hold & Hret & Hhistory & _); [vm_compute; reflexivity|].
  exists found. split; [exact Hret|].
  cbn [tracked_world products] in Hold. rewrite lookup_singleton_eq in Hold.
  injection Hold as <-.
  apply (Hhistory [amazon_entry] "Unknown Store"); [left; reflexivity | right; by split; [left|]].
Defined.

(** Two prices added to the wanted iPad. *)
Lemma addPriceHistory_twice_appends_in_order_witness :
  initialized products_world = true /\ backend products_world = None
  /\ exists new,
       products ((addPriceHistory (H := sample_platform) "prod-1" (Fin 1199) "Amazon";;
                  addPriceHistory (H := sample_platform) "prod-1" (Fin 1149) "Currys")
                   products_world).2 !! "prod-1" = Some new
       /\ prop new "priceHistory"
          = JArr [price_entry (Fin 1199) "2024-01-15T10:30:00.001Z" "Amazon";
                  price_entry (Fin 1149) "2024-01-15T10:30:00.003Z" "Currys"]
       /\ prop new "currentPrice" = JNum (Fin 1149).
Proof.
  split; [reflexivity|]. split; [reflexivity|].
  destruct (addPriceHistory_twice_appends_in_order (H := sample_platform)
              "prod-1" (Fin 1199) "Amazon" (Fin 1149) "Currys" products_world
              (<["updatedAt" := VStr "2024-01-15T10:30:00.000Z"]>
                 (<["createdAt" := VStr "2024-01-15T10:30:00.000Z"]> ipad_want)))
    as (new & _ & Hnew & Hhistory & Hcurrent & _);
    [reflexivity | reflexivity | reflexivity |].
  exists new. split; [exact Hnew|]. split; [exact Hhistory|]. by apply Hcurrent.
Defined.

(** * The receipt store *)

Section ReceiptStore.
Context `{Platform}.

Ltac run := unfold bind, ret, throw, try_catch, check_initialized, request, get_world, now.

(** [d.receiptDate || ""] is the date the receipt carries. *)
Lemma receiptDate_read d : or_empty (prop d "receiptDate") = receiptDate d.
Proof.
  unfold receiptDate, prop.
  by destruct (d !! "receiptDate") as [[[| | |]| | |]|].
Qed.

Lemma by_receiptDate_later_or_same a b : by_receiptDate a b <> Gt <-> later_or_same a b.
Proof.
  unfold by_receiptDate, later_or_same. rewrite !receiptDate_read.
  destruct (String.eqb_spec (receiptDate a) "") as [Ea|Ea];
    destruct (String.eqb_spec (receiptDate b) "") as [Eb|Eb]; cbn.
  - split; [by left | done].
  - split; [done | intros [?|[? _]]; congruence].
  - split; [by left | done].
  - split; [by right | intros [?|[_ ?]]; congruence].
Qed.

Lemma by_receiptDate_total a b :
  PlatformLaws H -> by_receiptDate a b = Gt -> by_receiptDate b a <> Gt.
Proof.
  intros Laws. unfold by_receiptDate.
  destruct (String.eqb (or_empty (prop a "receiptDate")) "");
    destruct (String.eqb (or_empty (prop b "receiptDate")) ""); cbn; try congruence.
  rewrite (localeCompare_antisym (or_empty (prop a "receiptDate"))).
  destruct (localeCompare _ _); cbn; congruence.
Qed.

Lemma by_receiptDate_trans a b c :
  PlatformLaws H ->
  by_receiptDate a b <> Gt -> by_receiptDate b c <> Gt -> by_receiptDate a c <> Gt.
Proof.
  intros Laws. rewrite !by_receiptDate_later_or_same. unfold later_or_same.
  intros [Hb|[Ha Hba]] [Hc|[Hb' Hcb]].
  - by left.
  - congruence.
  - by left.
  - right. split; [assumption|]. by eapply localeCompare_trans.
Qed.

(** [getReceipts] swallows a failure of the store only when its code is
    "failed-precondition" or "unavailable", and then returns the empty list;
    any other failure, an uninitialized store included, is thrown on as it
    is (where [getProducts] returns the empty list for every failure).  On a
    working store it returns exactly the receipts of the user, each with its
    document id, latest receipt date first and receipts without a date last.
    It never changes the store. *)
Theorem getReceipts_lenient_for_two_codes userId w :
  PlatformLaws H ->
  (initialized w = false -> (getReceipts userId w).1 = Thrown not_initialized)
  /\ (initialized w = true -> forall e, backend w = Some e ->
      (getReceipts userId w).1
      = if has_code e "failed-precondition" || has_code e "unavailable"
        then Returned [] else Thrown e)
  /\ (initialized w = true -> backend w = None ->
      exists l,
        (getReceipts userId w).1 = Returned l
        /\ StronglySorted later_or_same l
        /\ l ≡ₚ map (fun d => with_id d.1 d.2)
                  (filter (fun d => d.2 !! "userId" = Some (VStr userId))
                     (map_to_list (receipts w)))
        /\ Forall (fun r => prop r "userId" = JStr userId) l)
  /\ products (getReceipts userId w).2 = products w
  /\ receipts (getReceipts userId w).2 = receipts w.
Proof.
  intros Laws. unfold getReceipts, getDocs. run.
  split; [|split; [|split]].
  - by intros ->.
  - intros -> e ->. cbn. by destruct (_ || _).
  - intros -> ->. cbn [log_call backend docs receipts].
    eexists. split; [reflexivity|].
    assert (Hfilter :
      filter (fun d : string * obj => matches [WhereEq "userId" (VStr userId)] d.2 = true)
        (map_to_list (receipts w))
      = filter (fun d => d.2 !! "userId" = Some (VStr userId)) (map_to_list (receipts w))).
    { apply list_filter_iff. intros [id d]. unfold matches. cbn.
      rewrite andb_true_r. apply bool_decide_eq_true. }
    rewrite Hfilter. split; [|split].
    + eapply StronglySorted_weaken; [| apply sort_by_sorted].
      * intros a b. apply by_receiptDate_later_or_same.
      * intros a b. by apply by_receiptDate_total.
      * intros a b c. by apply by_receiptDate_trans.
    + apply sort_by_Permutation.
    + rewrite sort_by_Permutation. apply Forall_fmap, Forall_forall.
      intros [id d] Hd. apply list_elem_of_filter in Hd as [Huser _].
      unfold compose. cbn [fst snd] in *.
      rewrite prop_with_id by discriminate. unfold prop. by rewrite Huser.
  - destruct (initialized w); [|by cbn].
    destruct (backend w) as [e|]; [|by cbn].
    cbn. by destruct (_ || _).
Qed.

Lemma getReceipt_run receiptId w :
  initialized w = true -> backend w = None ->
  getReceipt receiptId w
  = (Returned (with_id receiptId <$> receipts w !! receiptId),
     log_call (GetDoc RECEIPTS_COLLECTION receiptId) w).
Proof.
  intros Hinit Hbackend. unfold getReceipt, getDoc. run.
  rewrite Hinit, Hbackend. cbn [docs log_call receipts].
  by destruct (receipts w !! receiptId).
Qed.

Lemma ReceiptService_getReceipt_run receiptId w :
  receiptId <> "" -> initialized w = true -> backend w = None ->
  (ReceiptService_getReceipt receiptId w).1
  = Returned (with_id receiptId <$> receipts w !! receiptId).
Proof.
  intros Hid Hinit Hbackend. unfold ReceiptService_getReceipt.
  assert (missing receiptId = false) as -> by (by apply String.eqb_neq).
  apply try_catch_rethrow_returned. by rewrite getReceipt_run.
Qed.

Lemma createReceipt_run receipt w :
  initialized w = true -> backend w = None ->
  createReceipt receipt w
  = let data := <["updatedAt" := VStr (toISOString (clock w))]>
                  (<["createdAt" := VStr (toISOString (clock w))]> receipt) in
    if has_undefined data then (Thrown (invalid_data "addDoc"), tick w)
    else
      (Returned (fresh (dom (receipts w))),
       set_docs RECEIPTS_COLLECTION (<[fresh (dom (receipts w)) := data]> (receipts w))
         (log_call (AddDoc RECEIPTS_COLLECTION data) (tick w))).
Proof.
  intros Hinit Hbackend. unfold createReceipt, addDoc. run.
  rewrite Hinit. cbn zeta. destruct (has_undefined _); [reflexivity|].
  cbn [tick backend clock]. rewrite Hbackend. reflexivity.
Qed.

(** [ReceiptService.createReceipt] on a payload that fails validation throws
    one error whose message is "Validation failed: " followed by all the
    validator's errors, separated by ", ", and leaves the world as it was.
    On a payload that passes and has no undefined property, with a working
    store, it stores the payload with the reading of the clock at the call
    as [createdAt] and [updatedAt] under an id no receipt had and that is
    not empty, touches no product, and [ReceiptService.getReceipt] on that
    id then returns the stored receipt with the id merged in.  A payload
    that passes but has an undefined property (the receipt dialog sends
    [receiptImage: undefined] when no image was chosen) is refused by the
    store: the call throws "Failed to create receipt: ..." and persists
    nothing. *)
Theorem createReceipt_validates_then_stores receiptData w :
  (valid (validateReceipt receiptData) = false ->
   ReceiptService_createReceipt receiptData w
   = (Thrown (Error ("Validation failed: "
                      ++ comma_separated (errors (validateReceipt receiptData)))), w))
  /\ (valid (validateReceipt receiptData) = true ->
      initialized w = true -> backend w = None ->
      (forall k, receiptData !! k <> Some VUndefined) ->
      exists id w' stored,
        ReceiptService_createReceipt receiptData w = (Returned id, w')
        /\ id <> ""
        /\ receipts w !! id = None
        /\ receipts w' = <[id := stored]> (receipts w)
        /\ products w' = products w
        /\ stored = <["updatedAt" := VStr (toISOString (clock w))]>
                      (<["createdAt" := VStr (toISOString (clock w))]> receiptData)
        /\ (ReceiptService_getReceipt id w').1 = Returned (Some (with_id id stored)))
  /\ (valid (validateReceipt receiptData) = true ->
      initialized w = true ->
      forall k, k <> "createdAt" -> k <> "updatedAt" ->
      receiptData !! k = Some VUndefined ->
      exists reason,
        (ReceiptService_createReceipt receiptData w).1
        = Thrown (Error ("Failed to create receipt: " ++ reason))
        /\ products (ReceiptService_createReceipt receiptData w).2 = products w
        /\ receipts (ReceiptService_createReceipt receiptData w).2 = receipts w).
Proof.
  split; [|split].
  - intros Hinvalid. unfold ReceiptService_createReceipt.
    by rewrite Hinvalid, comma_separated_join.
  - intros Hvalid Hinit Hbackend Hclean.
    assert (has_undefined (<["updatedAt" := VStr (toISOString (clock w))]>
                             (<["createdAt" := VStr (toISOString (clock w))]> receiptData))
            = false) as Hdata.
    { apply no_undefined_spec. by do 2 (apply no_undefined_insert; [discriminate|]). }
    exists (fresh (dom (receipts w))). eexists. eexists. split.
    { unfold ReceiptService_createReceipt. rewrite Hvalid. cbn [negb].
      unfold try_catch. rewrite createReceipt_run by assumption. cbn zeta.
      rewrite Hdata. reflexivity. }
    split; [apply fresh_id_nonempty|].
    split; [apply not_elem_of_dom, is_fresh|].
    split; [reflexivity|]. split; [reflexivity|]. split; [reflexivity|].
    rewrite ReceiptService_getReceipt_run by (assumption || apply fresh_id_nonempty).
    cbn [set_docs receipts log_call tick]. by rewrite lookup_insert_eq.
  - intros Hvalid Hinit k Hcreated Hupdated Hk.
    assert (has_undefined (<["updatedAt" := VStr (toISOString (clock w))]>
                             (<["createdAt" := VStr (toISOString (clock w))]> receiptData))
            = true) as Hdata.
    { apply has_undefined_spec. exists k. by rewrite !lookup_insert_ne. }
    unfold ReceiptService_createReceipt. rewrite Hvalid. cbn [negb].
    unfold createReceipt, addDoc. run. rewrite Hinit. cbn zeta. rewrite Hdata. cbn.
    eexists. repeat split.
Qed.

Lemma updateReceipt_run receiptId updates w :
  initialized w = true -> backend w = None ->
  updateReceipt receiptId updates w
  = let data := <["updatedAt" := VStr (toISOString (clock w))]> updates in
    let w1 := log_call (UpdateDoc RECEIPTS_COLLECTION receiptId data) (tick w) in
    if has_undefined data then (Thrown (invalid_data "updateDoc"), tick w)
    else
      match receipts w !! receiptId with
      | Some old =>
          (Returned tt,
           set_docs RECEIPTS_COLLECTION (<[receiptId := data ∪ old]> (receipts w)) w1)
      | None =>
          (Thrown {| code := Some "not-found";
                     message := "No document to update: " ++ receiptId |}, w1)
      end.
Proof.
  intros Hinit Hbackend. unfold updateReceipt, updateDoc. run.
  rewrite Hinit. cbn zeta. destruct (has_undefined _); [reflexivity|].
  cbn [tick backend]. rewrite Hbackend.
  cbn [docs log_call receipts tick]. by destruct (receipts w !! receiptId).
Qed.

(** A successful [ReceiptService.updateReceipt] is seen by
    [ReceiptService.getReceipt]: the receipt existed, and it now reads with
    every field of the payload as given, [updatedAt] as the time of the
    call, and every other field as it was; other receipts and all products
    are as they were. *)
Theorem updateReceipt_then_getReceipt receiptId updates w w' :
  ReceiptService_updateReceipt receiptId updates w = (Returned tt, w') ->
  exists old found,
    receipts w !! receiptId = Some old
    /\ (ReceiptService_getReceipt receiptId w').1 = Returned (Some found)
    /\ (forall k v, updates !! k = Some v -> k <> "updatedAt" -> found !! k = Some v)
    /\ found !! "updatedAt" = Some (VStr (toISOString (clock w)))
    /\ (forall k, updates !! k = None -> k <> "updatedAt" -> k <> "id" ->
          found !! k = old !! k)
    /\ (forall other, other <> receiptId -> receipts w' !! other = receipts w !! other)
    /\ products w' = products w.
Proof.
  unfold ReceiptService_updateReceipt.
  destruct (String.eqb_spec receiptId "") as [->|Hid];
    [unfold missing; cbn; discriminate|].
  assert (missing receiptId = false) as -> by (by apply String.eqb_neq).
  destruct (valid (validateReceiptUpdate updates)); cbn [negb]; [|discriminate].
  destruct (initialized w) eqn:Hinit; [destruct (backend w) eqn:Hbackend|].
  - unfold updateReceipt, updateDoc. run. rewrite Hinit.
    destruct (has_undefined _); [discriminate|]. cbn [tick backend].
    rewrite Hbackend. discriminate.
  - unfold try_catch, throw. rewrite updateReceipt_run by assumption. cbn zeta.
    destruct (has_undefined _); [discriminate|].
    destruct (receipts w !! receiptId) as [old|] eqn:Hold; [|discriminate].
    intros [= <-]. eexists old, _. split; [reflexivity|]. split.
    { rewrite ReceiptService_getReceipt_run by assumption.
      cbn [set_docs receipts log_call tick]. by rewrite lookup_insert_eq. }
    split; [|split; [|split; [|split]]].
    + intros k v Hk Hne. unfold with_id.
      rewrite lookup_union, merged_lookup, Hk. rewrite decide_False by done.
      by destruct (({["id" := VStr receiptId]} : obj) !! k).
    + unfold with_id. rewrite lookup_union, merged_lookup. rewrite decide_True by done.
      by rewrite lookup_singleton_ne.
    + intros k Hk Hne Hid'. unfold with_id.
      rewrite lookup_union, merged_lookup, Hk. rewrite decide_False by done.
      rewrite lookup_singleton_ne by congruence. by destruct (old !! k).
    + intros other Hother. cbn [set_docs receipts log_call tick].
      by rewrite lookup_insert_ne.
    + reflexivity.
  - unfold updateReceipt. run. rewrite Hinit. discriminate.
Qed.

Lemma deleteReceipt_run receiptId w :
  initialized w = true -> backend w = None ->
  deleteReceipt receiptId w
  = (Returned tt,
     set_docs RECEIPTS_COLLECTION (delete receiptId (receipts w))
       (log_call (DeleteDoc RECEIPTS_COLLECTION receiptId) w)).
Proof.
  intros Hinit Hbackend. unfold deleteReceipt, deleteDoc. run.
  by rewrite Hinit, Hbackend.
Qed.

(** On a working store [ReceiptService.deleteReceipt] succeeds whether or
    not the receipt exists; afterwards [ReceiptService.getReceipt] returns
    null for it, every other receipt reads as before, and the products are
    as they were (the products a receipt names are not deleted with it). *)
Theorem deleteReceipt_then_getReceipt receiptId w :
  receiptId <> "" -> initialized w = true -> backend w = None ->
  exists w',
    ReceiptService_deleteReceipt receiptId w = (Returned tt, w')
    /\ receipts w' = delete receiptId (receipts w)
    /\ products w' = products w
    /\ (ReceiptService_getReceipt receiptId w').1 = Returned None
    /\ (forall other, other <> receiptId ->
          (ReceiptService_getReceipt other w').1 = (ReceiptService_getReceipt other w).1).
Proof.
  intros Hid Hinit Hbackend. eexists. split.
  { unfold ReceiptService_deleteReceipt.
    assert (missing receiptId = false) as -> by (by apply String.eqb_neq).
    unfold try_catch. rewrite deleteReceipt_run by assumption. reflexivity. }
  split; [reflexivity|]. split; [reflexivity|]. split.
  - rewrite ReceiptService_getReceipt_run by assumption.
    cbn [set_docs receipts log_call]. by rewrite lookup_delete_eq.
  - intros other Hother. destruct (String.eqb_spec other "") as [->|Hne]; [reflexivity|].
    rewrite !ReceiptService_getReceipt_run by assumption.
    cbn [set_docs receipts log_call]. by rewrite lookup_delete_ne.
Qed.

End ReceiptStore.

(** The later receipt of "user-1" comes first, and the receipt of "user-2"
    is not listed. *)
Example getReceipts_latest_first :
  map receiptDate (match (getReceipts (H := sample_platform) "user-1" two_receipts_world).1 with
                   | Returned l => l
                   | Thrown _ => []
                   end)
  = ["2024-03-02"; "2024-01-15"].
Proof. vm_compute. reflexivity. Qed.

(** Listing receipts from a store that is unavailable, and from one that
    holds two receipts of the user. *)
Lemma getReceipts_lenient_for_two_codes_witness :
  (getReceipts (H := sample_platform) "user-1" unavailable_world).1 = Returned []
  /\ exists l,
       (getReceipts (H := sample_platform) "user-1" two_receipts_world).1 = Returned l
       /\ StronglySorted (later_or_same (H := sample_platform)) l
       /\ Forall (fun r => prop r "userId" = JStr "user-1") l
       /\ map receiptDate l = ["2024-03-02"; "2024-01-15"].
Proof.
  split.
  - destruct (getReceipts_lenient_for_two_codes (H := sample_platform)
                "user-1" unavailable_world sample_platform_laws) as (_ & Hfail & _).
    exact (Hfail eq_refl _ eq_refl).
  - destruct (getReceipts_lenient_for_two_codes (H := sample_platform)
                "user-1" two_receipts_world sample_platform_laws) as (_ & _ & Hworks & _).
    destruct (Hworks eq_refl eq_refl) as (l & Hret & Hsorted & _ & Hscope).
    exists l. split; [exact Hret|]. split; [exact Hsorted|]. split; [exact Hscope|].
    pose proof getReceipts_latest_first as Horder. by rewrite Hret in Horder.
Defined.

(** Storing [apple_receipt] in an empty store, and the same receipt as the
    dialog sends it when no image was chosen. *)
Lemma createReceipt_validates_then_stores_witness :
  valid (validateReceipt (H := sample_platform) apple_receipt) = true
  /\ has_undefined apple_receipt = false
  /\ (exists id w' stored,
        ReceiptService_createReceipt (H := sample_platform) apple_receipt empty_world
        = (Returned id, w')
        /\ (ReceiptService_getReceipt id w').1 = Returned (Some (with_id id stored))
        /\ stored !! "storeName" = Some (VStr "Apple Store"))
  /\ valid (validateReceipt (H := sample_platform)
              (<["receiptImage" := VUndefined]> apple_receipt)) = true
  /\ exists reason,
       (ReceiptService_createReceipt (H := sample_platform)
          (<["receiptImage" := VUndefined]> apple_receipt) empty_world).1
       = Thrown (Error ("Failed to create receipt: " ++ reason))
       /\ receipts (ReceiptService_createReceipt (H := sample_platform)
                      (<["receiptImage" := VUndefined]> apple_receipt) empty_world).2 = ∅.
Proof.
  split; [reflexivity|]. split; [reflexivity|]. split.
  - destruct (createReceipt_validates_then_stores (H := sample_platform)
                apple_receipt empty_world) as (_ & Hvalid & _).
    destruct Hvalid as (id & w' & stored & Hrun & _ & _ & _ & _ & Hstored & Hget);
      [reflexivity | reflexivity | reflexivity | by apply no_undefined_spec |].
    exists id, w', stored. split; [exact Hrun|]. split; [exact Hget|].
    rewrite Hstored. reflexivity.
  - split; [reflexivity|].
    destruct (createReceipt_validates_then_stores (H := sample_platform)
                (<["receiptImage" := VUndefined]> apple_receipt) empty_world)
      as (_ & _ & Hrefused).
    destruct (Hrefused eq_refl eq_refl "receiptImage") as (reason & Hthrown & _ & Hreceipts);
      [discriminate | discriminate | reflexivity |].
    exists reason. split; [exact Hthrown | exact Hreceipts].
Defined.


(** Renaming the store of the receipt of [receipts_world]. *)
Lemma updateReceipt_then_getReceipt_witness :
  ReceiptService_updateReceipt (H := sample_platform)
    "rcpt-1" {[ "storeName" := VStr "Apple Regent Street" ]} receipts_world
  = (Returned tt,
     (ReceiptService_updateReceipt (H := sample_platform)
        "rcpt-1" {[ "storeName" := VStr "Apple Regent Street" ]} receipts_world).2)
  /\ exists found,
       (ReceiptService_getReceipt "rcpt-1"
          (ReceiptService_updateReceipt (H := sample_platform)
             "rcpt-1" {[ "storeName" := VStr "Apple Regent Street" ]} receipts_world).2).1
       = Returned (Some found)
       /\ found !! "storeName" = Some (VStr "Apple Regent Street")
       /\ found !! "receiptNumber" = Some (VStr "RCPT-2024-001").
Proof.
  split; [reflexivity|].
  destruct (updateReceipt_then_getReceipt (H := sample_platform)
              "rcpt-1" {[ "storeName" := VStr "Apple Regent Street" ]} receipts_world
              (ReceiptService_updateReceipt (H := sample_platform)
                 "rcpt-1" {[ "storeName" := VStr "Apple Regent Street" ]} receipts_world).2)
    as (old & found & Hold & Hret & Hnew & _ & Hkept & _); [reflexivity|].
  exists found. split; [exact Hret|]. split.
  - by apply Hnew.
  - rewrite Hkept by done.
    cbn [receipts_world receipts] in Hold. rewrite lookup_singleton_eq in Hold.
    by injection Hold as <-.
Defined.


(** Deleting the receipt of [receipts_world]. *)
Lemma deleteReceipt_then_getReceipt_witness :
  "rcpt-1" <> "" /\ initialized receipts_world = true /\ backend receipts_world = None
  /\ exists w',
       ReceiptService_deleteReceipt "rcpt-1" receipts_world = (Returned tt, w')
       /\ receipts w' = ∅
       /\ (ReceiptService_getReceipt "rcpt-1" w').1 = Returned None.
Proof.
  split; [discriminate|]. split; [reflexivity|]. split; [reflexivity|].
  destruct (deleteReceipt_then_getReceipt "rcpt-1" receipts_world)
    as (w' & Hrun & Hreceipts & _ & Hgone & _); [discriminate | reflexivity | reflexivity |].
  exists w'. split; [exact Hrun|]. split; [|exact Hgone].
  rewrite Hreceipts. cbn [receipts_world receipts]. apply delete_singleton_eq.
Defined.

(** * Strings, by their characters *)

Lemma string_app_cons a s t : String a s ++ t = String a (s ++ t).
Proof. reflexivity. Qed.

Lemma string_app_nil_l s : "" ++ s = s.
Proof. reflexivity. Qed.

Lemma string_app_nil_r s : s ++ "" = s.
Proof. induction s as [|a s IH]; [reflexivity|]. by rewrite string_app_cons, IH. Qed.

Lemma string_app_assoc s t u : (s ++ t) ++ u = s ++ t ++ u.
Proof.
  induction s as [|a s IH]; [reflexivity|]. by rewrite !string_app_cons, IH.
Qed.

Lemma chars_app s t :
  list_ascii_of_string (s ++ t) = (list_ascii_of_string s ++ list_ascii_of_string t)%list.
Proof.
  induction s as [|a s IH]; [reflexivity|]. rewrite string_app_cons. cbn. by rewrite IH.
Qed.

Lemma chars_inj s t : list_ascii_of_string s = list_ascii_of_string t -> s = t.
Proof.
  intros E. by rewrite <- (string_of_list_ascii_of_string s), E, string_of_list_ascii_of_string.
Qed.

Lemma string_length_app s t : String.length (s ++ t) = String.length s + String.length t.
Proof. induction s as [|a s IH]; [reflexivity|]. rewrite string_app_cons. cbn. by rewrite IH. Qed.

(** ** Searching *)

Lemma prefix_spec p s : String.prefix p s = true <-> exists rest, s = p ++ rest.
Proof.
  revert s. induction p as [|a p IH]; intros s.
  - split; [intros _; by exists s | by destruct s].
  - destruct s as [|b s]; cbn.
    + split; [discriminate | intros [rest [=]]].
    + destruct (Ascii.ascii_dec a b) as [->|Hne].
      * rewrite IH. split; intros [rest E]; exists rest.
        -- by rewrite string_app_cons, E.
        -- rewrite string_app_cons in E. by injection E.
      * split; [discriminate|]. intros [rest E]. rewrite string_app_cons in E.
        injection E as E _. congruence.
Qed.

Lemma anywhere_spec (P : string -> bool) s :
  anywhere P s = true <-> exists before rest, s = before ++ rest /\ P rest = true.
Proof.
  induction s as [|a s IH]; cbn.
  - rewrite orb_false_r. split.
    + intros HP. by exists "", "".
    + intros (before & rest & E & HP). destruct before; [|discriminate].
      rewrite string_app_nil_l in E. by subst rest.
  - rewrite orb_true_iff, IH. split.
    + intros [HP|(before & rest & -> & HP)].
      * by exists "", (String a s).
      * exists (String a before), rest. by rewrite string_app_cons.
    + intros (before & rest & E & HP). destruct before as [|b before].
      * left. rewrite string_app_nil_l in E. by subst rest.
      * right. rewrite string_app_cons in E. injection E as -> ->. eauto.
Qed.

Lemma includes_spec s sub :
  includes s sub = true <-> exists before rest, s = before ++ sub ++ rest.
Proof.
  unfold includes. rewrite anywhere_spec. split.
  - intros (before & t & -> & [rest ->]%prefix_spec). eauto.
  - intros (before & rest & ->). exists before, (sub ++ rest). split; [reflexivity|].
    apply prefix_spec. eauto.
Qed.

(** ** Letters in either case *)

Lemma lower_agree a p :
  nat_of_ascii p < 128 -> Ascii.eqb (lower p) (lower a) = letters_agree a p.
Proof.
  intros Hp.
  assert (forallb (fun m =>
            forallb (fun n =>
              Bool.eqb (Ascii.eqb (lower (ascii_of_nat n)) (lower (ascii_of_nat m)))
                       (letters_agree (ascii_of_nat m) (ascii_of_nat n)))
              (seq 0 128)) (seq 0 256) = true) as Hall by (vm_compute; reflexivity).
  rewrite forallb_forall in Hall.
  specialize (Hall (nat_of_ascii a)). rewrite forallb_forall in Hall.
  specialize (Hall ltac:(apply in_seq; pose proof (nat_ascii_bounded a); lia) (nat_of_ascii p)
                   ltac:(apply in_seq; lia)).
  rewrite !ascii_nat_embedding in Hall. by apply Bool.eqb_prop in Hall.
Qed.

Lemma toLowerCase_agree s pattern :
  plain pattern -> toLowerCase s = pattern <-> agree_ignoring_case s pattern.
Proof.
  unfold plain, agree_ignoring_case, toLowerCase.
  revert s. induction pattern as [|p pattern IH]; intros s Hplain.
  - destruct s as [|a s]; cbn.
    + split; [constructor | reflexivity].
    + split; [discriminate | by inversion 1].
  - cbn in Hplain. apply Forall_cons in Hplain as [[Hp Hfixed] Hplain].
    destruct s as [|a s]; cbn; [split; [discriminate | by inversion 1]|].
    split.
    + intros [= Ha Hs]. constructor; [|by apply IH].
      rewrite <- lower_agree by done. rewrite Hfixed, Ha. apply Ascii.eqb_refl.
    + inversion 1 as [|? ? ? ? Ha Hs]; subst. f_equal; [|by apply IH].
      rewrite <- lower_agree in Ha by done. rewrite Hfixed in Ha.
      by apply Ascii.eqb_eq in Ha.
Qed.

Lemma map_chars_app f s t : map_chars f (s ++ t) = map_chars f s ++ map_chars f t.
Proof.
  induction s as [|a s IH]; [reflexivity|]. rewrite string_app_cons. cbn.
  by rewrite IH.
Qed.

Lemma map_chars_split f s a b :
  map_chars f s = a ++ b ->
  exists s1 s2, s = s1 ++ s2 /\ map_chars f s1 = a /\ map_chars f s2 = b.
Proof.
  revert s. induction a as [|c a IH]; intros s E.
  - exists "", s. by rewrite !string_app_nil_l in *.
  - rewrite string_app_cons in E. destruct s as [|d s]; [discriminate|].
    cbn in E. injection E as Hd E. destruct (IH _ E) as (s1 & s2 & -> & <- & <-).
    exists (String d s1), s2. rewrite string_app_cons. cbn. by rewrite Hd.
Qed.

Lemma map_chars_map f s :
  map_chars f s = string_of_list_ascii (map f (list_ascii_of_string s)).
Proof. induction s as [|a s IH]; [reflexivity|]. cbn. by rewrite IH. Qed.

Lemma hyphens_to_spaces_spaced s : hyphens_to_spaces s = spaced s.
Proof. apply map_chars_map. Qed.

(** The lowered host name holds the pattern exactly when the host name
    holds it in some case. *)
Lemma includes_toLowerCase host pattern :
  plain pattern ->
  includes (toLowerCase host) pattern = true <-> occurs_ignoring_case pattern host.
Proof.
  intros Hplain. rewrite includes_spec. unfold occurs_ignoring_case, toLowerCase. split.
  - intros (before & rest & E).
    apply map_chars_split in E as (h1 & h23 & -> & _ & E).
    apply map_chars_split in E as (h2 & h3 & -> & E & _).
    exists h1, h2, h3. split; [reflexivity|]. by apply toLowerCase_agree.
  - intros (before & there & rest & -> & Hagree).
    apply toLowerCase_agree in Hagree; [|done]. unfold toLowerCase in Hagree.
    exists (map_chars lower before), (map_chars lower rest).
    by rewrite !map_chars_app, Hagree.
Qed.

Lemma after_ignoring_case_spec lead t rest :
  plain lead ->
  after_ignoring_case lead t = Some rest
  <-> exists there, t = there ++ rest /\ agree_ignoring_case there lead.
Proof.
  unfold plain, agree_ignoring_case.
  revert t. induction lead as [|p lead IH]; intros t Hplain; cbn.
  - split.
    + intros [= ->]. exists "". split; [reflexivity | constructor].
    + intros (there & -> & Hagree). destruct there; [reflexivity | inversion Hagree].
  - apply Forall_cons in Hplain as [[Hp _] Hplain].
    destruct t as [|a t].
    + split; [discriminate|]. intros (there & E & Hagree).
      destruct there; [inversion Hagree | discriminate].
    + rewrite lower_agree by done. split.
      * destruct (letters_agree a p) eqn:Ha; [|discriminate].
        intros (there & -> & Hagree)%IH; [|done].
        exists (String a there). split; [reflexivity | by constructor].
      * intros (there & E & Hagree). destruct there as [|b there]; [inversion Hagree|].
        rewrite string_app_cons in E. injection E as <- ->.
        cbn in Hagree. inversion Hagree as [|? ? ? ? Ha Hrest]; subst.
        rewrite Ha. apply IH; [done|]. by exists there.
Qed.

Lemma is_alnum_spec c : is_alnum c = true <-> alphanumeric c.
Proof.
  unfold is_alnum, alphanumeric. cbv zeta.
  rewrite !orb_true_iff, !andb_true_iff, !Nat.leb_le. tauto.
Qed.

Lemma alnum_run_spec n s :
  alnum_run n s = true
  <-> exists code rest,
        s = code ++ rest /\ String.length code = n
        /\ Forall alphanumeric (list_ascii_of_string code).
Proof.
  revert s. induction n as [|n IH]; intros s; cbn.
  - split; [|done]. intros _. exists "", s. repeat split. constructor.
  - destruct s as [|a s].
    + split; [discriminate|]. intros (code & rest & E & Hlen & _).
      destruct code; discriminate.
    + rewrite andb_true_iff, is_alnum_spec, IH. split.
      * intros (Ha & code & rest & -> & <- & Hcode).
        exists (String a code), rest. repeat split. by constructor.
      * intros (code & rest & E & Hlen & Hcode). destruct code as [|b code]; [discriminate|].
        rewrite string_app_cons in E. injection E as <- ->. cbn in Hlen, Hcode.
        apply Forall_cons in Hcode as [Hb Hcode]. split; [done|].
        exists code, rest. split; [reflexivity|]. split; [lia | done].
Qed.

(** The pattern for a product code is found exactly in the URLs that hold
    one. *)
Lemma match_asin_spec lead url :
  plain lead -> match_asin lead url = true <-> has_product_code lead url.
Proof.
  intros Hplain. unfold match_asin, has_product_code. rewrite anywhere_spec. split.
  - intros (before & t & -> & Hfound).
    destruct (after_ignoring_case lead t) as [rest|] eqn:Hafter; [|discriminate].
    apply after_ignoring_case_spec in Hafter as (there & -> & Hagree); [|done].
    apply alnum_run_spec in Hfound as (code & rest' & -> & Hlen & Hcode).
    by exists before, there, code, rest'.
  - intros (before & there & code & rest & -> & Hagree & Hlen & Hcode).
    exists before, (there ++ code ++ rest). split; [reflexivity|].
    assert (after_ignoring_case lead (there ++ code ++ rest) = Some (code ++ rest)) as ->.
    { apply after_ignoring_case_spec; [done|]. by exists there. }
    apply alnum_run_spec. by exists code, rest.
Qed.

Lemma plain_dp : plain "/dp/".
Proof. unfold plain. repeat constructor. Qed.

Lemma plain_gp_product : plain "/gp/product/".
Proof. unfold plain. repeat constructor. Qed.

Lemma plain_amazon : plain "amazon".
Proof. unfold plain. repeat constructor. Qed.

Lemma plain_html : plain ".html".
Proof. unfold plain. repeat constructor. Qed.

Lemma plain_htm : plain ".htm".
Proof. unfold plain. repeat constructor. Qed.

Lemma page_extension_test s :
  String.eqb (toLowerCase s) ".html" || String.eqb (toLowerCase s) ".htm" = true
  <-> page_extension s.
Proof.
  unfold page_extension. rewrite orb_true_iff, !String.eqb_eq.
  by rewrite (toLowerCase_agree s ".html" plain_html), (toLowerCase_agree s ".htm" plain_htm).
Qed.

(** What [replace(/\.html?$/i, "")] leaves. *)
Lemma strip_html_spec s : without_page_extension s (strip_html s).
Proof.
  unfold without_page_extension. induction s as [|c s IH].
  - right. split; [reflexivity|]. intros front ext E.
    destruct front; [|discriminate]. rewrite string_app_nil_l in E. subst ext.
    intros [Hext|Hext]; inversion Hext.
  - cbn [strip_html].
    destruct (String.eqb (toLowerCase (String c s)) ".html"
              || String.eqb (toLowerCase (String c s)) ".htm") eqn:Htest.
    + left. exists (String c s). split; [reflexivity|]. by apply page_extension_test.
    + destruct IH as [(ext & Hs & Hext)|[Hs Hnone]].
      * left. exists ext. split; [|done]. by rewrite string_app_cons, <- Hs.
      * right. rewrite Hs. split; [reflexivity|]. intros front ext E.
        destruct front as [|d front].
        -- rewrite string_app_nil_l in E. subst ext. intros Hext.
           apply page_extension_test in Hext. congruence.
        -- rewrite string_app_cons in E. injection E as _ E. by apply (Hnone front).
Qed.

(** ** Segments of a path *)

Lemma split_nonempty sep s : split sep s <> [].
Proof.
  destruct s as [|c s]; cbn; [discriminate|].
  destruct (Ascii.eqb c sep); [discriminate|]. by destruct (split sep s).
Qed.

Lemma concat_cons sep x y l :
  String.concat sep (x :: y :: l) = x ++ sep ++ String.concat sep (y :: l).
Proof. reflexivity. Qed.

Lemma split_concat sep s : String.concat (String sep "") (split sep s) = s.
Proof.
  induction s as [|c s IH]; [reflexivity|]. cbn [split].
  destruct (Ascii.eqb_spec c sep) as [->|Hne].
  - destruct (split sep s) as [|y l] eqn:E; [by destruct (split_nonempty sep s)|].
    rewrite concat_cons, IH. reflexivity.
  - destruct (split sep s) as [|part [|y l]] eqn:E; [by destruct (split_nonempty sep s)| |].
    + cbn in *. by rewrite IH.
    + rewrite concat_cons, string_app_cons. rewrite concat_cons in IH. by rewrite IH.
Qed.

Lemma concat_app_cons sep l1 x l2 :
  String.concat sep (l1 ++ x :: l2)%list
  = match l1 with
    | [] => String.concat sep (x :: l2)
    | _ => String.concat sep l1 ++ sep ++ String.concat sep (x :: l2)
    end.
Proof.
  induction l1 as [|y [|z l1] IH]; [reflexivity | reflexivity |].
  change ((y :: z :: l1) ++ x :: l2)%list with (y :: z :: (l1 ++ x :: l2))%list.
  rewrite !concat_cons. change (z :: (l1 ++ x :: l2))%list with ((z :: l1) ++ x :: l2)%list.
  rewrite IH. by rewrite !string_app_assoc.
Qed.

(** * Strings: characters that cannot occur *)

Lemma includes_char s c :
  includes s (String c EmptyString) = true <-> In c (list_ascii_of_string s).
Proof.
  unfold includes. induction s as [|d s IH]; cbn.
  - split; [discriminate | intros []].
  - rewrite orb_true_iff, IH.
    assert (String.prefix "" s = true) as -> by (by destruct s).
    destruct (Ascii.ascii_dec c d) as [->|Hne].
    + split; [by left | by left].
    + split; [intros [|]; [discriminate | by right] | intros [|]; [congruence | by right]].
Qed.

Lemma excludes_char s c :
  includes s (String c EmptyString) = false <-> ~ In c (list_ascii_of_string s).
Proof. rewrite <- includes_char. by destruct (includes s _). Qed.

Lemma map_chars_in f s c :
  In c (list_ascii_of_string (map_chars f s)) ->
  exists d, In d (list_ascii_of_string s) /\ c = f d.
Proof.
  induction s as [|d s IH]; cbn; [intros []|].
  intros [<-|Hin]; [exists d; by split; [left|] |].
  destruct (IH Hin) as (d' & ? & ?). exists d'. split; [by right | done].
Qed.

Lemma split_parts_without_sep sep s part :
  In part (split sep s) -> ~ In sep (list_ascii_of_string part).
Proof.
  revert part. induction s as [|c s IH]; cbn; intros part.
  - intros [<-|[]]. intros [].
  - destruct (Ascii.eqb_spec c sep) as [->|Hne].
    + intros [<-|Hin]; [intros [] | by apply IH].
    + destruct (split sep s) as [|p ps] eqn:Hsplit.
      * intros [<-|[]]. cbn. intros [|[]]. congruence.
      * intros [<-|Hin].
        -- cbn. intros [|Hin]; [congruence|]. apply (IH p); [by left | done].
        -- apply IH. by right.
Qed.

Lemma strip_html_in s c :
  In c (list_ascii_of_string (strip_html s)) -> In c (list_ascii_of_string s).
Proof.
  induction s as [|d s IH]; [done|]. cbn [strip_html].
  destruct (_ || _); [intros [] |]. cbn. intros [|]; [by left | right; by apply IH].
Qed.

Lemma last_part_in parts part : last_part parts = Some part -> In part parts.
Proof.
  unfold last_part. induction parts as [|p parts IH]; [discriminate|].
  destruct parts as [|q parts]; cbn in *.
  - intros [= <-]. by left.
  - intros Hlast. right. by apply IH.
Qed.

Lemma last_part_none parts : last_part parts = None <-> parts = [].
Proof.
  unfold last_part. split; [|by intros ->].
  induction parts as [|p parts IH]; [done|].
  destruct parts as [|q parts]; cbn in *; [discriminate|].
  intros Hlast. by specialize (IH Hlast).
Qed.

(** * Segments of a path *)

Lemma last_part_cons p q parts : last_part (p :: q :: parts) = last_part (q :: parts).
Proof. reflexivity. Qed.

(** The last element a filter keeps, and what follows it. *)
Lemma last_part_filter (f : string -> bool) parts x :
  last_part (List.filter f parts) = Some x ->
  exists l1 l2, parts = (l1 ++ x :: l2)%list /\ f x = true /\ Forall (fun y => f y = false) l2.
Proof.
  induction parts as [|y parts IH]; [discriminate|]. cbn [List.filter].
  destruct (last_part (List.filter f parts)) as [x'|] eqn:Hlast.
  - intros Hx.
    assert (x' = x) as ->.
    { destruct (f y); [|congruence].
      destruct (List.filter f parts) as [|q rest]; [discriminate|].
      rewrite last_part_cons in Hx. congruence. }
    destruct (IH eq_refl) as (l1 & l2 & -> & Hfx & Hl2).
    by exists (y :: l1)%list, l2.
  - apply last_part_none in Hlast. rewrite Hlast.
    destruct (f y) eqn:Hfy; [|discriminate]. intros [= <-].
    exists []%list, parts. repeat split; [done|].
    apply List.Forall_forall. intros z Hz. destruct (f z) eqn:Hfz; [|done].
    assert (In z (List.filter f parts)) as Hin.
    { apply List.filter_In. by split. }
    rewrite Hlast in Hin. destruct Hin.
Qed.

(** A segment followed by empty segments is followed by slashes. *)
Lemma concat_empties seg l :
  Forall (fun y => negb (String.eqb y "") = false) l ->
  exists slashes, String.concat "/" (seg :: l) = seg ++ slashes /\ only_slashes slashes.
Proof.
  revert seg. induction l as [|y l IH]; intros seg Hl.
  - exists "". split; [by rewrite string_app_nil_r | constructor].
  - apply Forall_cons in Hl as [Hy Hl].
    apply negb_false_iff, String.eqb_eq in Hy. subst y.
    destruct (IH "" Hl) as (slashes & E & Hslashes).
    exists ("/" ++ slashes). rewrite concat_cons, E, string_app_nil_l.
    split; [reflexivity|]. by constructor.
Qed.

Lemma split_last_segment path segment :
  last_part (List.filter (fun part => negb (String.eqb part "")) (split "/" path)) = Some segment ->
  last_segment path segment.
Proof.
  intros Hlast.
  destruct (last_part_filter _ _ _ Hlast) as (l1 & l2 & Hsplit & Hne & Hl2).
  apply negb_true_iff, String.eqb_neq in Hne.
  split; [done|]. split.
  { apply (split_parts_without_sep "/" path). rewrite Hsplit.
    apply in_or_app. right. by left. }
  destruct (concat_empties segment l2 Hl2) as (slashes & E & Hslashes).
  pose proof (split_concat "/" path) as Hpath.
  rewrite Hsplit, concat_app_cons, E in Hpath.
  destruct l1 as [|y l1].
  - exists "", slashes. rewrite string_app_nil_l. repeat split; [done | done | by left].
  - exists (String.concat "/" (y :: l1) ++ "/"), slashes.
    split; [by rewrite string_app_assoc|]. split; [done|]. right. by eexists.
Qed.

Lemma only_slashes_split path :
  last_part (List.filter (fun part => negb (String.eqb part "")) (split "/" path)) = None
  <-> only_slashes path.
Proof.
  rewrite last_part_none. unfold only_slashes.
  induction path as [|c path IH]; cbn [split list_ascii_of_string].
  - split; [constructor | done].
  - destruct (Ascii.eqb_spec c "/") as [->|Hne].
    + cbn. rewrite IH. split; [by constructor | by intros [_ ?]%Forall_cons].
    + split; [|by intros [? _]%Forall_cons].
      destruct (split "/" path); discriminate.
Qed.

(** * The lookup by URL *)

(** The test of the Amazon branch. *)
Lemma amazon_test host url :
  includes (toLowerCase host) "amazon"
  && (match_asin "/dp/" url || match_asin "/gp/product/" url) = true
  <-> amazon_product_url host url.
Proof.
  unfold amazon_product_url.
  rewrite andb_true_iff, orb_true_iff.
  rewrite (includes_toLowerCase _ _ plain_amazon).
  by rewrite (match_asin_spec _ _ plain_dp), (match_asin_spec _ _ plain_gp_product).
Qed.

Section LookupByUrlFacts.
Context `{WebPlatform}.

(** [lookupProductByUrl] gives null exactly when the URL does not parse or
    its path is made of slashes only.  Otherwise the result holds the URL
    itself as [website], a name, and nothing else.  The name is made of the
    last segment of the path that is not empty: for an Amazon product URL
    ("amazon" in the host name and a ten-character code after "/dp/" or
    "/gp/product/", in any case) it is that segment with every hyphen
    replaced by a space; for any other URL it is that, less a final ".htm"
    or ".html" in any case.  So the name holds neither a hyphen nor a
    slash. *)
Theorem lookupProductByUrl_names_last_segment url :
  (lookupProductByUrl url = None
   <-> (exists error, parse_url url = inl error)
       \/ (exists urlObj, parse_url url = inr urlObj /\ only_slashes (pathname urlObj)))
  /\ (forall result,
        lookupProductByUrl url = Some result ->
        website result = Some url
        /\ brand result = None /\ description result = None /\ category result = None
        /\ images result = None /\ price result = None /\ specifications result = None
        /\ exists urlObj segment n,
             parse_url url = inr urlObj
             /\ last_segment (pathname urlObj) segment
             /\ name result = Some n
             /\ (amazon_product_url (hostname urlObj) url -> n = spaced segment)
             /\ (~ amazon_product_url (hostname urlObj) url ->
                 without_page_extension (spaced segment) n)
             /\ ~ In "-"%char (list_ascii_of_string n)
             /\ ~ In "/"%char (list_ascii_of_string n)).
Proof.
  unfold lookupProductByUrl.
  destruct (parse_url url) as [error|urlObj] eqn:Hparse.
  { split; [|discriminate]. split; [intros _; left; by exists error | done]. }
  set (pathParts := List.filter _ _).
  destruct (last_part pathParts) as [lastPart|] eqn:Hlast.
  - pose proof (split_last_segment _ _ Hlast) as Hsegment.
    assert (Hclean : forall n,
              (n = hyphens_to_spaces lastPart \/ n = strip_html (hyphens_to_spaces lastPart)) ->
              ~ In "-"%char (list_ascii_of_string n) /\ ~ In "/"%char (list_ascii_of_string n)).
    { intros n Hn.
      assert (Hsub : forall c, In c (list_ascii_of_string n) ->
                               In c (list_ascii_of_string (hyphens_to_spaces lastPart))).
      { intros c. destruct Hn as [->| ->]; [done | apply strip_html_in]. }
      split; intros Hc; apply Hsub, map_chars_in in Hc as (d & Hd & Hcd).
      - destruct (Ascii.eqb_spec d "-"); [discriminate | congruence].
      - destruct (Ascii.eqb_spec d "-"); [discriminate|]. subst d.
        by destruct Hsegment as (_ & Hslash & _). }
    split.
    + split.
      * destruct (_ && _); discriminate.
      * intros [[error [=]]|(urlObj' & [= <-] & Hslashes)].
        apply only_slashes_split in Hslashes. fold pathParts in Hslashes. congruence.
    + intros result Hresult.
      pose proof (amazon_test (hostname urlObj) url) as Hamazon.
      destruct (_ && _) eqn:Htest; injection Hresult as <-; cbn;
        (repeat (split; [reflexivity|]));
        eexists urlObj, lastPart, _;
        (split; [reflexivity|]); (split; [exact Hsegment|]); (split; [reflexivity|]).
      * split; [intros _; apply hyphens_to_spaces_spaced|].
        split; [intros Hnot; destruct Hnot; by apply Hamazon|].
        apply Hclean. by left.
      * split; [intros Hyes; apply Hamazon in Hyes; congruence|].
        split; [intros _; rewrite <- hyphens_to_spaces_spaced; apply strip_html_spec|].
        apply Hclean. by right.
  - split; [|discriminate]. split; [|done].
    intros _. right. exists urlObj. split; [reflexivity|].
    by apply only_slashes_split.
Qed.

End LookupByUrlFacts.

(** The Amazon branch on a URL that ends in the product code, on one with
    a page name after the code and on one in capitals, and the general
    branch on a page name. *)
Example lookupProductByUrl_samples :
  name <$> lookupProductByUrl (H := sample_web_platform)
             "https://www.amazon.co.uk/Apple-iPad-Pro/dp/B0BJLXMVMV"
  = Some (Some "B0BJLXMVMV")
  /\ name <$> lookupProductByUrl (H := sample_web_platform)
                "https://www.amazon.co.uk/dp/B0BJLXMVMV/apple-ipad.html?tag=x"
     = Some (Some "apple ipad.html")
  /\ name <$> lookupProductByUrl (H := sample_web_platform)
                "https://www.AMAZON.com/GP/Product/b0bjlxmvmv/Apple-iPad.htm"
     = Some (Some "Apple iPad.htm")
  /\ name <$> lookupProductByUrl (H := sample_web_platform)
                "https://shop.example.com/products/apple-ipad-pro.HTML?ref=home"
     = Some (Some "apple ipad pro")
  /\ lookupProductByUrl (H := sample_web_platform) "https://shop.example.com/" = None
  /\ lookupProductByUrl (H := sample_web_platform) "apple ipad" = None.
Proof. repeat split; vm_compute; reflexivity. Qed.

(** * The file storage *)

Lemma upto_last_none c s : ~ In c (list_ascii_of_string s) -> upto_last c s = None.
Proof.
  induction s as [|a s IH]; [done|]. cbn. intros Hnot.
  rewrite IH by tauto. destruct (Ascii.eqb_spec a c); [tauto | done].
Qed.

Lemma dot_run_in s c : In c (list_ascii_of_string (dot_run s)) -> In c (list_ascii_of_string s).
Proof.
  induction s as [|a s IH]; [done|]. cbn.
  destruct (is_line_terminator a); [intros [] |]. cbn. tauto.
Qed.

Lemma after_in p s rest c :
  after p s = Some rest -> In c (list_ascii_of_string rest) -> In c (list_ascii_of_string s).
Proof.
  revert s. induction p as [|a p IH]; intros s; cbn.
  - by intros [= ->].
  - destruct s as [|b s]; [discriminate|].
    destruct (Ascii.eqb a b); [|discriminate]. intros Hafter Hin. right. by eapply IH.
Qed.

Lemma match_object_path_none s : includes s "?" = false -> match_object_path s = None.
Proof.
  rewrite excludes_char. induction s as [|a s IH]; intros Hnot.
  - reflexivity.
  - cbn [match_object_path].
    assert (match after "/o/" (String a s) with
            | Some rest => greedy_upto_question rest
            | None => None
            end = None) as ->.
    { destruct (after "/o/" (String a s)) as [rest|] eqn:Hafter; [|done].
      unfold greedy_upto_question. rewrite upto_last_none; [done|].
      intros Hin. apply Hnot. eapply after_in; [exact Hafter|]. by apply dot_run_in. }
    apply IH. intros Hin. apply Hnot. by right.
Qed.

Lemma take_until_stops stop s c :
  In c (list_ascii_of_string (take_until stop s)) -> stop c = false.
Proof.
  induction s as [|a s IH]; [done|]. cbn.
  destruct (stop a) eqn:Ha; [intros [] |]. cbn. intros [<-|]; [done | by apply IH].
Qed.

Lemma sample_web_platform_laws : WebPlatformLaws sample_web_platform.
Proof.
  constructor. intros s url. cbn [parse_url sample_web_platform].
  assert (Hparsed : forall rest,
            (let host := take_until ends_host rest in
             let path := take_until ends_path (drop_until ends_host rest) in
             if String.eqb host "" then inl {| code := Some "ERR_INVALID_URL"; message := "Invalid URL" |}
             else inr {| hostname := toLowerCase host;
                         pathname := if String.eqb path "" then "/" else path |})
            = inr url ->
            includes (pathname url) "?" = false).
  { intros rest. cbv zeta. destruct (String.eqb (take_until ends_host rest) ""); [discriminate|].
    intros [= <-]. cbn [pathname].
    destruct (String.eqb _ ""); [reflexivity|].
    apply excludes_char. intros Hin. by apply take_until_stops in Hin. }
  unfold sample_parse_url.
  destruct (after "https://" s); [apply Hparsed|].
  destruct (after "http://" s); [apply Hparsed | discriminate].
Qed.

Lemma pretty_N_char_digit x : is_digit (pretty_N_char x) = true.
Proof. unfold pretty_N_char. by repeat case_match. Qed.

Lemma pretty_N_go_digits x s :
  all_digits s = true -> all_digits (pretty_N_go x s) = true.
Proof.
  revert s. induction (N.lt_wf_0 x) as [x _ IH]; intros s Hs.
  assert (x = 0 \/ 0 < x)%N as [->|Hpos] by lia.
  - by rewrite pretty_N_go_0.
  - rewrite pretty_N_go_step by done. apply IH; [by apply N.div_lt|].
    cbn [all_digits]. by rewrite pretty_N_char_digit, Hs.
Qed.

Lemma pretty_N_digits (n : N) : all_digits (pretty n) = true.
Proof.
  unfold pretty, pretty_N. case_decide; [reflexivity|]. by apply pretty_N_go_digits.
Qed.

Lemma all_digits_in s c : all_digits s = true -> In c (list_ascii_of_string s) -> is_digit c = true.
Proof.
  induction s as [|a s IH]; [done|]. cbn. rewrite andb_true_iff.
  intros [Ha Hs] [<-|Hin]; [done | by apply IH].
Qed.

Lemma string_app_in s t c :
  In c (list_ascii_of_string (s ++ t))
  <-> In c (list_ascii_of_string s) \/ In c (list_ascii_of_string t).
Proof.
  induction s as [|a s IH].
  - change ("" ++ t) with t. cbn. tauto.
  - change (String a s ++ t) with (String a (s ++ t)). cbn. rewrite IH. tauto.
Qed.

Lemma sanitized_keeps name c :
  In c (list_ascii_of_string (sanitized name)) -> keeps c = true \/ c = "_"%char.
Proof.
  intros Hin. apply map_chars_in in Hin as (d & _ & ->).
  destruct (keeps d) eqn:Hd; [by left | by right].
Qed.

Lemma keeps_spec c : keeps c = true <-> kept c.
Proof.
  unfold keeps, kept. rewrite !orb_true_iff, is_alnum_spec.
  destruct (Ascii.eqb_spec c "."), (Ascii.eqb_spec c "-"); intuition congruence.
Qed.

(** What [replace(/[^a-zA-Z0-9.-]/g, "_")] gives. *)
Lemma sanitized_underscored name clean : underscored name clean -> clean = sanitized name.
Proof.
  unfold underscored, sanitized. revert clean.
  induction name as [|c name IH]; intros clean Hclean.
  - destruct clean; [reflexivity | inversion Hclean].
  - destruct clean as [|d clean]; [inversion Hclean|]. cbn in Hclean.
    apply Forall2_cons in Hclean as [Hd Hclean]. cbn. rewrite <- (IH _ Hclean).
    destruct Hd as [[Hkept ->]|[Hnot ->]].
    + apply keeps_spec in Hkept. by rewrite Hkept.
    + destruct (keeps c) eqn:Hkeeps; [|done]. by apply keeps_spec in Hkeeps.
Qed.

Lemma underscored_sanitized name : underscored name (sanitized name).
Proof.
  unfold underscored, sanitized. induction name as [|c name IH]; [constructor|].
  cbn. constructor; [|exact IH].
  destruct (keeps c) eqn:Hkeeps.
  - left. split; [by apply keeps_spec | reflexivity].
  - right. split; [|reflexivity]. intros Hkept%keeps_spec. congruence.
Qed.

Section StorageFacts.
Context `{WebPlatform}.

(** A generated file name is made of letters, digits, ".", "-" and "_"
    only. *)
Lemma finalFileName_generated timestamp file c :
  In c (list_ascii_of_string (finalFileName None timestamp file)) ->
  keeps c = true \/ c = "_"%char.
Proof.
  unfold finalFileName. rewrite !string_app_in. intros [Hin|[Hin|Hin]].
  - left. apply (all_digits_in _ _ (pretty_N_digits timestamp)) in Hin.
    unfold keeps, is_alnum. unfold is_digit in Hin. by rewrite Hin.
  - left. destruct Hin as [<-|[]]. reflexivity.
  - by apply (sanitized_keeps (file_name file)).
Qed.

(** [uploadImage] on an image of at most 5 MiB under the name [leaf]. *)
Lemma uploadImage_accepted file userId folder fileName st :
  storage_initialized st = true ->
  String.prefix "image/" (file_type file) = true ->
  (file_size file <= 5242880)%N ->
  let path := folder_name folder ++ "/" ++ userId ++ "/"
              ++ finalFileName fileName (date_now (readings st)) file in
  uploadImage file userId folder fileName st
  = match storage_backend st with
    | Some error =>
        (Thrown (Error ("Failed to upload image: " ++ message error)), read_clock st)
    | None =>
        match download_backend st with
        | Some error =>
            (Thrown (Error ("Failed to upload image: " ++ message error)),
             set_objects (<[path := file]> (objects st)) (read_clock st))
        | None =>
            (Returned (getDownloadURL path),
             set_objects (<[path := file]> (objects st)) (read_clock st))
        end
    end.
Proof.
  intros Hinit Himage Hsize. unfold uploadImage. rewrite Hinit, Himage. cbn [negb].
  destruct (N.ltb_spec maxSize (file_size file)) as [Hbig|_];
    [unfold maxSize in Hbig; lia|].
  cbn [read_clock storage_backend download_backend set_objects objects].
  by destruct (storage_backend st), (download_backend st).
Qed.

(** [uploadImage] checks the file before it stores it.  On a storage that
    is not initialized it throws and stores nothing.  On one that is, it
    throws "File must be an image" for a file whose type does not begin with
    "image/" and "Image size must be less than 5MB" for an image of more
    than 5 MiB, and stores nothing.  An image of at most 5 MiB (one of
    exactly 5 MiB is taken) is stored under [folder/userId/] and the file
    name: the name given, or, when none or an empty one is given, the
    timestamp, "-" and the file's own name with every character that is no
    letter, digit, "." or "-" replaced by "_", which holds no "/".  When
    the upload fails, nothing is stored and "Failed to upload image: " and
    the reason are thrown; when the upload works and the request for the
    download URL fails, the same is thrown although the file is stored;
    when both work, the download URL of the path is returned. *)
Theorem uploadImage_checks_then_stores file userId folder fileName st leaf clean :
  underscored (file_name file) clean ->
  (exists given, fileName = Some given /\ given <> "" /\ leaf = given)
  \/ ((fileName = None \/ fileName = Some "")
      /\ leaf = pretty (date_now (readings st)) ++ "-" ++ clean) ->
  let path := folder_name folder ++ "/" ++ userId ++ "/" ++ leaf in
  let run := uploadImage file userId folder fileName st in
  (storage_initialized st = false ->
   exists error, run = (Thrown error, st))
  /\ (storage_initialized st = true ->
      String.prefix "image/" (file_type file) = false ->
      run = (Thrown (Error "File must be an image"), st))
  /\ (storage_initialized st = true ->
      String.prefix "image/" (file_type file) = true ->
      (5242880 < file_size file)%N ->
      run = (Thrown (Error "Image size must be less than 5MB"), st))
  /\ (storage_initialized st = true ->
      String.prefix "image/" (file_type file) = true ->
      (file_size file <= 5242880)%N ->
      (forall error,
         storage_backend st = Some error ->
         run.1 = Thrown (Error ("Failed to upload image: " ++ message error))
         /\ objects run.2 = objects st)
      /\ (forall error,
            storage_backend st = None -> download_backend st = Some error ->
            run.1 = Thrown (Error ("Failed to upload image: " ++ message error))
            /\ objects run.2 = <[path := file]> (objects st))
      /\ (storage_backend st = None -> download_backend st = None ->
          run.1 = Returned (getDownloadURL path)
          /\ objects run.2 = <[path := file]> (objects st)))
  /\ (fileName = None \/ fileName = Some "" -> ~ In "/"%char (list_ascii_of_string leaf)).
Proof.
  intros Hclean%sanitized_underscored Hleaf path run.
  assert (Hname : leaf = finalFileName fileName (date_now (readings st)) file).
  { unfold finalFileName.
    destruct Hleaf as [(given & -> & Hgiven & ->)|[[->| ->] ->]]; [|by subst clean..].
    by apply String.eqb_neq in Hgiven as ->. }
  split; [|split; [|split; [|split]]].
  - intros Hinit. unfold run, uploadImage. rewrite Hinit. by eexists.
  - intros Hinit Htype. unfold run, uploadImage. by rewrite Hinit, Htype.
  - intros Hinit Htype Hbig. unfold run, uploadImage. rewrite Hinit, Htype. cbn [negb].
    by destruct (N.ltb_spec maxSize (file_size file)) as [_|Hsmall];
      [|unfold maxSize in Hsmall; lia].
  - intros Hinit Htype Hsmall. unfold run, path.
    rewrite (uploadImage_accepted _ _ _ _ _ Hinit Htype Hsmall), <- Hname.
    split; [|split].
    + by intros error ->.
    + by intros error -> ->.
    + by intros -> ->.
  - intros Hgenerated Hin.
    assert (leaf = finalFileName None (date_now (readings st)) file) as Hgen.
    { rewrite Hname. by destruct Hgenerated as [->| ->]. }
    rewrite Hgen in Hin. by apply finalFileName_generated in Hin as [?|?].
Qed.

(** [deleteImage] never deletes: the path of a URL holds no "?", so the
    pattern the function looks for in it (with a "?" after the object path)
    is never found, and every call throws and leaves the storage as it
    was. *)
Theorem deleteImage_never_deletes imageUrl st :
  WebPlatformLaws H ->
  exists error,
    deleteImage imageUrl st = (Thrown error, st)
    /\ (storage_initialized st = true ->
        forall url, parse_url imageUrl = inr url ->
        error = Error "Failed to delete image: Invalid image URL format").
Proof.
  intros Laws. unfold deleteImage.
  destruct (storage_initialized st); cbn [negb]; [|eexists; by split].
  destruct (parse_url imageUrl) as [error|url] eqn:Hparse; [eexists; by split|].
  rewrite match_object_path_none by (by eapply pathname_without_query).
  eexists. split; [reflexivity|]. by intros _ ? [= <-].
Qed.

End StorageFacts.

(** Uploading a photograph whose name has characters to replace, to a
    storage that works and to one that stores it but then fails to give
    its URL. *)
Lemma uploadImage_checks_then_stores_witness :
  underscored "my receipt (1).png" "my_receipt__1_.png"
  /\ (uploadImage (H := sample_web_platform)
        photo "user-1" receipts_folder None empty_storage).1
     = Returned "https://firebasestorage.googleapis.com/v0/b/iwoot.appspot.com/o/receipts%2Fuser-1%2F1705314600000-my_receipt__1_.png?alt=media"
  /\ objects (uploadImage (H := sample_web_platform)
                photo "user-1" receipts_folder None empty_storage).2
     = {[ "receipts/user-1/1705314600000-my_receipt__1_.png" := photo ]}
  /\ (uploadImage (H := sample_web_platform)
        photo "user-1" receipts_folder None unreadable_storage).1
     = Thrown (Error "Failed to upload image: User does not have permission to access the object.")
  /\ objects (uploadImage (H := sample_web_platform)
                photo "user-1" receipts_folder None unreadable_storage).2
     = {[ "receipts/user-1/1705314600000-my_receipt__1_.png" := photo ]}.
Proof.
  assert (Hclean : underscored "my receipt (1).png" "my_receipt__1_.png").
  { exact (underscored_sanitized "my receipt (1).png"). }
  split; [exact Hclean|].
  destruct (uploadImage_checks_then_stores (H := sample_web_platform)
              photo "user-1" receipts_folder None empty_storage
              "1705314600000-my_receipt__1_.png" "my_receipt__1_.png" Hclean
              (or_intror (conj (or_introl eq_refl) eq_refl)))
    as (_ & _ & _ & Haccepted & _).
  destruct (Haccepted eq_refl eq_refl ltac:(vm_compute; discriminate))
    as (_ & _ & Hstored).
  destruct (Hstored eq_refl eq_refl) as [Hurl Hobjects].
  destruct (uploadImage_checks_then_stores (H := sample_web_platform)
              photo "user-1" receipts_folder None unreadable_storage
              "1705314600000-my_receipt__1_.png" "my_receipt__1_.png" Hclean
              (or_intror (conj (or_introl eq_refl) eq_refl)))
    as (_ & _ & _ & Hunreadable & _).
  destruct (Hunreadable eq_refl eq_refl ltac:(vm_compute; discriminate))
    as (_ & Hfails & _).
  destruct (Hfails _ eq_refl eq_refl) as [Hthrown Hkept].
  split; [exact Hurl|]. split; [exact Hobjects|]. split; [exact Hthrown | exact Hkept].
Defined.

(** Deleting by the download URL of a stored photograph. *)
Lemma deleteImage_never_deletes_witness :
  exists error,
    deleteImage (H := sample_web_platform)
      "https://firebasestorage.googleapis.com/v0/b/iwoot.appspot.com/o/receipts%2Fuser-1%2Fscan.jpg?alt=media"
      {| storage_initialized := true; storage_backend := None; download_backend := None;
         objects := {[ "receipts/user-1/scan.jpg" := large_photo ]}; readings := 1 |}
    = (Thrown error,
       {| storage_initialized := true; storage_backend := None; download_backend := None;
          objects := {[ "receipts/user-1/scan.jpg" := large_photo ]}; readings := 1 |}).
Proof.
  destruct (deleteImage_never_deletes (H := sample_web_platform)
              "https://firebasestorage.googleapis.com/v0/b/iwoot.appspot.com/o/receipts%2Fuser-1%2Fscan.jpg?alt=media"
              {| storage_initialized := true; storage_backend := None; download_backend := None;
                 objects := {[ "receipts/user-1/scan.jpg" := large_photo ]}; readings := 1 |}
              sample_web_platform_laws) as (error & Hrun & _).
  by exists error.
Defined.

(** The pattern itself finds the object path when a "?" follows it, and
    [deleteImage] then deletes: over a parser that (against the law) leaves
    the query in [pathname], the object is removed. *)
Example deleteImage_pattern_samples :
  match_object_path "/v0/b/iwoot.appspot.com/o/receipts%2Fuser-1%2Fscan.jpg?alt=media&token=a?b"
  = Some "receipts%2Fuser-1%2Fscan.jpg?alt=media&token=a"
  /\ match_object_path "/v0/b/iwoot.appspot.com/o/receipts%2Fuser-1%2Fscan.jpg" = None
  /\ match_object_path "/o/?alt=media" = None
  /\ deleteImage
       (H := {| parse_url s := inr {| hostname := "firebasestorage.googleapis.com";
                                      pathname := s |};
                decodeURIComponent := inr;
                date_now := N.of_nat;
                getDownloadURL path := path |})
       "/o/scan.jpg?alt=media"
       {| storage_initialized := true; storage_backend := None; download_backend := None;
          objects := {[ "scan.jpg" := large_photo ]}; readings := 0 |}
     = (Returned tt,
        {| storage_initialized := true; storage_backend := None; download_backend := None;
           objects := ∅; readings := 0 |}).
Proof. repeat split; vm_compute; reflexivity. Qed.

(** * The receipt validators *)

Lemma check_item_app item index errors :
  check_item item index errors = (errors ++ item_errors item index)%list.
Proof.
  unfold item_errors, check_item. rewrite !push_if_app. cbn [app]. by rewrite !app_assoc.
Qed.

Lemma check_item_update_app item index errors :
  check_item_update item index errors = (errors ++ item_update_errors item index)%list.
Proof.
  unfold item_update_errors, check_item_update. rewrite !push_if_app. cbn [app]. by rewrite !app_assoc.
Qed.

Lemma item_update_errors_fewer item index :
  item_errors item index = [] -> item_update_errors item index = [].
Proof.
  unfold item_errors, item_update_errors, check_item, check_item_update.
  rewrite !push_if_app. cbn [app].
  destruct (_ || _); [discriminate|]. destruct (_ || _); [discriminate|]. reflexivity.
Qed.

Lemma appended_nil {A} (g g' : A -> nat -> list string) l :
  (forall x i, g x i = [] -> g' x i = []) ->
  forall index, appended g l index = [] -> appended g' l index = [].
Proof.
  intros Hg. induction l as [|x l IH]; intros index; cbn; [done|].
  intros [Hx Hl]%app_eq_nil. by rewrite (Hg _ _ Hx), (IH _ Hl).
Qed.

Lemma in_appended {A} (g : A -> nat -> list string) l i x m :
  l !! i = Some x ->
  forall index, In m (g x (index + i)) -> In m (appended g l index).
Proof.
  revert i. induction l as [|y l IH]; intros i Hi index Hm; [done|].
  cbn. apply in_app_iff. destruct i as [|i]; cbn in Hi.
  - injection Hi as ->. left. by rewrite Nat.add_0_r in Hm.
  - right. apply (IH i Hi). by replace (index + 1 + i) with (index + S i) by lia.
Qed.

Lemma if_singleton_nil {A} (c : bool) (m : A) :
  (if c then [m] else []) = [] -> c = false.
Proof. by destruct c. Qed.

Section ReceiptValidatorFacts.
Context `{Platform}.

(** The errors of [validateReceipt], check by check. *)
Lemma validateReceipt_errors receipt :
  errors (validateReceipt receipt)
  = ((if falsy (prop receipt "receiptNumber") || blank (prop receipt "receiptNumber")
      then ["Receipt number is required"] else [])
     ++ (if falsy (prop receipt "storeName") || blank (prop receipt "storeName")
         then ["Store name is required"] else [])
     ++ (if falsy (prop receipt "receiptDate") || negb (isValidDate (prop receipt "receiptDate"))
         then ["Valid receipt date is required"] else [])
     ++ (if falsy (prop receipt "items") || length_is_0 (prop receipt "items")
         then ["Receipt must have at least one item"] else [])
     ++ match prop receipt "items" with
        | JArr items => appended item_errors items 0
        | _ => []
        end
     ++ (if lt0 (prop receipt "totalAmount") then ["Total amount cannot be negative"] else [])
     ++ (if falsy (prop receipt "userId") || blank (prop receipt "userId")
         then ["User ID is required"] else [])
     ++ (if truthy (prop receipt "receiptImage")
            && negb (isValidUrl (prop receipt "receiptImage"))
         then ["Receipt image must be a valid URL"] else []))%list.
Proof.
  unfold validateReceipt. cbn [errors]. rewrite !push_if_app. cbn [app].
  destruct (prop receipt "items") as [|s|items|o];
    try (unfold forEach; rewrite (forEach_from_app _ item_errors _ check_item_app));
    rewrite ?app_nil_r, <- ?app_assoc; reflexivity.
Qed.

(** The errors of [validateReceiptUpdate], check by check. *)
Lemma validateReceiptUpdate_errors updates :
  errors (validateReceiptUpdate updates)
  = ((if defined (prop updates "receiptNumber")
          && (falsy (prop updates "receiptNumber") || blank (prop updates "receiptNumber"))
      then ["Receipt number cannot be empty"] else [])
     ++ (if defined (prop updates "storeName")
            && (falsy (prop updates "storeName") || blank (prop updates "storeName"))
         then ["Store name cannot be empty"] else [])
     ++ (if defined (prop updates "receiptDate")
            && negb (isValidDate (prop updates "receiptDate"))
         then ["Receipt date must be a valid date"] else [])
     ++ match prop updates "items" with
        | JArr items =>
            (if Nat.eqb (length items) 0 then ["Receipt must have at least one item"] else [])
            ++ appended item_update_errors items 0
        | _ => []
        end
     ++ (if defined (prop updates "totalAmount") && lt0 (prop updates "totalAmount")
         then ["Total amount cannot be negative"] else [])
     ++ (if defined (prop updates "receiptImage") && truthy (prop updates "receiptImage")
            && negb (isValidUrl (prop updates "receiptImage"))
         then ["Receipt image must be a valid URL"] else []))%list.
Proof.
  unfold validateReceiptUpdate. cbn [errors].
  assert (Hguard : forall (c d : bool) (m : string) (e : list string),
            (if c then push_if d m e else e) = (e ++ (if c && d then [m] else []))%list).
  { intros [] [] m e; cbn; by rewrite ?app_nil_r. }
  rewrite !Hguard, !push_if_app. cbn [app].
  destruct (prop updates "items") as [|s|items|o];
    try (unfold forEach;
         rewrite (forEach_from_app _ item_update_errors _ check_item_update_app));
    rewrite ?push_if_app, ?app_nil_r, <- ?app_assoc; reflexivity.
Qed.

Lemma valid_validateReceipt receipt :
  valid (validateReceipt receipt) = true <-> errors (validateReceipt receipt) = [].
Proof. unfold validateReceipt. cbn [valid errors]. apply valid_iff_no_errors. Qed.

Lemma valid_validateReceiptUpdate updates :
  valid (validateReceiptUpdate updates) = true <-> errors (validateReceiptUpdate updates) = [].
Proof. unfold validateReceiptUpdate. cbn [valid errors]. apply valid_iff_no_errors. Qed.

(** Every payload [validateReceipt] accepts, [validateReceiptUpdate]
    accepts as well: an update is held to no rule a new receipt is not held
    to. *)
Theorem validateReceipt_accepted_also_as_update receipt :
  valid (validateReceipt receipt) = true ->
  valid (validateReceiptUpdate receipt) = true.
Proof.
  rewrite valid_validateReceipt, valid_validateReceiptUpdate.
  rewrite validateReceipt_errors, validateReceiptUpdate_errors.
  intros Herrors.
  apply app_eq_nil in Herrors as [Hnumber%if_singleton_nil Herrors].
  apply app_eq_nil in Herrors as [Hstore%if_singleton_nil Herrors].
  apply app_eq_nil in Herrors as [Hdate%if_singleton_nil Herrors].
  apply app_eq_nil in Herrors as [Hsome%if_singleton_nil Herrors].
  apply app_eq_nil in Herrors as [Hitems Herrors].
  apply app_eq_nil in Herrors as [Htotal%if_singleton_nil Herrors].
  apply app_eq_nil in Herrors as [_ Himage%if_singleton_nil].
  apply orb_false_iff in Hdate as [_ Hdate].
  rewrite Hnumber, Hstore, Hdate, Htotal, <- andb_assoc, Himage, !andb_false_r.
  cbn [app].
  destruct (prop receipt "items") as [|s|items|o]; try reflexivity.
  cbn in Hsome. rewrite Hsome. cbn [app].
  rewrite app_nil_r.
  apply (appended_nil item_errors); [apply item_update_errors_fewer | exact Hitems].
Qed.

Lemma validateReceipt_invalid m receipt :
  In m (errors (validateReceipt receipt)) -> valid (validateReceipt receipt) = false.
Proof. unfold validateReceipt. cbn [valid errors]. apply not_valid_of_in. Qed.

Lemma validateReceiptUpdate_invalid m updates :
  In m (errors (validateReceiptUpdate updates)) ->
  valid (validateReceiptUpdate updates) = false.
Proof. unfold validateReceiptUpdate. cbn [valid errors]. apply not_valid_of_in. Qed.

Lemma in_item_errors m receipt items i item :
  prop receipt "items" = JArr items -> items !! i = Some item ->
  In m (item_errors item i) ->
  In m (errors (validateReceipt receipt)).
Proof.
  intros Hitems Hitem Hm. rewrite validateReceipt_errors, Hitems, !in_app_iff.
  do 4 right. left. by apply (in_appended _ _ i item).
Qed.

Lemma in_item_update_errors m updates items i item :
  prop updates "items" = JArr items -> items !! i = Some item ->
  In m (item_update_errors item i) ->
  In m (errors (validateReceiptUpdate updates)).
Proof.
  intros Hitems Hitem Hm. rewrite validateReceiptUpdate_errors, Hitems, !in_app_iff.
  do 3 right. left. right. by apply (in_appended _ _ i item).
Qed.

(** Both receipt validators reject a payload one of whose items has no
    quantity or a quantity that is not greater than 0, or has no product id
    or a blank one, and [validateReceipt] rejects one with a negative price;
    the error names the item by its position, counted from 1. *)
Theorem validateReceipt_reports_bad_items receipt items i item :
  prop receipt "items" = JArr items -> items !! i = Some item ->
  ((field item "quantity" = JUndefined
    \/ exists n, field item "quantity" = JNum n /\ num_gt0 n = false) ->
   let m := "Item " ++ pretty (i + 1) ++ ": Quantity must be greater than 0" in
   In m (errors (validateReceipt receipt)) /\ valid (validateReceipt receipt) = false
   /\ In m (errors (validateReceiptUpdate receipt))
   /\ valid (validateReceiptUpdate receipt) = false)
  /\ ((field item "productId" = JUndefined
       \/ exists s, field item "productId" = JStr s /\ trim s = "") ->
      let m := "Item " ++ pretty (i + 1) ++ ": Product ID is required" in
      In m (errors (validateReceipt receipt)) /\ valid (validateReceipt receipt) = false
      /\ In m (errors (validateReceiptUpdate receipt))
      /\ valid (validateReceiptUpdate receipt) = false)
  /\ ((exists n, field item "discountedPrice" = JNum n /\ num_lt0 n = true) ->
      let m := "Item " ++ pretty (i + 1) ++ ": Price cannot be negative" in
      In m (errors (validateReceipt receipt)) /\ valid (validateReceipt receipt) = false).
Proof.
  intros Hitems Hitem.
  assert (Hboth : forall m,
            In m (item_errors item i) -> In m (item_update_errors item i) ->
            In m (errors (validateReceipt receipt)) /\ valid (validateReceipt receipt) = false
            /\ In m (errors (validateReceiptUpdate receipt))
            /\ valid (validateReceiptUpdate receipt) = false).
  { intros m Hcreate Hupdate.
    pose proof (in_item_errors m receipt items i item Hitems Hitem Hcreate).
    pose proof (in_item_update_errors m receipt items i item Hitems Hitem Hupdate).
    repeat split; eauto using validateReceipt_invalid, validateReceiptUpdate_invalid. }
  split; [|split].
  - intros Hquantity m.
    assert (falsy (field item "quantity") || le0 (field item "quantity") = true) as Hfires.
    { destruct Hquantity as [->|(n & -> & Hn)]; [reflexivity|].
      cbn. unfold falsy. cbn. by rewrite num_falsy_or_le0, Hn. }
    apply Hboth; unfold item_errors, item_update_errors, check_item, check_item_update;
      find_check ltac:(exact Hfires).
  - intros Hid m.
    assert (falsy (field item "productId") || blank (field item "productId") = true) as Hfires.
    { destruct Hid as [->|(s & -> & Hs)]; [reflexivity|].
      cbn. rewrite Hs. apply orb_true_r. }
    apply Hboth; unfold item_errors, item_update_errors, check_item, check_item_update;
      find_check ltac:(exact Hfires).
  - intros (n & Hprice & Hn) m.
    assert (In m (item_errors item i)) as Hm.
    { unfold item_errors, check_item. find_check ltac:(by rewrite Hprice). }
    pose proof (in_item_errors m receipt items i item Hitems Hitem Hm).
    split; eauto using validateReceipt_invalid.
Qed.

End ReceiptValidatorFacts.

(** A receipt whose second item has quantity 0. *)
Lemma validateReceipt_reports_bad_items_witness :
  In "Item 2: Quantity must be greater than 0"
    (errors (validateReceipt (H := sample_platform)
               (<["items" := VArr [EObj (list_to_map [("productId", SStr "prod-1");
                                                      ("quantity", SNum (Fin 1))]);
                                   EObj (list_to_map [("productId", SStr "prod-2");
                                                      ("quantity", SNum (Fin 0))])]]>
                  apple_receipt))).
Proof.
  destruct (validateReceipt_reports_bad_items (H := sample_platform)
              (<["items" := VArr [EObj (list_to_map [("productId", SStr "prod-1");
                                                     ("quantity", SNum (Fin 1))]);
                                  EObj (list_to_map [("productId", SStr "prod-2");
                                                     ("quantity", SNum (Fin 0))])]]>
                 apple_receipt)
              [EObj (list_to_map [("productId", SStr "prod-1"); ("quantity", SNum (Fin 1))]);
               EObj (list_to_map [("productId", SStr "prod-2"); ("quantity", SNum (Fin 0))])]
              1 (EObj (list_to_map [("productId", SStr "prod-2"); ("quantity", SNum (Fin 0))])))
    as [Hquantity _]; [reflexivity | reflexivity |].
  apply Hquantity. right. exists (Fin 0). split; reflexivity.
Defined.

(** [apple_receipt] passes both validators. *)
Lemma validateReceipt_accepted_also_as_update_witness :
  valid (validateReceipt (H := sample_platform) apple_receipt) = true
  /\ valid (validateReceiptUpdate (H := sample_platform) apple_receipt) = true.
Proof.
  split; [reflexivity|].
  apply (validateReceipt_accepted_also_as_update (H := sample_platform)). reflexivity.
Defined.

(** * What the services throw *)

Lemma try_catch_rethrow_code {A} (m : M A) (f : JsError -> string) w e :
  (try_catch m (fun error => throw (Error (f error))) w).1 = Thrown e -> code e = None.
Proof.
  unfold try_catch, throw. destruct (m w) as [[a|e'] w']; cbn; [discriminate|].
  by intros [= <-].
Qed.

Section ServiceErrors.
Context `{Platform}.

(** Solves a goal about one service method: its guards throw an [Error]
    made on the spot, and its handler wraps what the repository threw. *)
Ltac plain_error :=
  intros;
  repeat match goal with
         | E : (if ?c then _ else _) _ = _ |- _ => destruct c
         | E : ((if ?c then _ else _) _).1 = _ |- _ => destruct c
         end;
  match goal with
  | E : (throw _ _).1 = Thrown _ |- _ => by injection E as <-
  | E : (try_catch _ _ _).1 = Thrown _ |- _ => by apply try_catch_rethrow_code in E
  end.

(** An error thrown by a method of [ProductService] or [ReceiptService] has
    no [code]: the code of a failure of the store ("permission-denied",
    "not-found", ...) does not reach the caller, only its message does,
    inside the message of a new [Error]. *)
Theorem service_failures_carry_no_code w e :
  (forall userId type, (ProductService_getProducts userId type w).1 = Thrown e -> code e = None)
  /\ (forall productId, (ProductService_getProduct productId w).1 = Thrown e -> code e = None)
  /\ (forall productData,
        (ProductService_createProduct productData w).1 = Thrown e -> code e = None)
  /\ (forall productId updates,
        (ProductService_updateProduct productId updates w).1 = Thrown e -> code e = None)
  /\ (forall productId, (ProductService_deleteProduct productId w).1 = Thrown e -> code e = None)
  /\ (forall productId price date storeName notes,
        (ProductService_addPriceHistory productId price date storeName notes w).1 = Thrown e ->
        code e = None)
  /\ (forall userId, (ReceiptService_getReceipts userId w).1 = Thrown e -> code e = None)
  /\ (forall receiptId, (ReceiptService_getReceipt receiptId w).1 = Thrown e -> code e = None)
  /\ (forall receiptData,
        (ReceiptService_createReceipt receiptData w).1 = Thrown e -> code e = None)
  /\ (forall receiptId updates,
        (ReceiptService_updateReceipt receiptId updates w).1 = Thrown e -> code e = None)
  /\ (forall receiptId, (ReceiptService_deleteReceipt receiptId w).1 = Thrown e -> code e = None)
  /\ (forall productId,
        (ReceiptService_getReceiptsByProduct productId w).1 = Thrown e -> code e = None).
Proof.
  unfold ProductService_getProducts, ProductService_getProduct, ProductService_createProduct,
    ProductService_updateProduct, ProductService_deleteProduct, ProductService_addPriceHistory,
    ReceiptService_getReceipts, ReceiptService_getReceipt, ReceiptService_createReceipt,
    ReceiptService_updateReceipt, ReceiptService_deleteReceipt,
    ReceiptService_getReceiptsByProduct.
  repeat split; plain_error.
Qed.

(** The store's failure, with its code, as [ReceiptService.getReceipts]
    passes it on: without the code. *)
Theorem ReceiptService_getReceipts_wraps_failure userId w error :
  userId <> "" -> initialized w = true -> backend w = Some error ->
  has_code error "failed-precondition" || has_code error "unavailable" = false ->
  (ReceiptService_getReceipts userId w).1
  = Thrown (Error ("Failed to fetch receipts: " ++ message error)).
Proof.
  intros Huser Hinit Hbackend Hcode. unfold ReceiptService_getReceipts.
  assert (missing userId = false) as -> by (by apply String.eqb_neq).
  unfold getReceipts, getDocs, try_catch, bind, check_initialized, request, throw.
  rewrite Hinit. cbn [backend]. rewrite Hbackend. cbn. by rewrite Hcode.
Qed.

(** [lookupProduct] looks at its query only through [query.trim()]: two
    queries with the same trimmed text get the same answer and send the same
    requests.  On a query of white space only it returns null without
    sending any request; on any query it leaves products, receipts and the
    log of store requests as they were. *)
Theorem lookupProduct_blank_query_sends_nothing query w :
  (forall query', trim query' = trim query -> lookupProduct query' w = lookupProduct query w)
  /\ (trim query = "" -> lookupProduct query w = (Returned None, w))
  /\ products (lookupProduct query w).2 = products w
  /\ receipts (lookupProduct query w).2 = receipts w
  /\ calls (lookupProduct query w).2 = calls w.
Proof.
  split; [intros query' Hsame; by rewrite !lookupProduct_run, Hsame|].
  rewrite lookupProduct_run. split; [by intros ->|].
  destruct (String.eqb (trim query) ""); [done|].
  destruct (test_digits (trim query)); [|done].
  by destruct (answer (barcode_url (trim query))).
Qed.

End ServiceErrors.

(** A store that refuses every request, and what the receipt service
    throws over it. *)
Lemma ReceiptService_getReceipts_wraps_failure_witness :
  (ReceiptService_getReceipts (H := sample_platform) "user-1"
     {| initialized := true;
        backend := Some {| code := Some "permission-denied";
                           message := "Missing or insufficient permissions." |};
        products := ∅; receipts := ∅; clock := 0; calls := []; fetched := [] |}).1
  = Thrown (Error "Failed to fetch receipts: Missing or insufficient permissions.").
Proof.
  exact (ReceiptService_getReceipts_wraps_failure (H := sample_platform) "user-1"
           {| initialized := true;
              backend := Some {| code := Some "permission-denied";
                                 message := "Missing or insufficient permissions." |};
              products := ∅; receipts := ∅; clock := 0; calls := []; fetched := [] |}
           {| code := Some "permission-denied";
              message := "Missing or insufficient permissions." |}
           ltac:(discriminate) eq_refl eq_refl eq_refl).
Defined.
